(** * WorkForce Navigator: the job rules engine

    A shallow embedding of the job validation, sanitisation, assignment,
    query, recommendation and statistics code of
    [src/utils/validation.ts], [src/types/job.ts] and the [JobService]
    class, with the properties the specification states about them. *)

From Stdlib Require Import ZArith QArith Qreduction String Ascii List Bool Lia.
From Stdlib Require Import Lqa Sorted Permutation SpecFloat.
From stdpp Require Import gmap list sorting pretty.

Local Open Scope Z_scope.
Local Open Scope nat_scope.
Local Open Scope list_scope.

(** ** JavaScript strings

    A string is its sequence of UTF-16 code units; [length], [substring]
    and the character classes of the regular expressions all work on code
    units. *)

Abbreviation jsstring := (list N).

Definition js (s : string) : jsstring :=
  List.map N_of_ascii (list_ascii_of_string s).

(** [Array.prototype.includes] on values compared with [===]. *)
Definition includes {A} `{EqDecision A} (l : list A) (x : A) : bool :=
  bool_decide (x ∈ l).

(** [Array.prototype.join]. *)
Fixpoint join (sep : jsstring) (l : list jsstring) : jsstring :=
  match l with
  | [] => []
  | [s] => s
  | s :: rest => s ++ sep ++ join sep rest
  end.

(** ECMAScript [WhiteSpace] and [LineTerminator] code units, which
    [String.prototype.trim] strips from both ends. *)
Definition isWhiteSpace (c : N) : bool :=
  includes
    [9; 10; 11; 12; 13; 32; 160; 5760; 8192; 8193; 8194; 8195; 8196; 8197;
     8198; 8199; 8200; 8201; 8202; 8232; 8233; 8239; 8287; 12288; 65279]%N c.

Fixpoint trimStart (s : jsstring) : jsstring :=
  match s with
  | [] => []
  | c :: rest => if isWhiteSpace c then trimStart rest else s
  end.

Definition trimEnd (s : jsstring) : jsstring := rev (trimStart (rev s)).

Definition trim (s : jsstring) : jsstring := trimEnd (trimStart s).

(** Truthiness of a string: the empty string is falsy. *)
Definition nonEmpty (s : jsstring) : bool :=
  match s with [] => false | _ => true end.

(** [String.prototype.includes]: [sub] occurs in [s] as a substring. *)
Fixpoint startsWith (s sub : jsstring) : bool :=
  match sub, s with
  | [] , _ => true
  | _ :: _, [] => false
  | c :: sub', d :: s' => bool_decide (c = d) && startsWith s' sub'
  end.

Fixpoint stringIncludes (s sub : jsstring) : bool :=
  startsWith s sub ||
  match s with
  | [] => false
  | _ :: s' => stringIncludes s' sub
  end.

(** ** Enumerations of [types/job.ts] *)

Inductive JobStatus :=
  PENDING | ASSIGNED | IN_PROGRESS | COMPLETED | CANCELLED | ON_HOLD.

Inductive JobPriority := LOW | MEDIUM | HIGH | URGENT.

#[global] Instance JobStatus_eq_dec : EqDecision JobStatus.
Proof. solve_decision. Defined.

#[global] Instance JobPriority_eq_dec : EqDecision JobPriority.
Proof. solve_decision. Defined.

(** The string value of each enumeration member. *)
Definition JobStatus_value (s : JobStatus) : jsstring :=
  match s with
  | PENDING => js "pending"
  | ASSIGNED => js "assigned"
  | IN_PROGRESS => js "in_progress"
  | COMPLETED => js "completed"
  | CANCELLED => js "cancelled"
  | ON_HOLD => js "on_hold"
  end.

Definition JobPriority_value (p : JobPriority) : jsstring :=
  match p with
  | LOW => js "low"
  | MEDIUM => js "medium"
  | HIGH => js "high"
  | URGENT => js "urgent"
  end.

Definition all_statuses : list JobStatus :=
  [PENDING; ASSIGNED; IN_PROGRESS; COMPLETED; CANCELLED; ON_HOLD].

Definition all_priorities : list JobPriority := [LOW; MEDIUM; HIGH; URGENT].

(** Reading a stored string back as a member of the enumeration. *)
Definition JobStatus_of (raw : jsstring) : option JobStatus :=
  List.find (fun s => bool_decide (JobStatus_value s = raw)) all_statuses.

Definition JobPriority_of (raw : jsstring) : option JobPriority :=
  List.find (fun p => bool_decide (JobPriority_value p = raw)) all_priorities.

(** ** JavaScript numbers

    A number is a rational, [NaN] or a signed infinity.  Arithmetic on
    finite values is exact (the rounding of binary64 is not modelled, nor
    the sign of zero); the special values follow IEEE 754 as JavaScript
    does: [0/0] is [NaN], [x/0] is an infinity, [NaN] is absorbing and
    compares false with everything.  This serves where numbers are
    compared, counted or found to be [NaN].  Where the rounding decides
    the result, the code is modelled otherwise: the great-circle distance
    in binary64 itself, the sum and the average of the workload with the
    engine's operations as parameters. *)

Inductive number := Num (q : Q) | NaN | Infinity (negative : bool).

Module Number.

Definition Qlt_bool (x y : Q) : bool := negb (Qle_bool y x).

Definition of_Z (z : Z) : number := Num (inject_Z z).
Definition of_nat (n : nat) : number := of_Z (Z.of_nat n).

Definition add (a b : number) : number :=
  match a, b with
  | NaN, _ | _, NaN => NaN
  | Num x, Num y => Num (Qred (x + y))
  | Infinity s, Infinity t => if Bool.eqb s t then Infinity s else NaN
  | Infinity s, Num _ | Num _, Infinity s => Infinity s
  end.

Definition neg (a : number) : number :=
  match a with
  | Num x => Num (Qred (- x))
  | NaN => NaN
  | Infinity s => Infinity (negb s)
  end.

Definition sub (a b : number) : number := add a (neg b).

Definition mul (a b : number) : number :=
  match a, b with
  | NaN, _ | _, NaN => NaN
  | Num x, Num y => Num (Qred (x * y))
  | Infinity s, Infinity t => Infinity (xorb s t)
  | Infinity s, Num y | Num y, Infinity s =>
      if Qeq_bool y 0 then NaN else Infinity (xorb s (Qlt_bool y 0))
  end.

Definition div (a b : number) : number :=
  match a, b with
  | NaN, _ | _, NaN => NaN
  | Num x, Num y =>
      if Qeq_bool y 0
      then (if Qeq_bool x 0 then NaN else Infinity (Qlt_bool x 0))
      else Num (Qred (x / y))
  | Num _, Infinity _ => Num 0
  | Infinity s, Num y => Infinity (xorb s (Qlt_bool y 0))
  | Infinity _, Infinity _ => NaN
  end.

(** [a <= b] *)
Definition leb (a b : number) : bool :=
  match a, b with
  | NaN, _ | _, NaN => false
  | Num x, Num y => Qle_bool x y
  | Infinity true, _ => true
  | _, Infinity false => true
  | _, _ => false
  end.

(** [a < b] *)
Definition ltb (a b : number) : bool :=
  match a, b with
  | NaN, _ | _, NaN => false
  | Num x, Num y => Qlt_bool x y
  | Infinity s, Infinity t => s && negb t
  | Infinity s, Num _ => s
  | Num _, Infinity t => negb t
  end.

(** Truthiness of a number: [0] and [NaN] are falsy. *)
Definition truthy (a : number) : bool :=
  match a with
  | Num x => negb (Qeq_bool x 0)
  | NaN => false
  | Infinity _ => true
  end.

End Number.

Declare Scope number_scope.
Delimit Scope number_scope with num.
Bind Scope number_scope with number.
Infix "+" := Number.add : number_scope.
Infix "-" := Number.sub : number_scope.
Infix "*" := Number.mul : number_scope.
Infix "/" := Number.div : number_scope.
Infix "<=?" := Number.leb : number_scope.
Infix "<?" := Number.ltb : number_scope.

(** A [Date], as milliseconds since the epoch. *)
Abbreviation Date := Z.

(** ** Data model of [types/job.ts]

    The records are parametric in [C], the type of geographic
    coordinates.  Enumerated fields of a stored job hold the string the
    store has for them: TypeScript's types are erased and the documents
    are read back untyped. *)

Record JobLocation {C : Type} := {
  address : jsstring;
  latitude : C;
  longitude : C;
  city : jsstring;
  state : jsstring;
  zipCode : jsstring;
  landmark : option jsstring;
  accessInstructions : option jsstring
}.
Arguments JobLocation : clear implicits.

Record Customer {C : Type} := {
  customer_id : jsstring;
  name : jsstring;
  email : option jsstring;
  phone : jsstring;
  alternatePhone : option jsstring;
  customer_address : JobLocation C;
  customer_notes : option jsstring
}.
Arguments Customer : clear implicits.

Record Equipment := {
  equipment_id : jsstring;
  equipment_name : jsstring;
  model : jsstring;
  serialNumber : option jsstring;
  quantity : number;
  equipment_description : option jsstring
}.

Record JobRequirements := {
  skills : list jsstring;
  equipment : list Equipment;
  requirements_estimatedDuration : number;
  tools : list jsstring;
  specialInstructions : option jsstring
}.

(** The [notes] of a stored job are an array of strings, but [updateJob]
    writes the single string of a [JobUpdate] into the same field. *)
Inductive NotesValue :=
| NotesArray (l : list jsstring)
| NotesString (s : jsstring).

Record Job {C : Type} := {
  id : jsstring;
  title : jsstring;
  description : jsstring;
  type : jsstring;
  status : jsstring;
  priority : jsstring;
  customer : Customer C;
  location : JobLocation C;
  assignedTechnicianId : option jsstring;
  assignedBy : option jsstring;
  assignedAt : option Date;
  scheduledDate : Date;
  scheduledTimeSlot : jsstring * jsstring;
  estimatedDuration : number;
  requirements : JobRequirements;
  startedAt : option Date;
  completedAt : option Date;
  actualDuration : option number;
  notes : NotesValue;
  internalNotes : NotesValue;
  createdBy : jsstring;
  createdAt : Date;
  updatedAt : Date;
  completionNotes : option jsstring;
  customerSignature : option jsstring;
  photos : option (list jsstring);
  workSummary : option jsstring
}.
Arguments Job : clear implicits.

Record JobUpdate := {
  update_status : option JobStatus;
  update_notes : option jsstring;
  update_internalNotes : option jsstring;
  update_startedAt : option Date;
  update_completedAt : option Date;
  update_actualDuration : option number;
  update_completionNotes : option jsstring;
  update_customerSignature : option jsstring;
  update_photos : option (list jsstring);
  update_workSummary : option jsstring
}.

Record JobAssignment := {
  jobId : jsstring;
  technicianId : jsstring;
  assignment_assignedBy : jsstring;
  assignment_assignedAt : Date;
  assignment_notes : option jsstring
}.

Record JobStats := {
  total : nat;
  pending : nat;
  assigned : nat;
  inProgress : nat;
  completed : nat;
  cancelled : nat;
  onHold : nat
}.

(** A user document of the [users] collection, as [assignJob] and
    [getJobRecommendations] read it. *)
Record UserDoc {C : Type} := {
  isActive : bool;
  role : jsstring;
  user_skills : option (list jsstring);
  currentLocation : option (C * C)
}.
Arguments UserDoc : clear implicits.

(** ** Sanitizer *)

Module DataSanitizer.

(** [s.replace(/[cs]/g, '')] for a character class [cs]. *)
Definition removeAll (cs : jsstring) (s : jsstring) : jsstring :=
  List.filter (fun c => negb (includes cs c)) s.

(** [s.substring(0, n)]. *)
Definition substring0 (n : nat) (s : jsstring) : jsstring := take n s.

Definition sanitizeString (input : jsstring) : jsstring :=
  substring0 1000
    (removeAll [39; 34]%N   (* apostrophe and double quote *)
       (removeAll (js "<>")
          (trim input))).

(** [if (o.f) o.f = sanitizeString(o.f)] on an optional field. *)
Definition sanitizeField (f : option jsstring) : option jsstring :=
  match f with
  | Some s => if nonEmpty s then Some (sanitizeString s) else f
  | None => None
  end.

(** [sanitizeJobData] on the fields of a [JobUpdate]: the object has no
    title, description, customer or location, and its [notes] and
    [internalNotes] are strings, not arrays, so they pass unchanged. *)
Definition sanitizeJobData (jobData : JobUpdate) : JobUpdate :=
  {| update_status := update_status jobData;
     update_notes := update_notes jobData;
     update_internalNotes := update_internalNotes jobData;
     update_startedAt := update_startedAt jobData;
     update_completedAt := update_completedAt jobData;
     update_actualDuration := update_actualDuration jobData;
     update_completionNotes := sanitizeField (update_completionNotes jobData);
     update_customerSignature := update_customerSignature jobData;
     update_photos := update_photos jobData;
     update_workSummary := sanitizeField (update_workSummary jobData) |}.

End DataSanitizer.

(** ** Validation results *)

Record ValidationResult := {
  isValid : bool;
  errors : list jsstring
}.

Definition mkResult (errs : list jsstring) : ValidationResult :=
  {| isValid := bool_decide (length errs = 0); errors := errs |}.

(** [if (c) errors.push(msg)] *)
Definition pushIf (c : bool) (msg : jsstring) (errors : list jsstring)
  : list jsstring :=
  if c then errors ++ [msg] else errors.

Module JobValidation.

(** The [validTransitions] record of [validateStatusTransition]. *)
Definition validTransitions (s : JobStatus) : list JobStatus :=
  match s with
  | PENDING => [ASSIGNED; CANCELLED]
  | ASSIGNED => [IN_PROGRESS; CANCELLED; ON_HOLD]
  | IN_PROGRESS => [COMPLETED; ON_HOLD; CANCELLED]
  | ON_HOLD => [ASSIGNED; IN_PROGRESS; CANCELLED]
  | COMPLETED => []
  | CANCELLED => []
  end.

Definition invalidTransitionMessage (cur new : JobStatus) : jsstring :=
  js "Invalid status transition from " ++ JobStatus_value cur
    ++ js " to " ++ JobStatus_value new.

Definition validateStatusTransition (currentStatus newStatus : JobStatus)
  : ValidationResult :=
  let errors := [] in
  let errors :=
    pushIf (negb (includes (validTransitions currentStatus) newStatus))
      (invalidTransitionMessage currentStatus newStatus) errors in
  mkResult errors.

(** [!s || s.trim().length === 0] *)
Definition blank (s : jsstring) : bool :=
  negb (nonEmpty s) || bool_decide (length (trim s) = 0).

Definition validateJobAssignment (jobId technicianId assignedBy : jsstring)
  : ValidationResult :=
  let errors := [] in
  let errors := pushIf (blank jobId) (js "Job ID is required") errors in
  let errors :=
    pushIf (blank technicianId) (js "Technician ID is required") errors in
  let errors :=
    pushIf (blank assignedBy) (js "Assigned by field is required") errors in
  mkResult errors.

Definition completionNotesTooLong (d : JobUpdate) : bool :=
  match update_completionNotes d with
  | Some s => nonEmpty s && bool_decide (1000 < length s)
  | None => false
  end.

Definition workSummaryTooLong (d : JobUpdate) : bool :=
  match update_workSummary d with
  | Some s => nonEmpty s && bool_decide (2000 < length s)
  | None => false
  end.

Definition actualDurationRejected (d : JobUpdate) : bool :=
  match update_actualDuration d with
  | Some n => Number.truthy n && (n <=? Number.of_nat 0)%num
  | None => false
  end.

Definition tooManyPhotos (d : JobUpdate) : bool :=
  match update_photos d with
  | Some l => bool_decide (10 < length l)
  | None => false
  end.

Definition validateJobCompletion (completionData : JobUpdate)
  : ValidationResult :=
  let errors := [] in
  let errors :=
    pushIf (completionNotesTooLong completionData)
      (js "Completion notes must be less than 1000 characters") errors in
  let errors :=
    pushIf (workSummaryTooLong completionData)
      (js "Work summary must be less than 2000 characters") errors in
  let errors :=
    pushIf (actualDurationRejected completionData)
      (js "Actual duration must be greater than 0 minutes") errors in
  let errors :=
    pushIf (tooManyPhotos completionData)
      (js "Maximum 10 photos allowed per job") errors in
  mkResult errors.

End JobValidation.

(** ** The document store

    The Firestore collections the service reads and writes, held in
    memory: jobs and users by document id, and the assignment records in
    the order they were added.  Store calls always answer; a failing
    network is not modelled. *)

Record AssignmentRecord := {
  record_assignment : JobAssignment;
  assignmentReason : jsstring
}.

Record Db {C : Type} := {
  db_jobs : gmap jsstring (Job C);
  db_users : gmap jsstring (UserDoc C);
  db_assignments : list AssignmentRecord
}.
Arguments Db : clear implicits.

(** The object handed to [updateDoc] or [batch.update]: the fields it
    holds overwrite those of the stored job, the others are kept. *)
Record JobPatch := {
  patch_status : option jsstring;
  patch_notes : option jsstring;
  patch_internalNotes : option jsstring;
  patch_startedAt : option Date;
  patch_completedAt : option Date;
  patch_actualDuration : option number;
  patch_completionNotes : option jsstring;
  patch_customerSignature : option jsstring;
  patch_photos : option (list jsstring);
  patch_workSummary : option jsstring;
  patch_assignedTechnicianId : option jsstring;
  patch_assignedBy : option jsstring;
  patch_assignedAt : option Date;
  patch_updatedAt : option Date
}.

(** [new <- old]: the patched value of an optional field. *)
Definition overwrite {A} (new old : option A) : option A :=
  match new with Some v => Some v | None => old end.

Definition applyPatch {C} (p : JobPatch) (j : Job C) : Job C :=
  {| id := id j;
     title := title j;
     description := description j;
     type := type j;
     status := default (status j) (patch_status p);
     priority := priority j;
     customer := customer j;
     location := location j;
     assignedTechnicianId :=
       overwrite (patch_assignedTechnicianId p) (assignedTechnicianId j);
     assignedBy := overwrite (patch_assignedBy p) (assignedBy j);
     assignedAt := overwrite (patch_assignedAt p) (assignedAt j);
     scheduledDate := scheduledDate j;
     scheduledTimeSlot := scheduledTimeSlot j;
     estimatedDuration := estimatedDuration j;
     requirements := requirements j;
     startedAt := overwrite (patch_startedAt p) (startedAt j);
     completedAt := overwrite (patch_completedAt p) (completedAt j);
     actualDuration := overwrite (patch_actualDuration p) (actualDuration j);
     notes := default (notes j) (NotesString <$> patch_notes p);
     internalNotes :=
       default (internalNotes j) (NotesString <$> patch_internalNotes p);
     createdBy := createdBy j;
     createdAt := createdAt j;
     updatedAt := default (updatedAt j) (patch_updatedAt p);
     completionNotes := overwrite (patch_completionNotes p) (completionNotes j);
     customerSignature :=
       overwrite (patch_customerSignature p) (customerSignature j);
     photos := overwrite (patch_photos p) (photos j);
     workSummary := overwrite (patch_workSummary p) (workSummary j) |}.

(** A write of a [WriteBatch]. *)
Inductive Write :=
| BatchUpdate (jobId : jsstring) (data : JobPatch)
| BatchSet (record : AssignmentRecord).

(** ** The service monad: state of the store, and thrown errors *)

Inductive Result (A : Type) :=
| Ok (a : A)
| Error (message : jsstring).
Arguments Ok {A} a.
Arguments Error {A} message.

#[global] Instance Result_fmap : FMap Result :=
  fun A B f r => match r with Ok a => Ok (f a) | Error e => Error e end.

(** The value of a result, or [d] for an error. *)
Definition from_result {A} (d : A) (r : Result A) : A :=
  match r with Ok a => a | Error _ => d end.

Definition Service (C A : Type) : Type := Db C -> Result A * Db C.

Definition ret {C A} (a : A) : Service C A := fun db => (Ok a, db).

Definition throw {C A} (message : jsstring) : Service C A :=
  fun db => (Error message, db).

Definition bind {C A B} (m : Service C A) (k : A -> Service C B)
  : Service C B :=
  fun db =>
    match m db with
    | (Ok a, db') => k a db'
    | (Error e, db') => (Error e, db')
    end.

Notation "'do' x <- m ; k" := (bind m (fun x => k))
  (at level 10, x name, m at level 100, k at level 200,
   format "'[v' 'do'  x  <-  m ; '/' k ']'").
Notation "'run' m ; k" := (bind m (fun _ => k))
  (at level 10, m at level 100, k at level 200,
   format "'[v' 'run'  m ; '/' k ']'").

(** [getDoc] on the jobs and on the users collection. *)
Definition getJobDoc {C} (jobId : jsstring) : Service C (option (Job C)) :=
  fun db => (Ok (db_jobs db !! jobId), db).

Definition getUserDoc {C} (uid : jsstring) : Service C (option (UserDoc C)) :=
  fun db => (Ok (db_users db !! uid), db).

(** One write applied to the store; [None] when an update names a
    document that does not exist. *)
Definition applyWrite {C} (w : Write) (db : Db C) : option (Db C) :=
  match w with
  | BatchUpdate jobId data =>
      match db_jobs db !! jobId with
      | Some j =>
          Some {| db_jobs := <[jobId := applyPatch data j]> (db_jobs db);
                  db_users := db_users db;
                  db_assignments := db_assignments db |}
      | None => None
      end
  | BatchSet record =>
      Some {| db_jobs := db_jobs db;
              db_users := db_users db;
              db_assignments := db_assignments db ++ [record] |}
  end.

Fixpoint applyWrites {C} (ws : list Write) (db : Db C) : option (Db C) :=
  match ws with
  | [] => Some db
  | w :: rest =>
      match applyWrite w db with
      | Some db' => applyWrites rest db'
      | None => None
      end
  end.

Definition storeNotFoundMessage : jsstring :=
  js "No document to update".

(** [batch.commit()]: all the writes, or none of them and an error. *)
Definition commit {C} (batch : list Write) : Service C unit :=
  fun db =>
    match applyWrites batch db with
    | Some db' => (Ok tt, db')
    | None => (Error storeNotFoundMessage, db)
    end.

(** [updateDoc(ref, data)]. *)
Definition updateDoc {C} (jobId : jsstring) (data : JobPatch) : Service C unit :=
  commit [BatchUpdate jobId data].

(** ** JobService *)

Module JobService.

(** [data.notes || []] *)
Definition notesOrEmpty (n : NotesValue) : NotesValue :=
  match n with
  | NotesString [] => NotesArray []
  | _ => n
  end.

Definition convertFirestoreToJob {C} (id : jsstring) (data : Job C) : Job C :=
  {| id := id;
     title := title data;
     description := description data;
     type := type data;
     status := status data;
     priority := priority data;
     customer := customer data;
     location := location data;
     assignedTechnicianId := assignedTechnicianId data;
     assignedBy := assignedBy data;
     assignedAt := assignedAt data;
     scheduledDate := scheduledDate data;
     scheduledTimeSlot := scheduledTimeSlot data;
     estimatedDuration := estimatedDuration data;
     requirements := requirements data;
     startedAt := startedAt data;
     completedAt := completedAt data;
     actualDuration := actualDuration data;
     notes := notesOrEmpty (notes data);
     internalNotes := notesOrEmpty (internalNotes data);
     createdBy := createdBy data;
     createdAt := createdAt data;
     updatedAt := updatedAt data;
     completionNotes := completionNotes data;
     customerSignature := customerSignature data;
     photos := Some (default [] (photos data));
     workSummary := workSummary data |}.

Definition getJobById {C} (jobId : jsstring) : Service C (option (Job C)) :=
  do docSnap <- getJobDoc jobId;
  match docSnap with
  | None => ret None
  | Some data => ret (Some (convertFirestoreToJob jobId data))
  end.

(** The [TypeError] of [validTransitions[currentStatus].includes] when
    the stored status is no key of the table. *)
Definition typeErrorMessage : jsstring :=
  js "Cannot read properties of undefined (reading 'includes')".

(** [updateData] of [updateJob]: the sanitized update, the time of the
    update, and the automatic progress timestamps. *)
Definition updateData {C} (now : Date) (currentJob : Job C)
    (updates sanitizedUpdates : JobUpdate) : JobPatch :=
  let startedAt' := update_startedAt sanitizedUpdates in
  let startedAt' := overwrite (update_startedAt updates) startedAt' in
  let completedAt' := update_completedAt sanitizedUpdates in
  let completedAt' := overwrite (update_completedAt updates) completedAt' in
  let startedAt' :=
    if bool_decide (update_status updates = Some IN_PROGRESS)
       && negb (bool_decide (is_Some (startedAt currentJob)))
    then Some now else startedAt' in
  let completedAt' :=
    if bool_decide (update_status updates = Some COMPLETED)
       && negb (bool_decide (is_Some (completedAt currentJob)))
    then Some now else completedAt' in
  {| patch_status := JobStatus_value <$> update_status sanitizedUpdates;
     patch_notes := update_notes sanitizedUpdates;
     patch_internalNotes := update_internalNotes sanitizedUpdates;
     patch_startedAt := startedAt';
     patch_completedAt := completedAt';
     patch_actualDuration := update_actualDuration sanitizedUpdates;
     patch_completionNotes := update_completionNotes sanitizedUpdates;
     patch_customerSignature := update_customerSignature sanitizedUpdates;
     patch_photos := update_photos sanitizedUpdates;
     patch_workSummary := update_workSummary sanitizedUpdates;
     patch_assignedTechnicianId := None;
     patch_assignedBy := None;
     patch_assignedAt := None;
     patch_updatedAt := Some now |}.

(** The status-transition step of [updateJob]: it runs only when the
    update carries a status different from the stored one. *)
Definition checkTransition {C} (currentJob : Job C) (updates : JobUpdate)
  : Service C unit :=
  match update_status updates with
  | Some newStatus =>
      if negb (bool_decide (JobStatus_value newStatus = status currentJob))
      then
        match JobStatus_of (status currentJob) with
        | Some currentStatus =>
            let statusValidation :=
              JobValidation.validateStatusTransition currentStatus newStatus in
            if negb (isValid statusValidation)
            then throw (js "Status transition validation failed: "
                          ++ join (js ", ") (errors statusValidation))
            else ret tt
        | None => throw typeErrorMessage
        end
      else ret tt
  | None => ret tt
  end.

Definition checkCompletion {C} (updates : JobUpdate) : Service C unit :=
  if bool_decide (update_status updates = Some COMPLETED)
  then
    let completionValidation := JobValidation.validateJobCompletion updates in
    if negb (isValid completionValidation)
    then throw (js "Completion validation failed: "
                  ++ join (js ", ") (errors completionValidation))
    else ret tt
  else ret tt.

Definition updateJob {C} (now : Date) (jobId : jsstring) (updates : JobUpdate)
  : Service C unit :=
  do currentJob <- getJobById jobId;
  match currentJob with
  | None => throw (js "Job not found")
  | Some currentJob =>
      run checkTransition currentJob updates;
      run checkCompletion updates;
      let sanitizedUpdates := DataSanitizer.sanitizeJobData updates in
      updateDoc jobId (updateData now currentJob updates sanitizedUpdates)
  end.

Definition assignmentPatch (now : Date) (assignment : JobAssignment)
  : JobPatch :=
  {| patch_status := Some (JobStatus_value ASSIGNED);
     patch_notes := None;
     patch_internalNotes := None;
     patch_startedAt := None;
     patch_completedAt := None;
     patch_actualDuration := None;
     patch_completionNotes := None;
     patch_customerSignature := None;
     patch_photos := None;
     patch_workSummary := None;
     patch_assignedTechnicianId := Some (technicianId assignment);
     patch_assignedBy := Some (assignment_assignedBy assignment);
     patch_assignedAt := Some (assignment_assignedAt assignment);
     patch_updatedAt := Some now |}.

Definition assignmentRecord (assignment : JobAssignment) : AssignmentRecord :=
  {| record_assignment := assignment;
     assignmentReason := js "manual" |}.

Definition assignJob {C} (now : Date) (assignment : JobAssignment)
  : Service C unit :=
  let validation :=
    JobValidation.validateJobAssignment
      (jobId assignment) (technicianId assignment)
      (assignment_assignedBy assignment) in
  if negb (isValid validation)
  then throw (js "Assignment validation failed: "
                ++ join (js ", ") (errors validation))
  else
    do job <- getJobById (jobId assignment);
    match job with
    | None => throw (js "Job not found")
    | Some job =>
        if negb (bool_decide (status job = JobStatus_value PENDING))
        then throw (js "Job cannot be assigned. Current status: "
                      ++ status job)
        else
          do technicianDoc <- getUserDoc (technicianId assignment);
          match technicianDoc with
          | None => throw (js "Technician not found")
          | Some technician =>
              if negb (isActive technician)
              then throw (js "Technician is not active")
              else if negb (bool_decide (role technician = js "technician"))
              then throw (js "User is not a technician")
              else
                commit
                  [BatchUpdate (jobId assignment)
                     (assignmentPatch now assignment);
                   BatchSet (assignmentRecord assignment)]
          end
    end.

End JobService.

(** ** Queries

    A query is the list of constraints it was composed from, in the order
    of composition.  Evaluating it is the store's business: the functions
    below take the evaluator [getDocs] as a parameter. *)

Inductive QueryValue :=
| VString (s : jsstring)
| VStrings (l : list jsstring)
| VDate (t : Date).

Inductive QueryConstraint {C : Type} :=
| orderBy (field direction : jsstring)
| limit (n : nat)
| where_ (field op : jsstring) (value : QueryValue)
| startAfter (docId : jsstring) (data : Job C).
Arguments QueryConstraint : clear implicits.

(** [query(q, c)] *)
Definition query {C} (q : list (QueryConstraint C)) (c : QueryConstraint C)
  : list (QueryConstraint C) := q ++ [c].

Record GeoFilter {C D : Type} := {
  geo_latitude : C;
  geo_longitude : C;
  radius : D
}.
Arguments GeoFilter : clear implicits.

Record JobFilter {C D : Type} := {
  filter_status : option (list JobStatus);
  filter_priority : option (list JobPriority);
  filter_type : option (list jsstring);
  filter_assignedTechnicianId : option jsstring;
  dateRange : option (Date * Date);
  filter_location : option (GeoFilter C D);
  searchText : option jsstring
}.
Arguments JobFilter : clear implicits.

Record JobPage {C : Type} := {
  page_jobs : list (Job C);
  hasMore : bool
}.
Arguments JobPage : clear implicits.

(** [Array.prototype.sort(compare)].  The sort is stable, and for a
    consistent comparator every stable sort returns the same array; it is
    written here as an insertion sort, in which an element moves behind
    another only when [compare] of the two is greater than zero. *)
Fixpoint insertSorted {A} (compare : A -> A -> number) (x : A) (l : list A)
  : list A :=
  match l with
  | [] => [x]
  | y :: rest =>
      if (Number.of_nat 0 <? compare x y)%num
      then y :: insertSorted compare x rest
      else x :: l
  end.

Definition sort {A} (compare : A -> A -> number) (l : list A) : list A :=
  foldr (insertSorted compare) [] l.

Module JobQueries.
Section WithStore.

Context {C D : Type}.

(** [getDocs] on a query over the jobs collection: the documents with
    their ids, or [None] when the store fails. *)
Variable getDocs :
  list (QueryConstraint C) -> gmap jsstring (Job C)
  -> option (list (jsstring * Job C)).

(** [String.prototype.toLowerCase], a Unicode table. *)
Variable toLowerCase : jsstring -> jsstring.

(** The distance in kilometres between two points, and [<=] on
    distances. *)
Variable calculateDistance : C -> C -> C -> C -> D.
Variable le : D -> D -> bool.

(** The store-side predicates of a filter. *)
Definition withFilters (filter : option (JobFilter C D))
    (q : list (QueryConstraint C)) : list (QueryConstraint C) :=
  match filter with
  | None => q
  | Some filter =>
      let q :=
        match filter_status filter with
        | Some ((_ :: _) as l) =>
            query q (where_ (js "status") (js "in")
                       (VStrings (JobStatus_value <$> l)))
        | _ => q
        end in
      let q :=
        match filter_priority filter with
        | Some ((_ :: _) as l) =>
            query q (where_ (js "priority") (js "in")
                       (VStrings (JobPriority_value <$> l)))
        | _ => q
        end in
      let q :=
        match filter_type filter with
        | Some ((_ :: _) as l) =>
            query q (where_ (js "type") (js "in") (VStrings l))
        | _ => q
        end in
      let q :=
        match filter_assignedTechnicianId filter with
        | Some t =>
            if nonEmpty t
            then query q (where_ (js "assignedTechnicianId") (js "==")
                            (VString t))
            else q
        | None => q
        end in
      let q :=
        match dateRange filter with
        | Some (start, end_) =>
            query
              (query q (where_ (js "scheduledDate") (js ">=") (VDate start)))
              (where_ (js "scheduledDate") (js "<=") (VDate end_))
        | None => q
        end in
      q
  end.

(** The pagination cursor: the document of [lastJobId] is fetched again,
    and the query starts after it only if it exists. *)
Definition withCursor (lastJobId : option jsstring) (db : Db C)
    (q : list (QueryConstraint C)) : list (QueryConstraint C) :=
  match lastJobId with
  | Some lastJobId =>
      if nonEmpty lastJobId
      then
        match db_jobs db !! lastJobId with
        | Some lastJobDoc => query q (startAfter lastJobId lastJobDoc)
        | None => q
        end
      else q
  | None => q
  end.

(** The query [getJobs] sends to the store. *)
Definition jobsQuery (filter : option (JobFilter C D)) (pageSize : nat)
    (lastJobId : option jsstring) (db : Db C) : list (QueryConstraint C) :=
  let q := [orderBy (js "createdAt") (js "desc"); limit (pageSize + 1)] in
  let q := withFilters filter q in
  withCursor lastJobId db q.

(** [this.convertFirestoreToJob(doc.id, doc.data())] *)
Definition convertDoc (doc : jsstring * Job C) : Job C :=
  JobService.convertFirestoreToJob doc.1 doc.2.

(** The [forEach] that keeps the first [pageSize] documents. *)
Definition collectPage (pageSize : nat) (docs : list (jsstring * Job C))
  : list (Job C) :=
  foldl
    (fun jobs doc =>
       if length jobs <? pageSize then jobs ++ [convertDoc doc] else jobs)
    [] docs.

Definition matchesText (searchLower : jsstring) (job : Job C) : bool :=
  stringIncludes (toLowerCase (title job)) searchLower
  || stringIncludes (toLowerCase (description job)) searchLower
  || stringIncludes (toLowerCase (name (customer job))) searchLower
  || stringIncludes (toLowerCase (address (location job))) searchLower.

(** The radius filter of [getJobs]. *)
Definition geoFilter (g : GeoFilter C D) (jobs : list (Job C)) : list (Job C) :=
  List.filter
    (fun job =>
       let distance :=
         calculateDistance (geo_latitude g) (geo_longitude g)
           (latitude (location job)) (longitude (location job)) in
       le distance (radius g))
    jobs.

(** The application-side filters. *)
Definition clientFilters (filter : option (JobFilter C D))
    (jobs : list (Job C)) : list (Job C) :=
  let filteredJobs := jobs in
  match filter with
  | None => filteredJobs
  | Some filter =>
      let filteredJobs :=
        match searchText filter with
        | Some text =>
            if nonEmpty text
            then List.filter (matchesText (toLowerCase text)) jobs
            else filteredJobs
        | None => filteredJobs
        end in
      match filter_location filter with
      | Some g => geoFilter g filteredJobs
      | None => filteredJobs
      end
  end.

Definition getJobs (filter : option (JobFilter C D)) (pageSize : option nat)
    (lastJobId : option jsstring) (db : Db C) : Result (JobPage C) :=
  let pageSize := default 20 pageSize in
  let q := jobsQuery filter pageSize lastJobId db in
  match getDocs q (db_jobs db) with
  | None => Error (js "Failed to get jobs")
  | Some docs =>
      let jobs := collectPage pageSize docs in
      let hasMore := pageSize <? length docs in
      Ok {| page_jobs := clientFilters filter jobs; hasMore := hasMore |}
  end.

(** *** Statistics *)

Definition noStats : JobStats :=
  {| total := 0; pending := 0; assigned := 0; inProgress := 0;
     completed := 0; cancelled := 0; onHold := 0 |}.

(** The body of the [forEach] of [getJobStats]: [stats.total++], then
    the [switch] on the status of the document. *)
Definition countJob (stats : JobStats) (job : Job C) : JobStats :=
  let stats :=
    {| total := total stats + 1; pending := pending stats;
       assigned := assigned stats; inProgress := inProgress stats;
       completed := completed stats; cancelled := cancelled stats;
       onHold := onHold stats |} in
  match JobStatus_of (status job) with
  | Some PENDING =>
      {| total := total stats; pending := pending stats + 1;
         assigned := assigned stats; inProgress := inProgress stats;
         completed := completed stats; cancelled := cancelled stats;
         onHold := onHold stats |}
  | Some ASSIGNED =>
      {| total := total stats; pending := pending stats;
         assigned := assigned stats + 1; inProgress := inProgress stats;
         completed := completed stats; cancelled := cancelled stats;
         onHold := onHold stats |}
  | Some IN_PROGRESS =>
      {| total := total stats; pending := pending stats;
         assigned := assigned stats; inProgress := inProgress stats + 1;
         completed := completed stats; cancelled := cancelled stats;
         onHold := onHold stats |}
  | Some COMPLETED =>
      {| total := total stats; pending := pending stats;
         assigned := assigned stats; inProgress := inProgress stats;
         completed := completed stats + 1; cancelled := cancelled stats;
         onHold := onHold stats |}
  | Some CANCELLED =>
      {| total := total stats; pending := pending stats;
         assigned := assigned stats; inProgress := inProgress stats;
         completed := completed stats; cancelled := cancelled stats + 1;
         onHold := onHold stats |}
  | Some ON_HOLD =>
      {| total := total stats; pending := pending stats;
         assigned := assigned stats; inProgress := inProgress stats;
         completed := completed stats; cancelled := cancelled stats;
         onHold := onHold stats + 1 |}
  | None => stats
  end.

Definition computeStats (docs : list (Job C)) : JobStats :=
  foldl countJob noStats docs.

Definition statsQuery (range : option (Date * Date))
  : list (QueryConstraint C) :=
  let q := [] in
  match range with
  | Some (start, end_) =>
      query (query q (where_ (js "createdAt") (js ">=") (VDate start)))
        (where_ (js "createdAt") (js "<=") (VDate end_))
  | None => q
  end.

Definition getJobStats (range : option (Date * Date)) (db : Db C)
  : Result JobStats :=
  match getDocs (statsQuery range) (db_jobs db) with
  | None => Error (js "Failed to get job statistics")
  | Some docs => Ok (computeStats (snd <$> docs))
  end.

End WithStore.
End JobQueries.

(** ** Recommendations *)

(** The property names an object literal inherits from [Object.prototype]. *)
Definition inheritedMember (key : jsstring) : bool :=
  includes
    (js <$> ["constructor"; "hasOwnProperty"; "isPrototypeOf";
             "propertyIsEnumerable"; "toLocaleString"; "toString"; "valueOf";
             "__proto__"; "__defineGetter__"; "__defineSetter__";
             "__lookupGetter__"; "__lookupSetter__"]%string)
    key.

Module Recommendations.
Section WithStore.

Context {C : Type}.

Variable getDocs :
  list (QueryConstraint C) -> gmap jsstring (Job C)
  -> option (list (jsstring * Job C)).

(** [calculateDistance], in kilometres, as a number. *)
Variable calculateDistance : C -> C -> C -> C -> number.

(** The [priorityScores] object, looked up with a stored priority.  A
    priority that names a member every object inherits finds that member,
    a function or an object: added to the score it turns the score into a
    string, which the comparator of the ranking reads as [NaN].  The score
    itself does not leave [getJobRecommendations]; it is [NaN] here. *)
Definition priorityScores (priority : jsstring) : option number :=
  match JobPriority_of priority with
  | Some URGENT => Some (Number.of_nat 30)
  | Some HIGH => Some (Number.of_nat 20)
  | Some MEDIUM => Some (Number.of_nat 10)
  | Some LOW => Some (Number.of_nat 5)
  | None => if inheritedMember priority then Some NaN else None
  end.

Definition matchingSkills (technicianSkills : list jsstring) (job : Job C)
  : list jsstring :=
  List.filter (fun skill => includes technicianSkills skill)
    (skills (requirements job)).

(** The skill term, [(matchingSkills.length / requiredSkills.length) * 50]. *)
Definition skillScore (technicianSkills : list jsstring) (job : Job C)
  : number :=
  let requiredSkills := skills (requirements job) in
  (Number.of_nat (length (matchingSkills technicianSkills job))
     / Number.of_nat (length requiredSkills)
   * Number.of_nat 50)%num.

(** The distance bands; beyond 50 km the score is left as it is. *)
Definition addDistanceScore (distance score : number) : number :=
  if (distance <=? Number.of_nat 5)%num
  then (score + Number.of_nat 20)%num
  else if (distance <=? Number.of_nat 10)%num
  then (score + Number.of_nat 15)%num
  else if (distance <=? Number.of_nat 20)%num
  then (score + Number.of_nat 10)%num
  else if (distance <=? Number.of_nat 50)%num
  then (score + Number.of_nat 5)%num
  else score.

Definition recommendationScore (technicianSkills : list jsstring)
    (technicianLocation : option (C * C)) (job : Job C) : number :=
  let score := Number.of_nat 0 in
  let score := (score + skillScore technicianSkills job)%num in
  let score :=
    (score + default (Number.of_nat 0) (priorityScores (priority job)))%num in
  match technicianLocation with
  | Some (lat, lon) =>
      let distance :=
        calculateDistance lat lon
          (latitude (location job)) (longitude (location job)) in
      addDistanceScore distance score
  | None => score
  end.

(** The comparator of the final sort, [(a, b) => b.score - a.score]. *)
Definition byScoreDescending (a b : Job C * number) : number :=
  (snd b - snd a)%num.

Definition scoreJobs (technician : UserDoc C)
    (docs : list (jsstring * Job C)) : list (Job C * number) :=
  let technicianSkills := default [] (user_skills technician) in
  let technicianLocation := currentLocation technician in
  List.map
    (fun doc =>
       let job := JobQueries.convertDoc doc in
       (job, recommendationScore technicianSkills technicianLocation job))
    docs.

(** The scored jobs, best first, cut to [maxResults]. *)
Definition rankJobs (technician : UserDoc C) (maxResults : nat)
    (docs : list (jsstring * Job C)) : list (Job C * number) :=
  take maxResults (sort byScoreDescending (scoreJobs technician docs)).

Definition pendingQuery (maxResults : nat) : list (QueryConstraint C) :=
  [where_ (js "status") (js "==") (VString (JobStatus_value PENDING));
   orderBy (js "priority") (js "desc");
   limit (maxResults * 2)].

(** Every error, the missing technician included, leaves through the
    [catch], which replaces it by one message. *)
Definition getJobRecommendations (technicianId : jsstring)
    (maxResults : option nat) (db : Db C) : Result (list (Job C)) :=
  let maxResults := default 10 maxResults in
  match db_users db !! technicianId with
  | None => Error (js "Failed to get job recommendations")
  | Some technician =>
      match getDocs (pendingQuery maxResults) (db_jobs db) with
      | None => Error (js "Failed to get job recommendations")
      | Some docs => Ok (fst <$> rankJobs technician maxResults docs)
      end
  end.

End WithStore.
End Recommendations.

(** ** Binary64

    The numbers of [calculateDistance] are the binary64 values of
    IEEE 754, which JavaScript numbers are: a signed zero, a signed
    infinity, [NaN], or a finite value of 53 significant bits.  Sum,
    difference, product, quotient and square root are the correctly
    rounded operations, and the comparisons are false on [NaN]. *)

Module Float64.

Definition float64 : Type := spec_float.

Definition prec : Z := 53.
Definition emax : Z := 1024.

Definition add : float64 -> float64 -> float64 := SFadd prec emax.
Definition sub : float64 -> float64 -> float64 := SFsub prec emax.
Definition mul : float64 -> float64 -> float64 := SFmul prec emax.
Definition div : float64 -> float64 -> float64 := SFdiv prec emax.

(** [Math.sqrt] *)
Definition sqrt : float64 -> float64 := SFsqrt prec emax.

(** [x <= y] and [x == y] *)
Definition leb : float64 -> float64 -> bool := SFleb.
Definition eqb : float64 -> float64 -> bool := SFeqb.

(** An integer literal. *)
Definition of_Z (z : Z) : float64 := binary_normalize prec emax z 0 false.

End Float64.

Declare Scope float64_scope.
Delimit Scope float64_scope with f64.
Infix "+" := Float64.add : float64_scope.
Infix "-" := Float64.sub : float64_scope.
Infix "*" := Float64.mul : float64_scope.
Infix "/" := Float64.div : float64_scope.
Infix "<=?" := Float64.leb : float64_scope.
Infix "=?" := Float64.eqb : float64_scope.

(** ** Great-circle distance

    [calculateDistance] in binary64.  ECMAScript leaves the values of
    [Math.sin], [Math.cos] and [Math.atan2] to the engine
    (implementation-approximated), so they are parameters here; what it
    fixes, that [Math.atan2] of a [NaN] is [NaN], is part of the model. *)

Module Haversine.
Import Float64.
Section Engine.

Variable sin cos : float64 -> float64.
Variable atan2 : float64 -> float64 -> float64.

(** [Math.PI], the double [0x1.921fb54442d18p+1]. *)
Definition PI : float64 := S754_finite false 0x1921FB54442D18 (-51).

(** [Math.atan2(y, x)] *)
Definition Math_atan2 (y x : float64) : float64 :=
  match y, x with
  | S754_nan, _ | _, S754_nan => S754_nan
  | _, _ => atan2 y x
  end.

Definition toRadians (degrees : float64) : float64 :=
  (degrees * (PI / of_Z 180))%f64.

(** The haversine term [a] of [calculateDistance]. *)
Definition haversine (lat1 lon1 lat2 lon2 : float64) : float64 :=
  let dLat := toRadians (lat2 - lat1)%f64 in
  let dLon := toRadians (lon2 - lon1)%f64 in
  (sin (dLat / of_Z 2) * sin (dLat / of_Z 2)
   + cos (toRadians lat1) * cos (toRadians lat2)
     * sin (dLon / of_Z 2) * sin (dLon / of_Z 2))%f64.

Definition calculateDistance (lat1 lon1 lat2 lon2 : float64) : float64 :=
  let R := of_Z 6371 in
  let a := haversine lat1 lon1 lat2 lon2 in
  let c := (of_Z 2 * Math_atan2 (sqrt a) (sqrt (of_Z 1 - a)))%f64 in
  (R * c)%f64.

(** The radius filter of [getJobs] with this distance. *)
Definition geoFilter (g : GeoFilter float64 float64)
    (jobs : list (Job float64)) : list (Job float64) :=
  JobQueries.geoFilter calculateDistance leb g jobs.

End Engine.
End Haversine.

(** An engine for the examples.  [sin] and [cos] are given where the
    examples need them, by the doubles nearest to the sine and cosine of
    the argument: at 82 degrees ([0x1.6e6127ff9d971p+0] radians) and at 90
    degrees ([0x1.921fb54442d18p+0] radians), and at their opposites. *)
Module Engine.
Import Float64.

Definition tabulated (table : list (float64 * float64)) (x : float64)
  : float64 :=
  match List.find (fun entry => (fst entry =? x)%f64) table with
  | Some entry => snd entry
  | None => S754_nan
  end.

Definition rad82 : float64 := S754_finite false 0x16E6127FF9D971 (-52).
Definition rad90 : float64 := S754_finite false 0x1921FB54442D18 (-52).
Definition sin82 : float64 := S754_finite false 0x1FB046A930947A (-53).
Definition cos82 : float64 := S754_finite false 0x11D06C968D9E1A (-55).

Definition sin : float64 -> float64 :=
  tabulated
    [(rad82, sin82); (SFopp rad82, SFopp sin82);
     (rad90, of_Z 1); (SFopp rad90, of_Z (-1))].

Definition cos : float64 -> float64 :=
  tabulated [(rad82, cos82); (SFopp rad82, cos82)].

(** The examples reach [Math.atan2] with a [NaN] argument only, where the
    engine is not asked; any function serves. *)
Definition atan2 (y x : float64) : float64 := y.

End Engine.

(** ** Reading the statistics *)

(** The jobs counted in one of the six buckets. *)
Definition bucketed (s : JobStats) : nat :=
  pending s + assigned s + inProgress s + completed s + cancelled s + onHold s.

(** The stored status is none of the six enumerated values. *)
Definition unknownStatus {C} (job : Job C) : bool :=
  bool_decide (JobStatus_of (status job) = None).

(** ** The order of a ranking *)

(** [a.score >= b.score], on JavaScript numbers. *)
Definition score_ge {A} (a b : A * number) : Prop :=
  (snd b <=? snd a)%num = true.

(** ** The preconditions of an assignment, as the specification lists them *)

Inductive AssignmentCheck :=
| StructurallyValid
| JobExists
| JobIsPending
| TechnicianExists
| TechnicianIsActive
| TechnicianHasRole.

Definition assignment_checks : list AssignmentCheck :=
  [StructurallyValid; JobExists; JobIsPending;
   TechnicianExists; TechnicianIsActive; TechnicianHasRole].

(** A required identifier is given when something is left of it after
    trimming. *)
Definition given (s : jsstring) : bool := nonEmpty (trim s).

Definition check_holds {C} (a : JobAssignment) (db : Db C)
    (c : AssignmentCheck) : bool :=
  match c with
  | StructurallyValid =>
      given (jobId a) && given (technicianId a)
      && given (assignment_assignedBy a)
  | JobExists => bool_decide (is_Some (db_jobs db !! jobId a))
  | JobIsPending =>
      match db_jobs db !! jobId a with
      | Some j => bool_decide (status j = js "pending")
      | None => false
      end
  | TechnicianExists => bool_decide (is_Some (db_users db !! technicianId a))
  | TechnicianIsActive =>
      match db_users db !! technicianId a with
      | Some t => isActive t
      | None => false
      end
  | TechnicianHasRole =>
      match db_users db !! technicianId a with
      | Some t => bool_decide (role t = js "technician")
      | None => false
      end
  end.

(** The first precondition, in the order of the list, that does not hold. *)
Definition first_violation {C} (a : JobAssignment) (db : Db C)
  : option AssignmentCheck :=
  List.find (fun c => negb (check_holds a db c)) assignment_checks.

Definition missing_fields (a : JobAssignment) : list jsstring :=
  (if given (jobId a) then [] else [js "Job ID is required"])
  ++ (if given (technicianId a) then [] else [js "Technician ID is required"])
  ++ (if given (assignment_assignedBy a) then []
      else [js "Assigned by field is required"]).

(** The error each violated precondition is reported with. *)
Definition check_error {C} (a : JobAssignment) (db : Db C)
    (c : AssignmentCheck) : jsstring :=
  match c with
  | StructurallyValid =>
      js "Assignment validation failed: " ++ join (js ", ") (missing_fields a)
  | JobExists => js "Job not found"
  | JobIsPending =>
      js "Job cannot be assigned. Current status: "
        ++ from_option status [] (db_jobs db !! jobId a)
  | TechnicianExists => js "Technician not found"
  | TechnicianIsActive => js "Technician is not active"
  | TechnicianHasRole => js "User is not a technician"
  end.

(** The store after a successful assignment of the stored job [j]. *)
Definition assigned_db {C} (a : JobAssignment) (j' : Job C) (db : Db C) : Db C :=
  {| db_jobs := <[jobId a := j']> (db_jobs db);
     db_users := db_users db;
     db_assignments :=
       db_assignments db
         ++ [{| record_assignment := a; assignmentReason := js "manual" |}] |}.

(** ** Sample documents, used by the examples below *)

Module Sample.

Definition site : JobLocation Q :=
  {| address := js "12 Canal Street";
     latitude := 19 # 1;
     longitude := 73 # 1;
     city := js "Pune";
     state := js "MH";
     zipCode := js "41101";
     landmark := None;
     accessInstructions := None |}.

Definition client : Customer Q :=
  {| customer_id := js "c1";
     name := js "Asha";
     email := None;
     phone := js "9800000000";
     alternatePhone := None;
     customer_address := site;
     customer_notes := None |}.

Definition needs (required : list jsstring) : JobRequirements :=
  {| skills := required;
     equipment := [];
     requirements_estimatedDuration := Number.of_nat 60;
     tools := [];
     specialInstructions := None |}.

(** A stored job with the given status, priority and required skills. *)
Definition job (status' priority' : jsstring) (required : list jsstring)
  : Job Q :=
  {| id := [];
     title := js "Fibre install";
     description := js "Install the router";
     type := js "installation";
     status := status';
     priority := priority';
     customer := client;
     location := site;
     assignedTechnicianId := None;
     assignedBy := None;
     assignedAt := None;
     scheduledDate := 1000;
     scheduledTimeSlot := (js "09:00", js "10:00");
     estimatedDuration := Number.of_nat 60;
     requirements := needs required;
     startedAt := None;
     completedAt := None;
     actualDuration := None;
     notes := NotesArray [];
     internalNotes := NotesArray [];
     createdBy := js "dispatcher";
     createdAt := 500;
     updatedAt := 500;
     completionNotes := None;
     customerSignature := None;
     photos := None;
     workSummary := None |}.

Definition technician (held : list jsstring) : UserDoc Q :=
  {| isActive := true;
     role := js "technician";
     user_skills := Some held;
     currentLocation := Some (19 # 1, 73 # 1) |}.

(** An update that carries nothing but a status. *)
Definition statusOnly (s : JobStatus) : JobUpdate :=
  {| update_status := Some s;
     update_notes := None;
     update_internalNotes := None;
     update_startedAt := None;
     update_completedAt := None;
     update_actualDuration := None;
     update_completionNotes := None;
     update_customerSignature := None;
     update_photos := None;
     update_workSummary := None |}.

(** A completion payload that carries nothing but a duration. *)
Definition durationOnly (minutes : number) : JobUpdate :=
  {| update_status := None;
     update_notes := None;
     update_internalNotes := None;
     update_startedAt := None;
     update_completedAt := None;
     update_actualDuration := Some minutes;
     update_completionNotes := None;
     update_customerSignature := None;
     update_photos := None;
     update_workSummary := None |}.

Definition assignment (job tech dispatcher : jsstring) : JobAssignment :=
  {| jobId := job;
     technicianId := tech;
     assignment_assignedBy := dispatcher;
     assignment_assignedAt := 1500;
     assignment_notes := None |}.

(** A store that answers every query with all its jobs. *)
Definition allDocs (q : list (QueryConstraint Q))
    (jobs : gmap jsstring (Job Q)) : option (list (jsstring * Job Q)) :=
  Some (map_to_list jobs).

(** A distance function that puts every job 3 km away. *)
Definition threeKm (lat1 lon1 lat2 lon2 : Q) : number := Number.of_nat 3.

Definition db (jobs : list (jsstring * Job Q))
    (users : list (jsstring * UserDoc Q)) : Db Q :=
  {| db_jobs := list_to_map jobs;
     db_users := list_to_map users;
     db_assignments := [] |}.

End Sample.

(** The transition table as the specification words it: a relation
    between a status and each of its legal successors. *)
Inductive spec_transition : JobStatus -> JobStatus -> Prop :=
| t_pending_assigned : spec_transition PENDING ASSIGNED
| t_pending_cancelled : spec_transition PENDING CANCELLED
| t_assigned_in_progress : spec_transition ASSIGNED IN_PROGRESS
| t_assigned_cancelled : spec_transition ASSIGNED CANCELLED
| t_assigned_on_hold : spec_transition ASSIGNED ON_HOLD
| t_in_progress_completed : spec_transition IN_PROGRESS COMPLETED
| t_in_progress_on_hold : spec_transition IN_PROGRESS ON_HOLD
| t_in_progress_cancelled : spec_transition IN_PROGRESS CANCELLED
| t_on_hold_assigned : spec_transition ON_HOLD ASSIGNED
| t_on_hold_in_progress : spec_transition ON_HOLD IN_PROGRESS
| t_on_hold_cancelled : spec_transition ON_HOLD CANCELLED.

Definition terminal (s : JobStatus) : Prop := s = COMPLETED \/ s = CANCELLED.

(** ** The other writes of the service *)

(** [deleteJob]: [deleteDoc] succeeds whether or not the document
    exists. *)
Definition deleteJob {C} (jobId : jsstring) : Service C unit :=
  fun db =>
    (Ok tt, {| db_jobs := delete jobId (db_jobs db);
               db_users := db_users db;
               db_assignments := db_assignments db |}).

(** [updateData] of [bulkUpdateJobs]: the update as given and the time of
    the update; nothing is validated or sanitized. *)
Definition bulkUpdateData (now : Date) (jobUpdates : JobUpdate) : JobPatch :=
  {| patch_status := JobStatus_value <$> update_status jobUpdates;
     patch_notes := update_notes jobUpdates;
     patch_internalNotes := update_internalNotes jobUpdates;
     patch_startedAt :=
       overwrite (update_startedAt jobUpdates) (update_startedAt jobUpdates);
     patch_completedAt :=
       overwrite (update_completedAt jobUpdates)
         (update_completedAt jobUpdates);
     patch_actualDuration := update_actualDuration jobUpdates;
     patch_completionNotes := update_completionNotes jobUpdates;
     patch_customerSignature := update_customerSignature jobUpdates;
     patch_photos := update_photos jobUpdates;
     patch_workSummary := update_workSummary jobUpdates;
     patch_assignedTechnicianId := None;
     patch_assignedBy := None;
     patch_assignedAt := None;
     patch_updatedAt := Some now |}.

Definition bulkBatch (now : Date) (updates : list (jsstring * JobUpdate))
  : list Write :=
  List.map (fun update => BatchUpdate update.1 (bulkUpdateData now update.2))
    updates.

(** [bulkUpdateJobs]: one batch; its [catch] replaces every error by one
    message. *)
Definition bulkUpdateJobs {C} (now : Date)
    (updates : list (jsstring * JobUpdate)) : Service C unit :=
  fun db =>
    match commit (bulkBatch now updates) db with
    | (Ok tt, db') => (Ok tt, db')
    | (Error _, db') => (Error (js "Failed to bulk update jobs"), db')
    end.

(** ** Histories of calls

    A call of one of the status-changing operations, and the store after a
    sequence of such calls, each made on the store the previous one left. *)

Inductive Call :=
| CallUpdate (now : Date) (jobId : jsstring) (updates : JobUpdate)
| CallAssign (now : Date) (assignment : JobAssignment).

Definition perform {C} (c : Call) : Service C unit :=
  match c with
  | CallUpdate now jobId updates => JobService.updateJob now jobId updates
  | CallAssign now assignment => JobService.assignJob now assignment
  end.

Definition after {C} (calls : list Call) (db : Db C) : Db C :=
  foldl (fun db c => snd (perform c db)) db calls.

(** The stored status of a job, if the job is stored. *)
Definition statusOf {C} (jobId : jsstring) (db : Db C) : option jsstring :=
  status <$> db_jobs db !! jobId.

(** The assignment records of a job. *)
Definition recordsOf {C} (job : jsstring) (db : Db C) : list AssignmentRecord :=
  List.filter (fun r => bool_decide (jobId (record_assignment r) = job))
    (db_assignments db).

(** The status a successful [updateJob] may leave, given the one it found:
    the same, or a successor in the transition table. *)
Definition allowed_step (before after_ : jsstring) : Prop :=
  before = after_
  \/ exists s s', before = JobStatus_value s /\ after_ = JobStatus_value s'
                  /\ spec_transition s s'.

(** The store once [updateJob] has written the update of job [j]. *)
Definition updated_db {C} (now : Date) (jobId : jsstring) (u : JobUpdate)
    (j : Job C) (db : Db C) : Db C :=
  {| db_jobs :=
       <[jobId :=
           applyPatch
             (JobService.updateData now
                (JobService.convertFirestoreToJob jobId j) u
                (DataSanitizer.sanitizeJobData u)) j]> (db_jobs db);
     db_users := db_users db;
     db_assignments := db_assignments db |}.

(** The stored status is one of the six enumerated values. *)
Definition enumerated (raw : jsstring) : Prop := is_Some (JobStatus_of raw).

(** The stored status is completed or cancelled. *)
Definition terminal_status (raw : jsstring) : Prop :=
  raw = js "completed" \/ raw = js "cancelled".

(** ** Validation of a job to be created

    The validators of [validateJobCreation], on a job whose coordinates
    and durations are JavaScript numbers.  A payload of [createJob] has
    every field of the [Job] type, so the tests for a missing customer,
    location, requirements or time slot, and the [Array.isArray] and
    [typeof] tests, never fire and have no counterpart here. *)

Inductive JobType :=
  INSTALLATION | REPAIR | MAINTENANCE | INSPECTION | UPGRADE | EMERGENCY.

Definition JobType_value (t : JobType) : jsstring :=
  match t with
  | INSTALLATION => js "installation"
  | REPAIR => js "repair"
  | MAINTENANCE => js "maintenance"
  | INSPECTION => js "inspection"
  | UPGRADE => js "upgrade"
  | EMERGENCY => js "emergency"
  end.

Definition all_types : list JobType :=
  [INSTALLATION; REPAIR; MAINTENANCE; INSPECTION; UPGRADE; EMERGENCY].

(** The character class [\d]. *)
Definition isDigit (c : N) : bool := (48 <=? c)%N && (c <=? 57)%N.

(** [s.split(sep)] for a separator of one character. *)
Fixpoint split (sep : N) (s : jsstring) : list jsstring :=
  match s with
  | [] => [[]]
  | c :: rest =>
      if (c =? sep)%N then [] :: split sep rest
      else match split sep rest with
           | first :: others => (c :: first) :: others
           | [] => [[c]]
           end
  end.

(** [Number(s)] for [s] a string of decimal digits, the only strings the
    time pattern lets through; other strings are given [NaN]. *)
Definition digitsToNumber (s : jsstring) : number :=
  if forallb isDigit s
  then Number.of_nat (foldl (fun n c => n * 10 + N.to_nat (c - 48)) 0 s)
  else NaN.

(** The template literal of a non-negative integer. *)
Definition natToString (n : nat) : jsstring := js (pretty n).

Module Patterns.

(** [/^([01]?[0-9]|2[0-3]):[0-5][0-9]$/] *)
Definition timeRegex (s : jsstring) : bool :=
  let minutes (c m1 m2 : N) :=
    (c =? 58)%N && (48 <=? m1)%N && (m1 <=? 53)%N && isDigit m2 in
  match s with
  | [h; c; m1; m2] => isDigit h && minutes c m1 m2
  | [h1; h2; c; m1; m2] =>
      ((((h1 =? 48)%N || (h1 =? 49)%N) && isDigit h2)
       || ((h1 =? 50)%N && (48 <=? h2)%N && (h2 <=? 51)%N))
      && minutes c m1 m2
  | _ => false
  end.

(** [/^\d{5}(-\d{4})?$/] *)
Definition zipRegex (s : jsstring) : bool :=
  match s with
  | [d1; d2; d3; d4; d5] =>
      isDigit d1 && isDigit d2 && isDigit d3 && isDigit d4 && isDigit d5
  | [d1; d2; d3; d4; d5; dash; e1; e2; e3; e4] =>
      isDigit d1 && isDigit d2 && isDigit d3 && isDigit d4 && isDigit d5
      && (dash =? 45)%N
      && isDigit e1 && isDigit e2 && isDigit e3 && isDigit e4
  | _ => false
  end.

(** The class [[\d\s\-\(\)]]. *)
Definition phoneChar (c : N) : bool :=
  isDigit c || isWhiteSpace c || includes [45; 40; 41]%N c.

(** [/^\+?[\d\s\-\(\)]{10,15}$/]: a plus sign can only be matched by the
    optional [\+], which is not in the class. *)
Definition phoneRegex (s : jsstring) : bool :=
  let body := match s with 43%N :: rest => rest | _ => s end in
  (10 <=? length body) && (length body <=? 15) && forallb phoneChar body.

(** The class [[^\s@]]. *)
Definition emailChar (c : N) : bool := negb (isWhiteSpace c) && negb (c =? 64)%N.

(** The part of [s] before its first [@], and the part after it. *)
Fixpoint splitAt (s : jsstring) : option (jsstring * jsstring) :=
  match s with
  | [] => None
  | c :: rest =>
      if (c =? 64)%N then Some ([], rest)
      else match splitAt rest with
           | Some (before, after_) => Some (c :: before, after_)
           | None => None
           end
  end.

(** [/^[^\s@]+@[^\s@]+\.[^\s@]+$/]: the [@] of a match is the first [@] of
    the string; what follows it has a dot that is neither its first nor
    its last character. *)
Definition emailRegex (s : jsstring) : bool :=
  match splitAt s with
  | Some (local, domain) =>
      nonEmpty local && forallb emailChar local
      && forallb emailChar domain
      && includes (removelast (tail domain)) 46%N
  | None => false
  end.

End Patterns.

Module JobCreation.

(** [!n || n <= 0] on a number. *)
Definition notPositive (n : number) : bool :=
  negb (Number.truthy n) || (n <=? Number.of_nat 0)%num.

Definition validateEquipment (equipment : Equipment) : ValidationResult :=
  let errors := [] in
  let errors :=
    pushIf (JobValidation.blank (equipment_name equipment))
      (js "Equipment name is required") errors in
  let errors :=
    pushIf (JobValidation.blank (model equipment))
      (js "Equipment model is required") errors in
  let errors :=
    pushIf (notPositive (quantity equipment))
      (js "Equipment quantity must be greater than 0") errors in
  mkResult errors.

(** The errors of the equipment at [index], each behind its one-based
    position. *)
Definition equipmentErrors (index : nat) (equipment : Equipment)
  : list jsstring :=
  List.map
    (fun error =>
       js "Equipment " ++ natToString (index + 1) ++ js ": " ++ error)
    (errors (validateEquipment equipment)).

Definition validateJobRequirements (requirements : JobRequirements)
  : ValidationResult :=
  let errors := [] in
  let errors :=
    pushIf (bool_decide (length (skills requirements) = 0))
      (js "At least one skill is required") errors in
  let errors :=
    errors ++ concat (imap equipmentErrors (equipment requirements)) in
  let errors :=
    pushIf (notPositive (requirements_estimatedDuration requirements))
      (js "Estimated duration must be greater than 0 minutes") errors in
  mkResult errors.

Definition validateLocation (location : JobLocation number)
  : ValidationResult :=
  let errors := [] in
  let errors :=
    pushIf (JobValidation.blank (address location))
      (js "Location address is required") errors in
  let errors :=
    pushIf ((latitude location <? Number.of_Z (-90))%num
            || (Number.of_nat 90 <? latitude location)%num)
      (js "Valid latitude is required (-90 to 90)") errors in
  let errors :=
    pushIf ((longitude location <? Number.of_Z (-180))%num
            || (Number.of_nat 180 <? longitude location)%num)
      (js "Valid longitude is required (-180 to 180)") errors in
  let errors :=
    pushIf (JobValidation.blank (city location)) (js "City is required")
      errors in
  let errors :=
    pushIf (JobValidation.blank (state location)) (js "State is required")
      errors in
  let errors :=
    pushIf (negb (nonEmpty (zipCode location))
            || negb (Patterns.zipRegex (zipCode location)))
      (js "Valid ZIP code is required") errors in
  mkResult errors.

Definition validateTimeSlot (timeSlot : jsstring * jsstring)
  : ValidationResult :=
  let start := fst timeSlot in
  let end_ := snd timeSlot in
  let errors := [] in
  let errors :=
    pushIf (negb (nonEmpty start) || negb (Patterns.timeRegex start))
      (js "Start time must be in HH:MM format") errors in
  let errors :=
    pushIf (negb (nonEmpty end_) || negb (Patterns.timeRegex end_))
      (js "End time must be in HH:MM format") errors in
  let errors :=
    if nonEmpty start && nonEmpty end_
       && Patterns.timeRegex start && Patterns.timeRegex end_
    then
      let startParts := digitsToNumber <$> split 58 start in
      let endParts := digitsToNumber <$> split 58 end_ in
      let startHour := nth 0 startParts NaN in
      let startMin := nth 1 startParts NaN in
      let endHour := nth 0 endParts NaN in
      let endMin := nth 1 endParts NaN in
      let startMinutes := (startHour * Number.of_nat 60 + startMin)%num in
      let endMinutes := (endHour * Number.of_nat 60 + endMin)%num in
      pushIf (endMinutes <=? startMinutes)%num
        (js "End time must be after start time") errors
    else errors in
  mkResult errors.

(** [if (c1) errors.push(m1); else if (c2) errors.push(m2)] *)
Definition pushFirst (c1 : bool) (m1 : jsstring) (c2 : bool) (m2 : jsstring)
    (errors : list jsstring) : list jsstring :=
  if c1 then errors ++ [m1] else pushIf c2 m2 errors.

Definition truthyField (f : option jsstring) : bool :=
  match f with Some s => nonEmpty s | None => false end.

Definition validateCustomer (customer : Customer number) : ValidationResult :=
  let errors := [] in
  let errors :=
    pushFirst (JobValidation.blank (name customer))
      (js "Customer name is required")
      (bool_decide (100 < length (name customer)))
      (js "Customer name must be less than 100 characters") errors in
  let errors :=
    pushFirst (JobValidation.blank (phone customer))
      (js "Customer phone is required")
      (negb (Patterns.phoneRegex (phone customer)))
      (js "Customer phone must be a valid phone number") errors in
  let errors :=
    pushIf (truthyField (email customer)
            && negb (Patterns.emailRegex (default [] (email customer))))
      (js "Customer email must be a valid email address") errors in
  let errors :=
    pushIf (truthyField (alternatePhone customer)
            && negb (Patterns.phoneRegex (default [] (alternatePhone customer))))
      (js "Alternate phone must be a valid phone number") errors in
  mkResult errors.

(** [validation.errors], where a local [errors] hides the field. *)
Definition errorsOf (validation : ValidationResult) : list jsstring :=
  errors validation.

Definition validateJobCreation (now : Date) (jobData : Job number)
  : ValidationResult :=
  let errors := [] in
  let errors :=
    pushFirst (JobValidation.blank (title jobData)) (js "Job title is required")
      (bool_decide (100 < length (title jobData)))
      (js "Job title must be less than 100 characters") errors in
  let errors :=
    pushFirst (JobValidation.blank (description jobData))
      (js "Job description is required")
      (bool_decide (1000 < length (description jobData)))
      (js "Job description must be less than 1000 characters") errors in
  let errors :=
    pushIf (negb (nonEmpty (type jobData))
            || negb (includes (JobType_value <$> all_types) (type jobData)))
      (js "Valid job type is required") errors in
  let errors :=
    pushIf (negb (nonEmpty (priority jobData))
            || negb (includes (JobPriority_value <$> all_priorities)
                       (priority jobData)))
      (js "Valid job priority is required") errors in
  let errors :=
    pushIf (scheduledDate jobData <? now)%Z
      (js "Scheduled date cannot be in the past") errors in
  let errors :=
    pushFirst (notPositive (estimatedDuration jobData))
      (js "Estimated duration must be greater than 0 minutes")
      (Number.of_nat 1440 <? estimatedDuration jobData)%num
      (js "Estimated duration cannot exceed 24 hours") errors in
  let errors :=
    pushIf (JobValidation.blank (createdBy jobData))
      (js "Created by field is required") errors in
  let errors := errors ++ errorsOf (validateCustomer (customer jobData)) in
  let errors := errors ++ errorsOf (validateLocation (location jobData)) in
  let errors :=
    errors ++ errorsOf (validateJobRequirements (requirements jobData)) in
  let errors :=
    errors ++ errorsOf (validateTimeSlot (scheduledTimeSlot jobData)) in
  mkResult errors.

End JobCreation.

(** ** Creating a job *)

Module JobCreationService.

(** [sanitizeString] on a required string field, under [if (o.f)]. *)
Definition sanitizeText (s : jsstring) : jsstring :=
  if nonEmpty s then DataSanitizer.sanitizeString s else s.

(** [notes.map(note => sanitizeString(note))] under
    [if (notes && Array.isArray(notes))]. *)
Definition sanitizeNotes (n : NotesValue) : NotesValue :=
  match n with
  | NotesArray l => NotesArray (DataSanitizer.sanitizeString <$> l)
  | NotesString s => NotesString s
  end.

Definition sanitizeCustomer {C} (c : Customer C) : Customer C :=
  {| customer_id := customer_id c;
     name := sanitizeText (name c);
     email := DataSanitizer.sanitizeField (email c);
     phone := phone c;
     alternatePhone := alternatePhone c;
     customer_address := customer_address c;
     customer_notes := DataSanitizer.sanitizeField (customer_notes c) |}.

Definition sanitizeLocation {C} (l : JobLocation C) : JobLocation C :=
  {| address := sanitizeText (address l);
     latitude := latitude l;
     longitude := longitude l;
     city := sanitizeText (city l);
     state := sanitizeText (state l);
     zipCode := zipCode l;
     landmark := DataSanitizer.sanitizeField (landmark l);
     accessInstructions := DataSanitizer.sanitizeField (accessInstructions l) |}.

(** [sanitizeJobData] on the payload of [createJob].  (The source copies
    the payload one level deep and sanitizes customer and location in
    place, so the caller's own customer and location objects change too;
    the payload here is a value.) *)
Definition sanitizeJobData {C} (jobData : Job C) : Job C :=
  {| id := id jobData;
     title := sanitizeText (title jobData);
     description := sanitizeText (description jobData);
     type := type jobData;
     status := status jobData;
     priority := priority jobData;
     customer := sanitizeCustomer (customer jobData);
     location := sanitizeLocation (location jobData);
     assignedTechnicianId := assignedTechnicianId jobData;
     assignedBy := assignedBy jobData;
     assignedAt := assignedAt jobData;
     scheduledDate := scheduledDate jobData;
     scheduledTimeSlot := scheduledTimeSlot jobData;
     estimatedDuration := estimatedDuration jobData;
     requirements := requirements jobData;
     startedAt := startedAt jobData;
     completedAt := completedAt jobData;
     actualDuration := actualDuration jobData;
     notes := sanitizeNotes (notes jobData);
     internalNotes := sanitizeNotes (internalNotes jobData);
     createdBy := createdBy jobData;
     createdAt := createdAt jobData;
     updatedAt := updatedAt jobData;
     completionNotes := DataSanitizer.sanitizeField (completionNotes jobData);
     customerSignature := customerSignature jobData;
     photos := photos jobData;
     workSummary := DataSanitizer.sanitizeField (workSummary jobData) |}.

(** The [job] object of [createJob]: the sanitized payload, pending, with
    the time of creation. *)
Definition newJob {C} (now : Date) (sanitizedData : Job C) : Job C :=
  {| id := id sanitizedData;
     title := title sanitizedData;
     description := description sanitizedData;
     type := type sanitizedData;
     status := JobStatus_value PENDING;
     priority := priority sanitizedData;
     customer := customer sanitizedData;
     location := location sanitizedData;
     assignedTechnicianId := assignedTechnicianId sanitizedData;
     assignedBy := assignedBy sanitizedData;
     assignedAt := assignedAt sanitizedData;
     scheduledDate := scheduledDate sanitizedData;
     scheduledTimeSlot := scheduledTimeSlot sanitizedData;
     estimatedDuration := estimatedDuration sanitizedData;
     requirements := requirements sanitizedData;
     startedAt := startedAt sanitizedData;
     completedAt := completedAt sanitizedData;
     actualDuration := actualDuration sanitizedData;
     notes := JobService.notesOrEmpty (notes sanitizedData);
     internalNotes := JobService.notesOrEmpty (internalNotes sanitizedData);
     createdBy := createdBy sanitizedData;
     createdAt := now;
     updatedAt := now;
     completionNotes := completionNotes sanitizedData;
     customerSignature := customerSignature sanitizedData;
     photos := photos sanitizedData;
     workSummary := workSummary sanitizedData |}.

(** [s.split(/\s+/)]: the pieces between the runs of whitespace; a run at
    either end leaves an empty piece there. *)
Fixpoint splitWhitespace (afterSpace : bool) (s : jsstring) : list jsstring :=
  match s with
  | [] => [[]]
  | c :: rest =>
      if isWhiteSpace c
      then (if afterSpace then splitWhitespace true rest
            else [] :: splitWhitespace true rest)
      else match splitWhitespace false rest with
           | first :: others => (c :: first) :: others
           | [] => [[c]]
           end
  end.

(** [[...new Set(keywords)]]: the first occurrence of each keyword, in
    order. *)
Definition distinct (keywords : list jsstring) : list jsstring :=
  foldl (fun seen k => if includes seen k then seen else seen ++ [k])
    [] keywords.

Section Keywords.

Variable toLowerCase : jsstring -> jsstring.

Definition allKeywords {C} (job : Job C) : list jsstring :=
  let titleWords := splitWhitespace false (toLowerCase (title job)) in
  let descriptionWords :=
    splitWhitespace false (toLowerCase (description job)) in
  let keywords := titleWords ++ descriptionWords in
  let keywords := keywords ++ [toLowerCase (name (customer job))] in
  let keywords := keywords ++ [toLowerCase (city (location job))] in
  let keywords := keywords ++ [toLowerCase (state (location job))] in
  let keywords := keywords ++ [toLowerCase (address (location job))] in
  let keywords := keywords ++ [toLowerCase (type job)] in
  let keywords := keywords ++ [toLowerCase (priority job)] in
  keywords ++ (toLowerCase <$> skills (requirements job)).

Definition generateSearchKeywords {C} (job : Job C) : list jsstring :=
  distinct (List.filter (fun keyword => 0 <? length keyword) (allKeywords job)).

End Keywords.

(** [createJob].  [docId] is the identifier [addDoc] gives the new
    document.  The document written also carries the search keywords of the
    job; nothing in the service reads them back, and the stored job here
    is the job without them. *)
Definition createJob (docId : jsstring) (now : Date) (jobData : Job number)
  : Service number jsstring :=
  let validation := JobCreation.validateJobCreation now jobData in
  if negb (isValid validation)
  then throw (js "Validation failed: " ++ join (js ", ") (errors validation))
  else
    let sanitizedData := sanitizeJobData jobData in
    let job := newJob now sanitizedData in
    fun db =>
      (Ok docId, {| db_jobs := <[docId := job]> (db_jobs db);
                    db_users := db_users db;
                    db_assignments := db_assignments db |}).

End JobCreationService.

(** ** Well-formed clock times and ZIP codes, for the statements below *)

Definition twoDigits (n : nat) : jsstring :=
  [N.of_nat (48 + n / 10); N.of_nat (48 + n mod 10)].

(** The time [h:m] written [HH:MM]. *)
Definition clock (h m : nat) : jsstring := twoDigits h ++ [58%N] ++ twoDigits m.

(** A coordinate passes a range test when it is in the range or [NaN]. *)
Definition in_range_or_NaN (lo hi x : number) : Prop :=
  x = NaN \/ ((lo <=? x)%num = true /\ (x <=? hi)%num = true).

(** Five digits, optionally followed by a hyphen and four digits. *)
Definition zip_shape (z : jsstring) : Prop :=
  exists five rest,
    z = five ++ rest /\ length five = 5 /\ Forall (fun c => isDigit c = true) five
    /\ (rest = []
        \/ exists four,
             rest = 45%N :: four /\ length four = 4
             /\ Forall (fun c => isDigit c = true) four).

(** [local@domain.tld]: three non-empty parts without whitespace or [@]. *)
Definition email_shape (e : jsstring) : Prop :=
  exists a b c,
    e = a ++ [64%N] ++ b ++ [46%N] ++ c
    /\ a <> [] /\ b <> [] /\ c <> []
    /\ Forall (fun x => Patterns.emailChar x = true) (a ++ b ++ c).

(** A string with something other than whitespace in it. *)
Definition filled (s : jsstring) : Prop := trim s <> [].

(** The number is greater than 0. *)
Definition positive (n : number) : Prop := (Number.of_nat 0 <? n)%num = true.

Definition equipment_ok (e : Equipment) : Prop :=
  filled (equipment_name e) /\ filled (model e) /\ positive (quantity e).

(** A well-formed clock time passes the pattern and is read back as its
    hour and its minute. *)
Definition clock_reads_back (h m : nat) : bool :=
  Patterns.timeRegex (clock h m) && nonEmpty (clock h m)
  && match digitsToNumber <$> split 58 (clock h m) with
     | [Num a; Num b] =>
         Qeq_bool a (inject_Z (Z.of_nat h)) && Qeq_bool b (inject_Z (Z.of_nat m))
     | _ => false
     end.

(** An optional plus sign, then 10 to 15 digits, whitespace characters,
    hyphens or parentheses. *)
Definition phone_shape (p : jsstring) : Prop :=
  exists body,
    (p = body \/ p = 43%N :: body)
    /\ 10 <= length body <= 15
    /\ Forall (fun c => Patterns.phoneChar c = true) body.

(** An optional text field that is absent, empty, or of the given shape. *)
Definition absent_or (shape : jsstring -> Prop) (f : option jsstring) : Prop :=
  match f with
  | Some (c :: s) => shape (c :: s)
  | _ => True
  end.

(** ** Sample payloads of [createJob] *)

Module Payload.

Definition site : JobLocation number :=
  {| address := js "12 Canal Street";
     latitude := Number.of_nat 19;
     longitude := Number.of_nat 73;
     city := js "Pune";
     state := js "MH";
     zipCode := js "41101";
     landmark := None;
     accessInstructions := None |}.

Definition client : Customer number :=
  {| customer_id := js "c1";
     name := js "Asha";
     email := Some (js "asha@example.org");
     phone := js "9800000000";
     alternatePhone := None;
     customer_address := site;
     customer_notes := None |}.

(** A payload that passes validation at any time up to 1000, with the
    given title and status. *)
Definition job (title' status' : jsstring) : Job number :=
  {| id := [];
     title := title';
     description := js "Install the router";
     type := js "installation";
     status := status';
     priority := js "high";
     customer := client;
     location := site;
     assignedTechnicianId := None;
     assignedBy := None;
     assignedAt := None;
     scheduledDate := 1000;
     scheduledTimeSlot := (js "09:00", js "10:00");
     estimatedDuration := Number.of_nat 60;
     requirements := Sample.needs [js "cabling"];
     startedAt := None;
     completedAt := None;
     actualDuration := None;
     notes := NotesArray [];
     internalNotes := NotesArray [];
     createdBy := js "dispatcher";
     createdAt := 0;
     updatedAt := 0;
     completionNotes := None;
     customerSignature := None;
     photos := None;
     workSummary := None |}.

Definition emptyDb : Db number :=
  {| db_jobs := ∅; db_users := ∅; db_assignments := [] |}.

End Payload.

(** ** Searching *)

(** The parameter object of [searchJobs]. *)
Record SearchParams {C D : Type} := {
  search_query : option jsstring;
  filters : option (JobFilter C D);
  sortBy : option jsstring;
  sortOrder : option jsstring;
  search_pageSize : option nat;
  search_lastJobId : option jsstring
}.
Arguments SearchParams : clear implicits.

Module JobSearch.
Section WithStore.

Context {C D : Type}.

Variable getDocs :
  list (QueryConstraint C) -> gmap jsstring (Job C)
  -> option (list (jsstring * Job C)).
Variable toLowerCase : jsstring -> jsstring.
Variable calculateDistance : C -> C -> C -> C -> D.
Variable le : D -> D -> bool.

(** The query [searchJobs] sends to the store. *)
Definition searchJobsQuery (searchParams : SearchParams C D) (db : Db C)
  : list (QueryConstraint C) :=
  let sortBy := default (js "createdAt") (sortBy searchParams) in
  let sortOrder := default (js "desc") (sortOrder searchParams) in
  let pageSize := default 20 (search_pageSize searchParams) in
  let q := [orderBy sortBy sortOrder; limit (pageSize + 1)] in
  let q := JobQueries.withFilters (filters searchParams) q in
  JobQueries.withCursor (search_lastJobId searchParams) db q.

(** The fields the text search looks into. *)
Definition matchesQuery (searchLower : jsstring) (job : Job C) : bool :=
  stringIncludes (toLowerCase (title job)) searchLower
  || stringIncludes (toLowerCase (description job)) searchLower
  || stringIncludes (toLowerCase (name (customer job))) searchLower
  || stringIncludes (toLowerCase (address (location job))) searchLower
  || stringIncludes (toLowerCase (city (location job))) searchLower
  || existsb (fun skill => stringIncludes (toLowerCase skill) searchLower)
       (skills (requirements job))
  || stringIncludes (toLowerCase (type job)) searchLower
  || stringIncludes (toLowerCase (priority job)) searchLower.

(** [if (searchQuery && searchQuery.trim().length > 0)] *)
Definition textFilter (searchQuery : option jsstring) (jobs : list (Job C))
  : list (Job C) :=
  match searchQuery with
  | Some searchQuery =>
      if nonEmpty searchQuery && (0 <? length (trim searchQuery))
      then List.filter (matchesQuery (toLowerCase searchQuery)) jobs
      else jobs
  | None => jobs
  end.

(** [if (filters?.location)] *)
Definition locationFilter (filters : option (JobFilter C D))
    (jobs : list (Job C)) : list (Job C) :=
  match filters with
  | Some filters =>
      match filter_location filters with
      | Some g => JobQueries.geoFilter calculateDistance le g jobs
      | None => jobs
      end
  | None => jobs
  end.

Definition searchJobs (searchParams : SearchParams C D) (db : Db C)
  : Result (JobPage C) :=
  let pageSize := default 20 (search_pageSize searchParams) in
  let q := searchJobsQuery searchParams db in
  match getDocs q (db_jobs db) with
  | None => Error (js "Failed to search jobs")
  | Some docs =>
      let jobs := JobQueries.collectPage pageSize docs in
      let hasMore := pageSize <? length docs in
      let filteredJobs := textFilter (search_query searchParams) jobs in
      let filteredJobs := locationFilter (filters searchParams) filteredJobs in
      Ok {| page_jobs := filteredJobs; hasMore := hasMore |}
  end.

End WithStore.
End JobSearch.

(** ** Jobs near a place *)

Module Proximity.
Section WithStore.

Context {C : Type}.

Variable getDocs :
  list (QueryConstraint C) -> gmap jsstring (Job C)
  -> option (list (jsstring * Job C)).
Variable calculateDistance : C -> C -> C -> C -> number.

Definition proximityQuery (maxResults : nat) : list (QueryConstraint C) :=
  [where_ (js "status") (js "in")
     (VStrings [JobStatus_value PENDING; JobStatus_value ASSIGNED]);
   limit (maxResults * 3)].

(** The distance from the place [(lat, lon)] to a job. *)
Definition distanceTo (lat lon : C) (job : Job C) : number :=
  calculateDistance lat lon (latitude (location job))
    (longitude (location job)).

(** The [forEach]: a job is kept, with its distance, when the distance is
    at most the radius. *)
Definition withinRadius (lat lon : C) (radiusKm : number)
    (docs : list (jsstring * Job C)) : list (Job C * number) :=
  foldl
    (fun jobs doc =>
       let job := JobQueries.convertDoc doc in
       let distance := distanceTo lat lon job in
       if (distance <=? radiusKm)%num then jobs ++ [(job, distance)] else jobs)
    [] docs.

(** The comparator [(a, b) => a.distance - b.distance]. *)
Definition byDistance (a b : Job C * number) : number := (snd a - snd b)%num.

(** The jobs are returned with the [distance] field they were given. *)
Definition getJobsByProximity (lat lon : C) (radiusKm : number)
    (maxResults : option nat) (db : Db C) : Result (list (Job C * number)) :=
  let maxResults := default 10 maxResults in
  match getDocs (proximityQuery maxResults) (db_jobs db) with
  | None => Error (js "Failed to get jobs by proximity")
  | Some docs =>
      let jobs := withinRadius lat lon radiusKm docs in
      Ok (take maxResults (sort byDistance jobs))
  end.

End WithStore.
End Proximity.

(** ** Workload of a technician *)

Record TechnicianWorkload := {
  workload_technicianId : jsstring;
  technicianName : jsstring;
  activeJobs : nat;
  scheduledJobs : nat;
  completedToday : nat;
  averageJobDuration : number
}.

(** The four counters of [getTechnicianWorkload]. *)
Record WorkloadCounters := {
  count_activeJobs : nat;
  count_scheduledJobs : nat;
  totalDuration : number;
  completedJobs : nat
}.

Module Workload.
Section WithStore.

Context {C : Type}.

Variable getDocs :
  list (QueryConstraint C) -> gmap jsstring (Job C)
  -> option (list (jsstring * Job C)).

(** [a + b] and [a / b] on durations, as the engine computes them: rounded
    to binary64, an infinity on overflow. *)
Variable add div : number -> number -> number.

(** [d.setHours(0, 0, 0, 0)] and [d.setDate(d.getDate() + 1)], both in the
    time zone of the host. *)
Variable startOfDay : Date -> Date.
Variable nextDay : Date -> Date.

Definition allJobsQuery (technicianId : jsstring) : list (QueryConstraint C) :=
  [where_ (js "assignedTechnicianId") (js "==") (VString technicianId)].

Definition todayJobsQuery (now : Date) (technicianId : jsstring)
  : list (QueryConstraint C) :=
  let today := startOfDay now in
  let tomorrow := nextDay today in
  [where_ (js "assignedTechnicianId") (js "==") (VString technicianId);
   where_ (js "completedAt") (js ">=") (VDate today);
   where_ (js "completedAt") (js "<") (VDate tomorrow)].

(** [if (job.actualDuration)] *)
Definition timed (job : Job C) : bool :=
  match actualDuration job with
  | Some minutes => Number.truthy minutes
  | None => false
  end.

(** The body of the [forEach] over the jobs of the technician. *)
Definition countJob (counters : WorkloadCounters) (job : Job C)
  : WorkloadCounters :=
  let activeJobs :=
    if bool_decide (status job = JobStatus_value IN_PROGRESS)
    then count_activeJobs counters + 1
    else count_activeJobs counters in
  let scheduledJobs :=
    if bool_decide (status job = JobStatus_value IN_PROGRESS)
    then count_scheduledJobs counters
    else if bool_decide (status job = JobStatus_value ASSIGNED)
    then count_scheduledJobs counters + 1
    else count_scheduledJobs counters in
  match actualDuration job with
  | Some minutes =>
      if Number.truthy minutes
      then {| count_activeJobs := activeJobs;
              count_scheduledJobs := scheduledJobs;
              totalDuration := add (totalDuration counters) minutes;
              completedJobs := completedJobs counters + 1 |}
      else {| count_activeJobs := activeJobs;
              count_scheduledJobs := scheduledJobs;
              totalDuration := totalDuration counters;
              completedJobs := completedJobs counters |}
  | None =>
      {| count_activeJobs := activeJobs;
         count_scheduledJobs := scheduledJobs;
         totalDuration := totalDuration counters;
         completedJobs := completedJobs counters |}
  end.

Definition noCounters : WorkloadCounters :=
  {| count_activeJobs := 0; count_scheduledJobs := 0;
     totalDuration := Number.of_nat 0; completedJobs := 0 |}.

Definition getTechnicianWorkload (now : Date) (technicianId : jsstring)
    (db : Db C) : Result TechnicianWorkload :=
  match getDocs (allJobsQuery technicianId) (db_jobs db),
        getDocs (todayJobsQuery now technicianId) (db_jobs db) with
  | Some allJobsSnapshot, Some todayJobsSnapshot =>
      let counters := foldl countJob noCounters (snd <$> allJobsSnapshot) in
      let completedToday := length todayJobsSnapshot in
      let averageJobDuration :=
        if 0 <? completedJobs counters
        then div (totalDuration counters)
               (Number.of_nat (completedJobs counters))
        else Number.of_nat 0 in
      Ok {| workload_technicianId := technicianId;
            technicianName := [];
            activeJobs := count_activeJobs counters;
            scheduledJobs := count_scheduledJobs counters;
            completedToday := completedToday;
            averageJobDuration := averageJobDuration |}
  | _, _ => Error (js "Failed to get technician workload")
  end.

End WithStore.
End Workload.

(** ** Jobs requiring attention *)

(** [Map.prototype.set] on a map kept in insertion order: a key already
    present keeps its place and takes the new value. *)
Fixpoint mapSet {V} (key : jsstring) (value : V) (m : list (jsstring * V))
  : list (jsstring * V) :=
  match m with
  | [] => [(key, value)]
  | (k, v) :: rest =>
      if bool_decide (k = key) then (k, value) :: rest
      else (k, v) :: mapSet key value rest
  end.

Module Attention.
Section WithStore.

Context {C : Type}.

Variable getDocs :
  list (QueryConstraint C) -> gmap jsstring (Job C)
  -> option (list (jsstring * Job C)).

Definition openStatuses : QueryValue :=
  VStrings [JobStatus_value PENDING; JobStatus_value ASSIGNED].

Definition overdueQuery (now : Date) : list (QueryConstraint C) :=
  [where_ (js "scheduledDate") (js "<") (VDate now);
   where_ (js "status") (js "in") openStatuses].

Definition highPriorityQuery : list (QueryConstraint C) :=
  [where_ (js "priority") (js "in")
     (VStrings [JobPriority_value HIGH; JobPriority_value URGENT]);
   where_ (js "status") (js "in") openStatuses].

Definition longRunningQuery (now : Date) : list (QueryConstraint C) :=
  let oneDayAgo := (now - 24 * 60 * 60 * 1000)%Z in
  [where_ (js "startedAt") (js "<") (VDate oneDayAgo);
   where_ (js "status") (js "==") (VString (JobStatus_value IN_PROGRESS))].

(** The inner [forEach]: every document of a snapshot is set in the map
    under its id. *)
Definition collect (jobsMap : list (jsstring * Job C))
    (snapshot : list (jsstring * Job C)) : list (jsstring * Job C) :=
  foldl
    (fun jobsMap doc =>
       let job := JobQueries.convertDoc doc in
       mapSet (id job) job jobsMap)
    jobsMap snapshot.

Definition getJobsRequiringAttention (now : Date) (db : Db C)
  : Result (list (Job C)) :=
  match getDocs (overdueQuery now) (db_jobs db),
        getDocs highPriorityQuery (db_jobs db),
        getDocs (longRunningQuery now) (db_jobs db) with
  | Some overdueSnapshot, Some highPrioritySnapshot, Some longRunningSnapshot =>
      let jobsMap :=
        foldl collect []
          [overdueSnapshot; highPrioritySnapshot; longRunningSnapshot] in
      Ok (snd <$> jobsMap)
  | _, _, _ => Error (js "Failed to get jobs requiring attention")
  end.

End WithStore.
End Attention.

(** ** Notions used by the properties of the queries *)

(** The jobs of a list with a given status. *)
Definition countStatus {C} (s : JobStatus) (docs : list (Job C)) : nat :=
  length (List.filter (fun job => bool_decide (status job = JobStatus_value s))
            docs).

(** The counter of [JobStats] that belongs to a status. *)
Definition bucket (s : JobStatus) (stats : JobStats) : nat :=
  match s with
  | PENDING => pending stats
  | ASSIGNED => assigned stats
  | IN_PROGRESS => inProgress stats
  | COMPLETED => completed stats
  | CANCELLED => cancelled stats
  | ON_HOLD => onHold stats
  end.

(** What the map of [getJobsRequiringAttention] holds once the documents
    [seen] have been set in it. *)
Definition collected {C} (m seen : list (jsstring * Job C)) : Prop :=
  NoDup (fst <$> m)
  /\ (forall k, k ∈ (fst <$> m) <-> k ∈ (fst <$> seen))
  /\ Forall
       (fun kv => exists doc,
            doc ∈ seen /\ kv = (fst doc, JobQueries.convertDoc doc))
       m.

(** [a] is at most as far as [b]. *)
Definition nearer {A} (a b : A * number) : Prop :=
  (snd a <=? snd b)%num = true.

(** The durations that count in the average of a technician's workload:
    those present and truthy, in the order of the jobs. *)
Definition countedDurations {C} (jobs : list (Job C)) : list number :=
  omap
    (fun job =>
       match actualDuration job with
       | Some minutes => if Number.truthy minutes then Some minutes else None
       | None => None
       end)
    jobs.

(** No search text: absent, or nothing but whitespace. *)
Definition no_text (t : option jsstring) : Prop :=
  match t with Some t => trim t = [] | None => True end.

(** A string free of the characters the sanitizer removes, and within its
    length limit. *)
Definition clean (s : jsstring) : Prop :=
  Forall (fun c => includes [60; 62; 39; 34]%N c = false) s
  /\ length s <= 1000.

Definition clean_notes (n : NotesValue) : Prop :=
  match n with
  | NotesArray l => Forall clean l
  | NotesString _ => True
  end.

Definition clean_field (f : option jsstring) : Prop :=
  match f with Some s => clean s | None => True end.

(** A job of the sample customer that took the given minutes. *)
Definition finished (status' : jsstring) (minutes : option number) : Job Q :=
  {| id := [];
     title := js "Fibre install";
     description := js "Install the router";
     type := js "installation";
     status := status';
     priority := js "high";
     customer := Sample.client;
     location := Sample.site;
     assignedTechnicianId := Some (js "t1");
     assignedBy := Some (js "dispatcher");
     assignedAt := Some 600%Z;
     scheduledDate := 1000;
     scheduledTimeSlot := (js "09:00", js "10:00");
     estimatedDuration := Number.of_nat 60;
     requirements := Sample.needs [];
     startedAt := None;
     completedAt := None;
     actualDuration := minutes;
     notes := NotesArray [];
     internalNotes := NotesArray [];
     createdBy := js "dispatcher";
     createdAt := 500;
     updatedAt := 500;
     completionNotes := None;
     customerSignature := None;
     photos := None;
     workSummary := None |}.

(** A filter that carries nothing but a search text. *)
Definition textOnly (text : option jsstring) : JobFilter Q number :=
  {| filter_status := None;
     filter_priority := None;
     filter_type := None;
     filter_assignedTechnicianId := None;
     dateRange := None;
     filter_location := None;
     searchText := text |}.

(** Search parameters that carry a text and a filter, and leave order,
    page size and cursor to their defaults. *)
Definition plainSearch {C D} (text : option jsstring)
    (filter : option (JobFilter C D)) (pageSize : option nat)
    (lastJobId : option jsstring) : SearchParams C D :=
  {| search_query := text;
     filters := filter;
     sortBy := None;
     sortOrder := None;
     search_pageSize := pageSize;
     search_lastJobId := lastJobId |}.

(** * Properties *)

Lemma JobStatus_value_inj s1 s2 :
  JobStatus_value s1 = JobStatus_value s2 -> s1 = s2.
Proof. destruct s1, s2; vm_compute; congruence. Qed.

Lemma JobStatus_of_value s : JobStatus_of (JobStatus_value s) = Some s.
Proof. destruct s; reflexivity. Qed.

Lemma validTransitions_spec cur new :
  new ∈ JobValidation.validTransitions cur <-> spec_transition cur new.
Proof.
  split.
  - destruct cur; simpl; rewrite ?elem_of_cons, ?elem_of_nil;
      intros H; repeat destruct H as [H|H]; subst; try constructor; contradiction.
  - destruct 1; simpl; set_solver.
Qed.

(** C2.  Every pair of statuses outside the transition table is rejected
    by [validateStatusTransition] with the invalid-transition message; a
    terminal status (completed, cancelled) has no successor in the table,
    so every next status, itself included, is rejected. *)
Theorem validateStatusTransition_rejects_outside_table cur new :
  ~ spec_transition cur new \/ terminal cur ->
  JobValidation.validateStatusTransition cur new =
    {| isValid := false;
       errors := [JobValidation.invalidTransitionMessage cur new] |}.
Proof.
  intros H.
  assert (Hn : ~ spec_transition cur new).
  { destruct H as [H | [-> | ->]]; [exact H | inversion 1 | inversion 1]. }
  unfold JobValidation.validateStatusTransition, includes.
  rewrite bool_decide_eq_false_2; [reflexivity|].
  now rewrite validTransitions_spec.
Qed.

Lemma validateStatusTransition_rejects_witness :
  (~ spec_transition COMPLETED COMPLETED \/ terminal COMPLETED)
  /\ JobValidation.validateStatusTransition COMPLETED COMPLETED =
       {| isValid := false;
          errors := [js "Invalid status transition from completed to completed"] |}.
Proof.
  split.
  - right. left. reflexivity.
  - apply (validateStatusTransition_rejects_outside_table COMPLETED COMPLETED).
    right. left. reflexivity.
Defined.

(** ** Sanitizer *)

Section Sanitizer.
Import DataSanitizer.

Lemma trimStart_suffix s : exists pre, s = pre ++ trimStart s.
Proof.
  induction s as [|c s [pre IH]]; simpl.
  - now exists [].
  - destruct (isWhiteSpace c).
    + exists (c :: pre). simpl. now f_equal.
    + now exists [].
Qed.

Lemma trim_infix s : exists pre post, s = pre ++ trim s ++ post.
Proof.
  unfold trim, trimEnd.
  destruct (trimStart_suffix s) as [pre Hpre].
  destruct (trimStart_suffix (rev (trimStart s))) as [post Hpost].
  exists pre, (rev post).
  rewrite <- rev_app_distr, <- Hpost, rev_involutive. exact Hpre.
Qed.

Lemma trim_Forall (P : N -> Prop) s : Forall P s -> Forall P (trim s).
Proof.
  destruct (trim_infix s) as (pre & post & E). intros H. rewrite E in H.
  apply Forall_app in H as [_ H]. now apply Forall_app in H as [H _].
Qed.

Lemma trim_length s : length (trim s) <= length s.
Proof.
  destruct (trim_infix s) as (pre & post & E).
  rewrite E at 2. rewrite !length_app. lia.
Qed.

Lemma removeAll_Forall cs s :
  Forall (fun c => includes cs c = false) (removeAll cs s).
Proof.
  unfold removeAll. apply List.Forall_forall. intros c Hc.
  apply filter_In in Hc as [_ Hc]. now apply negb_true_iff in Hc.
Qed.

Lemma removeAll_id cs s :
  Forall (fun c => includes cs c = false) s -> removeAll cs s = s.
Proof.
  unfold removeAll. induction 1 as [|c s Hc _ IH]; simpl; [reflexivity|].
  rewrite Hc. simpl. now f_equal.
Qed.

Lemma removeAll_keeps (P : N -> Prop) cs s :
  Forall P s -> Forall P (removeAll cs s).
Proof.
  unfold removeAll. rewrite !List.Forall_forall. intros H c Hc.
  apply filter_In in Hc as [Hc _]. auto.
Qed.

(** What a sanitized string is known to be free of, and how long it is. *)
Lemma sanitizeString_clean input :
  Forall (fun c => includes (js "<>") c = false) (sanitizeString input)
  /\ Forall (fun c => includes [39; 34]%N c = false) (sanitizeString input)
  /\ length (sanitizeString input) <= 1000.
Proof.
  unfold sanitizeString, substring0. repeat split.
  - apply Forall_take, removeAll_keeps, removeAll_Forall.
  - apply Forall_take, removeAll_Forall.
  - rewrite length_take. lia.
Qed.

Lemma sanitizeString_of_clean s :
  Forall (fun c => includes (js "<>") c = false) s ->
  Forall (fun c => includes [39; 34]%N c = false) s ->
  length s <= 1000 ->
  sanitizeString s = trim s.
Proof.
  intros H1 H2 Hlen. unfold sanitizeString, substring0.
  rewrite (removeAll_id (js "<>")) by now apply trim_Forall.
  rewrite (removeAll_id [39; 34]%N) by now apply trim_Forall.
  apply take_ge. pose proof (trim_length s). lia.
Qed.

End Sanitizer.

(** C5 (as the code has it).  Sanitizing twice is sanitizing once and then
    trimming: [sanitizeString] is idempotent at [x] exactly when
    [sanitizeString x] has no surrounding whitespace left.  The string
    ["  <b>Hi</b>  "] sanitizes to ["bHi/b"], which is a fixed point. *)
Theorem sanitizeString_twice x :
  DataSanitizer.sanitizeString (DataSanitizer.sanitizeString x)
    = trim (DataSanitizer.sanitizeString x)
  /\ (DataSanitizer.sanitizeString (DataSanitizer.sanitizeString x)
        = DataSanitizer.sanitizeString x
      <-> trim (DataSanitizer.sanitizeString x) = DataSanitizer.sanitizeString x)
  /\ DataSanitizer.sanitizeString (js "  <b>Hi</b>  ") = js "bHi/b"
  /\ DataSanitizer.sanitizeString (js "bHi/b") = js "bHi/b".
Proof.
  assert (E : DataSanitizer.sanitizeString (DataSanitizer.sanitizeString x)
              = trim (DataSanitizer.sanitizeString x)).
  { destruct (sanitizeString_clean x) as (H1 & H2 & H3).
    now apply sanitizeString_of_clean. }
  split; [exact E|]. split; [now rewrite E|].
  split; vm_compute; reflexivity.
Qed.

(** C5, counterexample.  Stripping the angle bracket of ["< a"] uncovers a
    leading space that only the second pass trims: the first pass gives
    [" a"], the second ["a"]. *)
Lemma sanitizeString_not_idempotent :
  DataSanitizer.sanitizeString (js "< a") = js " a"
  /\ DataSanitizer.sanitizeString (DataSanitizer.sanitizeString (js "< a"))
       = js "a"
  /\ ~ (forall x,
          DataSanitizer.sanitizeString (DataSanitizer.sanitizeString x)
            = DataSanitizer.sanitizeString x).
Proof.
  split; [vm_compute; reflexivity|]. split; [vm_compute; reflexivity|].
  intros H. specialize (H (js "< a")). vm_compute in H. discriminate H.
Qed.

(** ** Completion payloads *)

Lemma pushIf_nil_iff c msg errs : pushIf c msg errs = [] <-> c = false /\ errs = [].
Proof.
  unfold pushIf. destruct c; split.
  - intros H. now destruct errs.
  - now intros [? _].
  - now intros ->.
  - now intros [_ ->].
Qed.

(** What [validateJobCompletion] accepts: the payload is valid exactly when
    none of its four tests fires. *)
Lemma validateJobCompletion_valid_iff d :
  isValid (JobValidation.validateJobCompletion d) = true
  <-> JobValidation.completionNotesTooLong d = false
      /\ JobValidation.workSummaryTooLong d = false
      /\ JobValidation.actualDurationRejected d = false
      /\ JobValidation.tooManyPhotos d = false.
Proof.
  unfold JobValidation.validateJobCompletion, mkResult. simpl.
  rewrite bool_decide_eq_true, length_zero_iff_nil, !pushIf_nil_iff. tauto.
Qed.

(** The duration test fires only on a strictly negative duration: zero and
    [NaN] are falsy, so the guard [actualDuration && ...] skips them. *)
Lemma actualDurationRejected_iff d :
  JobValidation.actualDurationRejected d = true
  <-> exists n, update_actualDuration d = Some n
        /\ (n <? Number.of_nat 0)%num = true.
Proof.
  unfold JobValidation.actualDurationRejected.
  destruct (update_actualDuration d) as [n|]; [|split; [discriminate|now intros (? & ? & _)]].
  split.
  - intros H. exists n. split; [reflexivity|].
    apply andb_true_iff in H as [Ht Hle].
    destruct n as [q| |[]]; simpl in *; try discriminate; try reflexivity.
    unfold Number.Qlt_bool. apply negb_true_iff in Ht. apply negb_true_iff.
    destruct (Qle_bool (inject_Z (Z.of_nat 0)) q) eqn:E; [|reflexivity].
    apply Qle_bool_iff in E, Hle. apply Qeq_bool_neq in Ht.
    exfalso. apply Ht. now apply Qle_antisym.
  - intros (n' & [= <-] & Hlt).
    destruct n as [q| |[]]; simpl in *; try discriminate; try reflexivity.
    unfold Number.Qlt_bool in Hlt. apply negb_true_iff in Hlt.
    apply andb_true_iff. split.
    + apply negb_true_iff. destruct (Qeq_bool q 0) eqn:E; [|reflexivity].
      apply Qeq_bool_iff in E. rewrite <- Hlt. symmetry.
      apply Qle_bool_iff. rewrite E. apply Qle_refl.
    + apply Qle_bool_iff. apply Qnot_lt_le. intros Hc.
      apply Qlt_le_weak in Hc. apply Qle_bool_iff in Hc. congruence.
Qed.

Lemma tooLong_iff (limit : nat) (f : option jsstring) :
  match f with
  | Some s => nonEmpty s && bool_decide (limit < length s)
  | None => false
  end = true
  <-> exists s, f = Some s /\ limit < length s.
Proof.
  destruct f as [s|]; [|split; [discriminate|now intros (? & ? & _)]].
  rewrite andb_true_iff, bool_decide_eq_true. split.
  - intros [_ H]. now exists s.
  - intros (s' & [= <-] & H). split; [|exact H].
    destruct s; [simpl in H; lia|reflexivity].
Qed.

(** What [validateJobCompletion] rejects: notes over 1000 characters, a
    summary over 2000, a duration below 0, or more than 10 photos. *)
Lemma validateJobCompletion_rejects_iff d :
  isValid (JobValidation.validateJobCompletion d) = false
  <-> (exists s, update_completionNotes d = Some s /\ 1000 < length s)
      \/ (exists s, update_workSummary d = Some s /\ 2000 < length s)
      \/ (exists n, update_actualDuration d = Some n
                    /\ (n <? Number.of_nat 0)%num = true)
      \/ (exists l, update_photos d = Some l /\ 10 < length l).
Proof.
  rewrite <- not_true_iff_false, validateJobCompletion_valid_iff.
  rewrite <- (tooLong_iff 1000), <- (tooLong_iff 2000),
    <- actualDurationRejected_iff.
  fold (JobValidation.completionNotesTooLong d).
  fold (JobValidation.workSummaryTooLong d).
  assert (Hp : JobValidation.tooManyPhotos d = true
               <-> exists l, update_photos d = Some l /\ 10 < length l).
  { unfold JobValidation.tooManyPhotos.
    destruct (update_photos d) as [l|].
    - rewrite bool_decide_eq_true. split; [now exists l|].
      now intros (? & [= <-] & ?).
    - split; [discriminate|now intros (? & ? & _)]. }
  rewrite <- Hp.
  destruct (JobValidation.completionNotesTooLong d),
    (JobValidation.workSummaryTooLong d),
    (JobValidation.actualDurationRejected d),
    (JobValidation.tooManyPhotos d); intuition congruence.
Qed.

(** C8, the failing input.  A completion payload whose [actualDuration] is
    present and equal to 0 is reported valid, with no error, although 0 is
    not greater than 0; and so is one whose duration is [NaN]. *)
Lemma validateJobCompletion_accepts_zero_duration :
  JobValidation.validateJobCompletion (Sample.durationOnly (Number.of_nat 0))
    = {| isValid := true; errors := [] |}
  /\ JobValidation.validateJobCompletion (Sample.durationOnly NaN)
    = {| isValid := true; errors := [] |}
  /\ JobValidation.validateJobCompletion
       (Sample.durationOnly (Number.of_Z (-5)))
    = {| isValid := false;
         errors := [js "Actual duration must be greater than 0 minutes"] |}.
Proof. repeat split. Qed.

(** ** Assignment *)

Lemma blank_given s : JobValidation.blank s = negb (given s).
Proof.
  unfold JobValidation.blank, given.
  destruct s as [|c s]; [reflexivity|]. simpl negb at 1. simpl orb.
  destruct (trim (c :: s)); reflexivity.
Qed.

Lemma validateJobAssignment_errors a :
  errors (JobValidation.validateJobAssignment
            (jobId a) (technicianId a) (assignment_assignedBy a))
    = missing_fields a.
Proof.
  unfold JobValidation.validateJobAssignment, missing_fields, mkResult, pushIf.
  simpl. rewrite !blank_given.
  destruct (given (jobId a)), (given (technicianId a)),
    (given (assignment_assignedBy a)); reflexivity.
Qed.

Lemma validateJobAssignment_valid {C} a (db : Db C) :
  isValid (JobValidation.validateJobAssignment
             (jobId a) (technicianId a) (assignment_assignedBy a))
    = check_holds a db StructurallyValid.
Proof.
  unfold JobValidation.validateJobAssignment, mkResult, pushIf.
  simpl. rewrite !blank_given.
  destruct (given (jobId a)), (given (technicianId a)),
    (given (assignment_assignedBy a)); reflexivity.
Qed.

(** C1.  [assignJob] fails on the first precondition that does not hold,
    in the order structural validation, job exists, job is pending,
    technician exists, technician is active, technician has the technician
    role, with the error of that precondition and the store unchanged.
    When all six hold it succeeds: the stored job gets the technician, the
    assigner, the assignment time and the status assigned, every other job
    and the users are untouched, and one assignment record is appended. *)
Theorem assignJob_checks_in_order {C} (now : Date) (a : JobAssignment)
    (db : Db C) :
  match first_violation a db with
  | Some c => JobService.assignJob now a db = (Error (check_error a db c), db)
  | None =>
      exists j j',
        db_jobs db !! jobId a = Some j
        /\ JobService.assignJob now a db = (Ok tt, assigned_db a j' db)
        /\ assignedTechnicianId j' = Some (technicianId a)
        /\ assignedBy j' = Some (assignment_assignedBy a)
        /\ assignedAt j' = Some (assignment_assignedAt a)
        /\ status j' = js "assigned"
        /\ updatedAt j' = now
        /\ j' = applyPatch (JobService.assignmentPatch now a) j
  end.
Proof.
  unfold first_violation, assignment_checks, JobService.assignJob.
  cbn [List.find].
  rewrite (validateJobAssignment_valid a db), validateJobAssignment_errors.
  destruct (check_holds a db StructurallyValid); cbn [negb]; [|reflexivity].
  cbn [check_holds].
  unfold JobService.getJobById, getJobDoc, getUserDoc.
  unfold bind, ret, throw. cbv beta.
  destruct (db_jobs db !! jobId a) as [j|] eqn:Hj; cbv beta iota.
  2:{ rewrite bool_decide_eq_false_2 by (intros [? ?]; discriminate).
      reflexivity. }
  rewrite bool_decide_eq_true_2 by eauto. cbn [negb].
  change (status (JobService.convertFirestoreToJob (jobId a) j)) with (status j).
  change (JobStatus_value PENDING) with (js "pending").
  destruct (bool_decide (status j = js "pending")); cbn [negb]; cbv beta iota.
  2:{ cbn [check_error]. rewrite Hj. reflexivity. }
  destruct (db_users db !! technicianId a) as [t|] eqn:Ht; cbv beta iota.
  2:{ rewrite bool_decide_eq_false_2 by (intros [? ?]; discriminate).
      reflexivity. }
  rewrite bool_decide_eq_true_2 by eauto. cbn [negb].
  destruct (isActive t); cbn [negb]; [|reflexivity].
  destruct (bool_decide (role t = js "technician")); cbn [negb]; [|reflexivity].
  exists j, (applyPatch (JobService.assignmentPatch now a) j).
  split; [reflexivity|]. split; [|repeat split].
  unfold commit. simpl. rewrite Hj. reflexivity.
Qed.

(** The six failures, in order, and the success, on a small store. *)
Example assignJob_examples :
  let db :=
    Sample.db
      [(js "j1", Sample.job (js "pending") (js "high") [js "cabling"]);
       (js "j2", Sample.job (js "on_hold") (js "high") [js "cabling"])]
      [(js "t1", Sample.technician [js "cabling"]);
       (js "t2", {| isActive := false; role := js "technician";
                    user_skills := None; currentLocation := None |});
       (js "m1", {| isActive := true; role := js "manager";
                    user_skills := None; currentLocation := None |})] in
  let try job tech by_ :=
    JobService.assignJob 2000 (Sample.assignment job tech by_) db in
  try (js "  ") (js "t9") []
    = (Error (js "Assignment validation failed: Job ID is required, Assigned by field is required"),
       db)
  /\ try (js "j9") (js "t9") (js "d1") = (Error (js "Job not found"), db)
  /\ try (js "j2") (js "t9") (js "d1")
     = (Error (js "Job cannot be assigned. Current status: on_hold"), db)
  /\ try (js "j1") (js "t9") (js "d1") = (Error (js "Technician not found"), db)
  /\ try (js "j1") (js "t2") (js "d1") = (Error (js "Technician is not active"), db)
  /\ try (js "j1") (js "m1") (js "d1") = (Error (js "User is not a technician"), db)
  /\ fst (try (js "j1") (js "t1") (js "d1")) = Ok tt
  /\ (status <$> db_jobs (snd (try (js "j1") (js "t1") (js "d1"))) !! js "j1")
     = Some (js "assigned")
  /\ (assignedTechnicianId <$> db_jobs (snd (try (js "j1") (js "t1") (js "d1"))) !! js "j1")
     = Some (Some (js "t1"))
  /\ length (db_assignments (snd (try (js "j1") (js "t1") (js "d1")))) = 1.
Proof. vm_compute. repeat split. Qed.

(** ** Updates *)

(** C3 (as the code has it).  When the requested status equals the stored
    one, [updateJob] skips the transition check: the request is never
    rejected as an invalid transition.  It is applied, the status staying
    what it was, unless the status is completed and the completion payload
    is invalid. *)
Theorem updateJob_same_status_not_checked {C} (now : Date) (jobId : jsstring)
    (u : JobUpdate) (db : Db C) (j : Job C) (s : JobStatus) :
  db_jobs db !! jobId = Some j ->
  update_status u = Some s ->
  status j = JobStatus_value s ->
  let v := JobValidation.validateJobCompletion u in
  let j' :=
    applyPatch
      (JobService.updateData now (JobService.convertFirestoreToJob jobId j) u
         (DataSanitizer.sanitizeJobData u)) j in
  status j' = status j
  /\ JobService.updateJob now jobId u db =
       if bool_decide (s = COMPLETED) && negb (isValid v)
       then (Error (js "Completion validation failed: "
                      ++ join (js ", ") (errors v)), db)
       else (Ok tt, {| db_jobs := <[jobId := j']> (db_jobs db);
                       db_users := db_users db;
                       db_assignments := db_assignments db |}).
Proof.
  intros Hj Hu Hs v j'. split.
  { unfold j'. simpl. rewrite Hu. simpl. now rewrite Hs. }
  unfold JobService.updateJob, JobService.getJobById, getJobDoc.
  unfold JobService.checkTransition, JobService.checkCompletion.
  unfold bind, ret, throw. cbv beta. rewrite Hj. cbv beta iota.
  rewrite Hu.
  change (status (JobService.convertFirestoreToJob jobId j)) with (status j).
  rewrite bool_decide_eq_true_2 by (symmetry; exact Hs). cbn [negb].
  cbv beta iota.
  replace (bool_decide (Some s = Some COMPLETED))
    with (bool_decide (s = COMPLETED))
    by (apply bool_decide_ext; split; congruence).
  fold v.
  destruct (bool_decide (s = COMPLETED)); cbn [andb].
  - destruct (isValid v); cbn [negb]; cbv beta iota; [|reflexivity].
    unfold updateDoc, commit. cbn [applyWrites applyWrite]. rewrite Hj.
    reflexivity.
  - cbv beta iota. unfold updateDoc, commit. cbn [applyWrites applyWrite].
    rewrite Hj. reflexivity.
Qed.

Lemma updateJob_same_status_witness :
  let j := Sample.job (js "pending") (js "high") [] in
  let u := Sample.statusOnly PENDING in
  let db := Sample.db [(js "job1", j)] [] in
  db_jobs db !! js "job1" = Some j
  /\ update_status u = Some PENDING
  /\ status j = JobStatus_value PENDING
  /\ fst (JobService.updateJob 2000 (js "job1") u db) = Ok tt.
Proof.
  intros j u db.
  assert (Hj : db_jobs db !! js "job1" = Some j) by (vm_compute; reflexivity).
  split; [exact Hj|]. split; [reflexivity|]. split; [reflexivity|].
  destruct (updateJob_same_status_not_checked 2000 (js "job1") u db j PENDING
              Hj eq_refl eq_refl) as [_ H].
  rewrite H. reflexivity.
Defined.

(** C3, counterexample.  A pending job updated with the status pending is
    not rejected: the update succeeds and the job stays pending.  A
    transition that the table does not have, pending to completed, is
    rejected by the same operation. *)
Lemma updateJob_accepts_same_status :
  let db := Sample.db [(js "job1", Sample.job (js "pending") (js "high") [])] [] in
  let out := JobService.updateJob 2000 (js "job1") (Sample.statusOnly PENDING) db in
  fst out = Ok tt
  /\ (status <$> db_jobs (snd out) !! js "job1") = Some (js "pending")
  /\ (updatedAt <$> db_jobs (snd out) !! js "job1") = Some 2000%Z
  /\ fst (JobService.updateJob 2000 (js "job1") (Sample.statusOnly COMPLETED) db)
     = Error (js "Status transition validation failed: Invalid status transition from pending to completed").
Proof. vm_compute. repeat split. Qed.

(** ** Listing jobs *)

Section Listing.

Context {C D : Type}.
Variable getDocs :
  list (QueryConstraint C) -> gmap jsstring (Job C)
  -> option (list (jsstring * Job C)).
Variable toLowerCase : jsstring -> jsstring.
Variable calculateDistance : C -> C -> C -> C -> D.
Variable le : D -> D -> bool.

Lemma collectPage_from (pageSize : nat) (docs : list (jsstring * Job C))
    (acc : list (Job C)) :
  length acc <= pageSize ->
  foldl
    (fun (jobs : list (Job C)) (doc : jsstring * Job C) =>
       if length jobs <? pageSize
       then jobs ++ [JobQueries.convertDoc doc]
       else jobs)
    acc docs
  = acc ++ take (pageSize - length acc) (JobQueries.convertDoc <$> docs).
Proof.
  revert acc. induction docs as [|doc docs IH]; intros acc Hacc; simpl.
  - now rewrite take_nil, app_nil_r.
  - destruct (Nat.ltb_spec (length acc) pageSize) as [Hlt|Hge].
    + rewrite IH by (rewrite length_app; simpl; lia).
      rewrite length_app. simpl length.
      replace (pageSize - length acc) with (S (pageSize - (length acc + 1))) by lia.
      simpl. now rewrite <- app_assoc.
    + rewrite IH by exact Hacc.
      replace (pageSize - length acc) with 0 by lia. reflexivity.
Qed.

(** The page is the first [pageSize] documents of the answer. *)
Lemma collectPage_take pageSize (docs : list (jsstring * Job C)) :
  JobQueries.collectPage pageSize docs
  = take pageSize (JobQueries.convertDoc <$> docs).
Proof.
  unfold JobQueries.collectPage. rewrite collectPage_from by (simpl; lia).
  simpl. now rewrite Nat.sub_0_r.
Qed.

Lemma clientFilters_length filter (jobs : list (Job C)) :
  length (JobQueries.clientFilters toLowerCase calculateDistance le filter jobs)
  <= length jobs.
Proof.
  unfold JobQueries.clientFilters, JobQueries.geoFilter.
  destruct filter as [f|]; [|lia].
  assert (Hf : forall (p : Job C -> bool) l, length (List.filter p l) <= length l).
  { intros p l. induction l as [|x l IH]; simpl; [lia|].
    destruct (p x); simpl; lia. }
  destruct (searchText f) as [t|]; [destruct (nonEmpty t)|];
    destruct (filter_location f);
    repeat (etransitivity; [apply Hf|]); lia.
Qed.

Lemma jobsQuery_head filter pageSize lastJobId (db : Db C) :
  exists rest,
    JobQueries.jobsQuery (D:=D) filter pageSize lastJobId db
    = orderBy (js "createdAt") (js "desc") :: limit (pageSize + 1) :: rest.
Proof.
  unfold JobQueries.jobsQuery, JobQueries.withCursor, JobQueries.withFilters,
    query.
  destruct filter as [f|].
  - destruct (filter_status f) as [[|? ?]|], (filter_priority f) as [[|? ?]|],
      (filter_type f) as [[|? ?]|],
      (filter_assignedTechnicianId f) as [t|], (dateRange f) as [[? ?]|];
      try destruct (nonEmpty t);
      destruct lastJobId as [i|]; try destruct (nonEmpty i);
      try destruct (db_jobs db !! i);
      simpl; eexists; reflexivity.
  - destruct lastJobId as [i|]; try destruct (nonEmpty i);
      try destruct (db_jobs db !! i); simpl; eexists; reflexivity.
Qed.

(** The status, priority and type lists of a filter reach the store whole,
    each in one [in] constraint. *)
Lemma jobsQuery_filter_lists (f : JobFilter C D) pageSize lastJobId
    (db : Db C) :
  let q := JobQueries.jobsQuery (Some f) pageSize lastJobId db in
  (forall l, filter_status f = Some l -> l <> [] ->
     In (where_ (js "status") (js "in") (VStrings (JobStatus_value <$> l))) q)
  /\ (forall l, filter_priority f = Some l -> l <> [] ->
        In (where_ (js "priority") (js "in")
              (VStrings (JobPriority_value <$> l))) q)
  /\ (forall l, filter_type f = Some l -> l <> [] ->
        In (where_ (js "type") (js "in") (VStrings l)) q).
Proof.
  unfold JobQueries.jobsQuery, JobQueries.withCursor, JobQueries.withFilters,
    query.
  destruct (filter_status f) as [[|? ?]|], (filter_priority f) as [[|? ?]|],
    (filter_type f) as [[|? ?]|],
    (filter_assignedTechnicianId f) as [t|], (dateRange f) as [[? ?]|];
    try destruct (nonEmpty t);
    destruct lastJobId as [i|]; try destruct (nonEmpty i);
    try destruct (db_jobs db !! i);
    cbv zeta; (split; [|split]); intros wanted E Hne;
    try discriminate E; injection E as <-; try (now destruct Hne);
    rewrite <- ?app_assoc; cbn [app];
    repeat first [left; reflexivity | right].
Qed.

End Listing.

(** C7.  [getJobs] sends the store a query that begins with the order
    creation time descending and the limit [pageSize + 1].  When the store
    answers, the page holds at most [pageSize] jobs, all from the first
    [pageSize] documents of the answer, and [hasMore] is true exactly when
    the answer has more than [pageSize] documents, whatever the text and
    radius filters remove afterwards.  A cursor id that names no stored job
    adds nothing to the query: the call gives what the call without a
    cursor gives, and no error of its own. *)
Theorem getJobs_pagination {C D : Type}
    (getDocs : list (QueryConstraint C) -> gmap jsstring (Job C)
               -> option (list (jsstring * Job C)))
    (toLowerCase : jsstring -> jsstring)
    (calculateDistance : C -> C -> C -> C -> D) (le : D -> D -> bool)
    (filter : option (JobFilter C D)) (pageSize : option nat)
    (lastJobId : option jsstring) (db : Db C) :
  let n := default 20 pageSize in
  let q := JobQueries.jobsQuery filter n lastJobId db in
  let call := JobQueries.getJobs getDocs toLowerCase calculateDistance le in
  (exists rest,
      q = orderBy (js "createdAt") (js "desc") :: limit (n + 1) :: rest)
  /\ match getDocs q (db_jobs db) with
     | Some docs =>
         exists page,
           call filter pageSize lastJobId db = Ok page
           /\ length (page_jobs page) <= n
           /\ (hasMore page = true <-> n < length docs)
           /\ page_jobs page
              = JobQueries.clientFilters toLowerCase calculateDistance le filter
                  (take n (JobQueries.convertDoc <$> docs))
     | None => call filter pageSize lastJobId db = Error (js "Failed to get jobs")
     end
  /\ match lastJobId with
     | Some cursor =>
         match db_jobs db !! cursor with
         | None =>
             q = JobQueries.jobsQuery filter n None db
             /\ call filter pageSize lastJobId db = call filter pageSize None db
         | Some _ => True
         end
     | None => True
     end.
Proof.
  intros n q call. split; [apply jobsQuery_head|]. split.
  - unfold call, JobQueries.getJobs. fold n. fold q.
    destruct (getDocs q (db_jobs db)) as [docs|]; [|reflexivity].
    eexists. split; [reflexivity|]. cbn [page_jobs hasMore].
    rewrite collectPage_take. split; [|split; [|reflexivity]].
    + etransitivity; [apply clientFilters_length|].
      rewrite length_take. lia.
    + apply Nat.ltb_lt.
  - destruct lastJobId as [cursor|]; [|exact I].
    destruct (db_jobs db !! cursor) eqn:Hc; [exact I|].
    assert (Hq : q = JobQueries.jobsQuery filter n None db).
    { unfold q, JobQueries.jobsQuery, JobQueries.withCursor.
      rewrite Hc. now destruct (nonEmpty cursor). }
    split; [exact Hq|].
    unfold call, JobQueries.getJobs. fold n. fold q. now rewrite <- Hq.
Qed.

(** Three stored jobs, pages of two: the page has two jobs and more are
    announced; with a cursor that names no job the result is the same. *)
Example getJobs_example :
  let db :=
    Sample.db
      [(js "j1", Sample.job (js "pending") (js "high") []);
       (js "j2", Sample.job (js "pending") (js "low") []);
       (js "j3", Sample.job (js "assigned") (js "low") [])] [] in
  let list_ cursor :=
    JobQueries.getJobs (D:=number) Sample.allDocs (fun s => s) Sample.threeKm
      Number.leb None (Some 2) cursor db in
  (length <$> (page_jobs <$> list_ None)) = Ok 2
  /\ (hasMore <$> list_ None) = Ok true
  /\ list_ (Some (js "gone")) = list_ None.
Proof. vm_compute. repeat split. Qed.

(** A filter on two statuses, one priority and one type: the query carries
    the three lists as they are. *)
Example jobsQuery_example :
  let filter : JobFilter Q number :=
    {| filter_status := Some [PENDING; ASSIGNED];
       filter_priority := Some [HIGH];
       filter_type := Some [js "repair"];
       filter_assignedTechnicianId := None;
       dateRange := None;
       filter_location := None;
       searchText := None |} in
  JobQueries.jobsQuery (Some filter) 20 None (Sample.db [] [])
  = [orderBy (js "createdAt") (js "desc"); limit 21;
     where_ (js "status") (js "in") (VStrings [js "pending"; js "assigned"]);
     where_ (js "priority") (js "in") (VStrings [js "high"]);
     where_ (js "type") (js "in") (VStrings [js "repair"])].
Proof. reflexivity. Qed.

(** ** Statistics *)

Lemma computeStats_from {C} (docs : list (Job C)) (s : JobStats) :
  let s' := foldl JobQueries.countJob s docs in
  total s' = total s + length docs
  /\ bucketed s' + length (List.filter unknownStatus docs)
     = bucketed s + length docs.
Proof.
  revert s. induction docs as [|job docs IH]; intros s; simpl.
  - unfold bucketed. lia.
  - specialize (IH (JobQueries.countJob s job)). simpl in IH.
    destruct IH as [IH1 IH2]. rewrite IH1.
    unfold unknownStatus at 1.
    assert (Hs : total (JobQueries.countJob s job) = total s + 1
                 /\ bucketed (JobQueries.countJob s job)
                    = bucketed s
                      + (if bool_decide (JobStatus_of (status job) = None)
                         then 0 else 1)).
    { unfold JobQueries.countJob, bucketed.
      destruct (JobStatus_of (status job)) as [[]|]; simpl; lia. }
    destruct Hs as [Hs1 Hs2]. rewrite Hs1. split; [lia|].
    destruct (bool_decide (JobStatus_of (status job) = None)); simpl; lia.
Qed.

(** C10.  [getJobStats] counts every document the store returns into
    [total], and into a status bucket only when its status is one of the
    six enumerated values: [total] is the number of documents, and it is
    the six buckets together plus the documents of unknown status, so it
    exceeds the buckets as soon as one such document is scanned. *)
Theorem getJobStats_total_counts_every_job {C : Type}
    (getDocs : list (QueryConstraint C) -> gmap jsstring (Job C)
               -> option (list (jsstring * Job C)))
    (range : option (Date * Date)) (db : Db C) :
  match getDocs (JobQueries.statsQuery range) (db_jobs db) with
  | Some docs =>
      exists s,
        JobQueries.getJobStats getDocs range db = Ok s
        /\ total s = length docs
        /\ total s
           = bucketed s + length (List.filter unknownStatus (snd <$> docs))
  | None =>
      JobQueries.getJobStats getDocs range db
      = Error (js "Failed to get job statistics")
  end
  /\ (let docs := [Sample.job (js "pending") (js "low") [];
                   Sample.job (js "archived") (js "low") []] in
      total (JobQueries.computeStats docs) = 2
      /\ bucketed (JobQueries.computeStats docs) = 1).
Proof.
  split; [|split; reflexivity].
  unfold JobQueries.getJobStats.
  destruct (getDocs _ _) as [docs|]; [|reflexivity].
  eexists. split; [reflexivity|].
  destruct (computeStats_from (snd <$> docs) JobQueries.noStats) as [H1 H2].
  unfold JobQueries.computeStats. simpl in H1, H2.
  rewrite length_fmap in H1, H2.
  change (bucketed JobQueries.noStats) with 0 in H2.
  split; lia.
Qed.

(** ** Great-circle distance *)

Section Distance.
Import Float64.

Variable sin cos : float64 -> float64.
Variable atan2 : float64 -> float64 -> float64.

Lemma leb_NaN (x : float64) : (S754_nan <=? x)%f64 = false.
Proof. reflexivity. Qed.

Lemma Math_atan2_NaN (y : float64) :
  Haversine.Math_atan2 atan2 y S754_nan = S754_nan.
Proof. now destruct y. Qed.

(** A job is kept by the radius filter exactly when its distance to the
    centre of the filter is at most the radius. *)
Lemma radius_filter_iff (g : GeoFilter float64 float64)
    (jobs : list (Job float64))
    (job : Job float64) :
  In job (Haversine.geoFilter sin cos atan2 g jobs)
  <-> In job jobs
      /\ (Haversine.calculateDistance sin cos atan2
            (geo_latitude g) (geo_longitude g)
            (latitude (location job)) (longitude (location job))
          <=? radius g)%f64 = true.
Proof.
  unfold Haversine.geoFilter, JobQueries.geoFilter. now rewrite filter_In.
Qed.

End Distance.

(** C9, the failing input.  Nothing keeps the haversine term [a] within
    [0, 1]: when rounding leaves it above 1, the square root of [1 - a] is
    [NaN], and so is the distance.  The distance is then equal to nothing,
    itself included, and at most no radius, so the job is dropped by every
    radius filter.  The term is [1 + 2^-52] between the points (-82, -179)
    and (82, 1), in either direction, with the sines and cosines of the
    engine of the examples. *)
Theorem calculateDistance_NaN_without_clamp
    (sin cos : Float64.float64 -> Float64.float64)
    (atan2 : Float64.float64 -> Float64.float64 -> Float64.float64)
    (lat1 lon1 lat2 lon2 : Float64.float64) :
  let a := Haversine.haversine sin cos lat1 lon1 lat2 lon2 in
  Float64.sqrt (Float64.of_Z 1 - a)%f64 = S754_nan ->
  let d := Haversine.calculateDistance sin cos atan2 lat1 lon1 lat2 lon2 in
  d = S754_nan
  /\ (d =? d)%f64 = false
  /\ (forall radiusKm, (d <=? radiusKm)%f64 = false)
  /\ forall (radiusKm : Float64.float64) (job : Job Float64.float64)
       (jobs : list (Job Float64.float64)),
       latitude (location job) = lat2 ->
       longitude (location job) = lon2 ->
       ~ In job
           (Haversine.geoFilter sin cos atan2
              {| geo_latitude := lat1; geo_longitude := lon1;
                 radius := radiusKm |}
              jobs).
Proof.
  intros a Ha d.
  assert (Hd : d = S754_nan).
  { unfold d, Haversine.calculateDistance. fold a. cbv zeta.
    rewrite Ha, Math_atan2_NaN. reflexivity. }
  rewrite Hd. split; [reflexivity|]. split; [reflexivity|].
  split; [intros radiusKm; apply leb_NaN|].
  intros radiusKm job jobs Hlat Hlon Hin.
  apply radius_filter_iff in Hin as [_ Hin].
  cbn [geo_latitude geo_longitude radius] in Hin.
  rewrite Hlat, Hlon in Hin. fold d in Hin. rewrite Hd in Hin.
  discriminate Hin.
Qed.

Lemma calculateDistance_NaN_without_clamp_witness :
  let lat1 := Float64.of_Z (-82) in
  let lon1 := Float64.of_Z (-179) in
  let lat2 := Float64.of_Z 82 in
  let lon2 := Float64.of_Z 1 in
  let distance := Haversine.calculateDistance Engine.sin Engine.cos Engine.atan2 in
  Haversine.haversine Engine.sin Engine.cos lat1 lon1 lat2 lon2
  = S754_finite false (2 ^ 52 + 1) (-52)
  /\ Haversine.haversine Engine.sin Engine.cos lat2 lon2 lat1 lon1
     = S754_finite false (2 ^ 52 + 1) (-52)
  /\ distance lat1 lon1 lat2 lon2 = S754_nan
  /\ distance lat2 lon2 lat1 lon1 = S754_nan
  /\ (distance lat1 lon1 lat2 lon2 =? distance lat2 lon2 lat1 lon1)%f64 = false.
Proof.
  intros lat1 lon1 lat2 lon2 distance.
  assert (H1 : Float64.sqrt
                 (Float64.of_Z 1
                  - Haversine.haversine Engine.sin Engine.cos lat1 lon1 lat2 lon2)%f64
               = S754_nan) by (vm_compute; reflexivity).
  assert (H2 : Float64.sqrt
                 (Float64.of_Z 1
                  - Haversine.haversine Engine.sin Engine.cos lat2 lon2 lat1 lon1)%f64
               = S754_nan) by (vm_compute; reflexivity).
  destruct (calculateDistance_NaN_without_clamp Engine.sin Engine.cos
              Engine.atan2 lat1 lon1 lat2 lon2 H1) as (E1 & _).
  destruct (calculateDistance_NaN_without_clamp Engine.sin Engine.cos
              Engine.atan2 lat2 lon2 lat1 lon1 H2) as (E2 & _).
  split; [vm_compute; reflexivity|]. split; [vm_compute; reflexivity|].
  unfold distance. rewrite E1, E2. repeat split.
Defined.

(** ** Recommendation scores *)

Section Scores.

Context {C : Type}.
Variable calculateDistance : C -> C -> C -> C -> number.

(** Without a required skill the skill term is [0/0 * 50], which is
    [NaN], and so is the whole score. *)
Lemma recommendationScore_no_skills held place (job : Job C) :
  skills (requirements job) = [] ->
  Recommendations.skillScore held job = NaN
  /\ Recommendations.recommendationScore calculateDistance held place job = NaN.
Proof.
  intros Hnil.
  assert (E : Recommendations.skillScore held job = NaN).
  { unfold Recommendations.skillScore, Recommendations.matchingSkills.
    rewrite Hnil. reflexivity. }
  split; [exact E|].
  unfold Recommendations.recommendationScore. rewrite E.
  cbn [Number.add Number.of_nat Number.of_Z].
  destruct place as [[lat lon]|]; [|reflexivity].
  unfold Recommendations.addDistanceScore.
  repeat match goal with
         | |- context [if ?b then _ else _] => destruct b
         end; reflexivity.
Qed.

End Scores.

(** C4, the failing input.  A job that requires no skill gets the skill
    term [0/0 * 50 = NaN], not 50, and its total score is [NaN]: nothing
    guards the division.  With one required skill that the technician
    holds, the same job scores 50 + 30 + 20 = 100. *)
Lemma recommendationScore_zero_skills_is_NaN :
  let held := [js "cabling"] in
  let here := Some (19 # 1, 73 # 1) in
  Recommendations.skillScore held (Sample.job (js "pending") (js "urgent") [])
    = NaN
  /\ Recommendations.recommendationScore Sample.threeKm held here
       (Sample.job (js "pending") (js "urgent") []) = NaN
  /\ Recommendations.recommendationScore Sample.threeKm held here
       (Sample.job (js "pending") (js "urgent") [js "cabling"]) = Num 100.
Proof. vm_compute. repeat split. Qed.

(** A stored priority that names an inherited member, as [toString] does,
    leaves the job without a number for a score. *)
Example recommendationScore_inherited_priority :
  Recommendations.recommendationScore Sample.threeKm [js "cabling"]
    (Some (19 # 1, 73 # 1))
    (Sample.job (js "pending") (js "toString") [js "cabling"])
  = NaN.
Proof. vm_compute. reflexivity. Qed.

(** ** Ranking *)

Section Ranking.

Context {C : Type}.
Implicit Types (x y : Job C * number) (l : list (Job C * number)).

Lemma insertSorted_Permutation
    (compare : Job C * number -> Job C * number -> number) x l :
  Permutation (insertSorted compare x l) (x :: l).
Proof.
  induction l as [|y l IH]; cbn [insertSorted]; [reflexivity|].
  destruct (Number.ltb (Number.of_nat 0) (compare x y)); [|reflexivity].
  rewrite IH. apply perm_swap.
Qed.

Lemma sort_Permutation
    (compare : Job C * number -> Job C * number -> number) l :
  Permutation (sort compare l) l.
Proof.
  induction l as [|x l IH]; [reflexivity|].
  unfold sort in *. cbn [foldr]. rewrite insertSorted_Permutation.
  now constructor.
Qed.

End Ranking.

(** C6, the failing input.  With a job that requires no skill in the pool,
    that job's score is [NaN], no sum of the three terms, and the returned
    order is not descending: the job of score 100 comes after it.  Every
    comparison with the [NaN] score gives [NaN], so the sort leaves the two
    jobs in the order the store returned them. *)
Lemma getJobRecommendations_unsorted_with_zero_skill_job :
  let docs :=
    [(js "a", Sample.job (js "pending") (js "urgent") []);
     (js "b", Sample.job (js "pending") (js "urgent") [js "cabling"])] in
  let ranked :=
    Recommendations.rankJobs Sample.threeKm
      (Sample.technician [js "cabling"]) 10 docs in
  ((fun job => (id (fst job), snd job)) <$> ranked)
    = [(js "a", NaN); (js "b", Num 100)]
  /\ ~ StronglySorted score_ge ranked.
Proof.
  intros docs ranked. split; [vm_compute; reflexivity|].
  intros H. vm_compute in H.
  inversion H as [|? ? _ Hall]. inversion Hall as [|? ? Hge _].
  vm_compute in Hge. discriminate Hge.
Qed.

(** * Further properties of the service *)

(** ** One call of [updateJob] or [assignJob] *)

Lemma JobStatus_of_Some raw s :
  JobStatus_of raw = Some s -> JobStatus_value s = raw.
Proof.
  unfold JobStatus_of. intros H. apply find_some in H as [_ H].
  now apply bool_decide_eq_true in H.
Qed.

Lemma no_transition_from_terminal s s' :
  terminal s -> ~ spec_transition s s'.
Proof. intros [-> | ->]; inversion 1. Qed.

Lemma no_transition_into_pending s : ~ spec_transition s PENDING.
Proof. inversion 1. Qed.

Section OneCall.

Context {C : Type}.
Implicit Types (db : Db C) (j : Job C) (u : JobUpdate).

Lemma checkTransition_cases j u db :
  (exists e, JobService.checkTransition j u db = (Error e, db))
  \/ (JobService.checkTransition j u db = (Ok tt, db)
      /\ match update_status u with
         | Some s' => allowed_step (status j) (JobStatus_value s')
         | None => True
         end).
Proof.
  unfold JobService.checkTransition, throw, ret.
  destruct (update_status u) as [s'|]; [|now right].
  destruct (bool_decide (JobStatus_value s' = status j)) eqn:E; cbn [negb].
  - right. split; [reflexivity|]. left. now apply bool_decide_eq_true in E.
  - destruct (JobStatus_of (status j)) as [s|] eqn:Es; [|left; eauto].
    destruct (isValid (JobValidation.validateStatusTransition s s')) eqn:Ev;
      cbn [negb]; [|left; eauto].
    right. split; [reflexivity|]. right. exists s, s'.
    split; [symmetry; now apply JobStatus_of_Some|]. split; [reflexivity|].
    apply validTransitions_spec.
    unfold JobValidation.validateStatusTransition, includes, pushIf, mkResult in Ev.
    destruct (bool_decide (s' ∈ JobValidation.validTransitions s)) eqn:Ei;
      [now apply bool_decide_eq_true in Ei|discriminate Ev].
Qed.

Lemma checkCompletion_cases u db :
  (exists e, JobService.checkCompletion u db = (Error e, db))
  \/ JobService.checkCompletion (C:=C) u db = (Ok tt, db).
Proof.
  unfold JobService.checkCompletion, throw, ret.
  destruct (bool_decide _); [|now right].
  destruct (isValid _); cbn [negb]; [now right|left; eauto].
Qed.

Lemma updateJob_missing now jobId u db :
  db_jobs db !! jobId = None ->
  JobService.updateJob now jobId u db = (Error (js "Job not found"), db).
Proof.
  intros H. unfold JobService.updateJob, JobService.getJobById, getJobDoc,
    bind, ret, throw. cbv beta. now rewrite H.
Qed.

(** A call of [updateJob] on a stored job either fails and leaves the
    store as it is, or writes the update of that job, the status moving
    along the transition table if it moves. *)
Lemma updateJob_cases now jobId u db j :
  db_jobs db !! jobId = Some j ->
  (exists e, JobService.updateJob now jobId u db = (Error e, db))
  \/ (JobService.updateJob now jobId u db = (Ok tt, updated_db now jobId u j db)
      /\ match update_status u with
         | Some s' => allowed_step (status j) (JobStatus_value s')
         | None => True
         end).
Proof.
  intros Hj.
  assert (E : JobService.updateJob now jobId u db
              = match JobService.checkTransition
                        (JobService.convertFirestoreToJob jobId j) u db with
                | (Ok _, db1) =>
                    match JobService.checkCompletion u db1 with
                    | (Ok _, db2) =>
                        updateDoc jobId
                          (JobService.updateData now
                             (JobService.convertFirestoreToJob jobId j) u
                             (DataSanitizer.sanitizeJobData u)) db2
                    | (Error e, db2) => (Error e, db2)
                    end
                | (Error e, db1) => (Error e, db1)
                end).
  { unfold JobService.updateJob, JobService.getJobById, getJobDoc, bind, ret.
    cbv beta. rewrite Hj. reflexivity. }
  rewrite E. clear E.
  destruct (checkTransition_cases (JobService.convertFirestoreToJob jobId j) u db)
    as [[e ->]|[-> Hstep]]; [left; eauto|].
  destruct (checkCompletion_cases u db) as [[e ->] | ->]; [left; eauto|].
  right. split; [|exact Hstep].
  unfold updateDoc, commit. cbn [applyWrites applyWrite]. rewrite Hj. reflexivity.
Qed.

Lemma updated_status now jobId u j :
  status
    (applyPatch
       (JobService.updateData now (JobService.convertFirestoreToJob jobId j) u
          (DataSanitizer.sanitizeJobData u)) j)
  = match update_status u with
    | Some s' => JobStatus_value s'
    | None => status j
    end.
Proof. cbn. now destruct (update_status u). Qed.

(** A call of [assignJob] either fails and leaves the store as it is, or
    finds the job pending and writes the assignment. *)
Lemma assignJob_cases now (a : JobAssignment) db :
  (exists e, JobService.assignJob now a db = (Error e, db))
  \/ (exists j,
        db_jobs db !! jobId a = Some j
        /\ status j = js "pending"
        /\ JobService.assignJob now a db
           = (Ok tt,
              assigned_db a (applyPatch (JobService.assignmentPatch now a) j) db)).
Proof.
  unfold JobService.assignJob.
  destruct (isValid _); cbn [negb]; [|left; unfold throw; eauto].
  unfold JobService.getJobById, getJobDoc, getUserDoc.
  unfold bind, ret, throw. cbv beta.
  destruct (db_jobs db !! jobId a) as [j|] eqn:Hj; cbv beta iota;
    [|left; eauto].
  change (status (JobService.convertFirestoreToJob (jobId a) j)) with (status j).
  change (JobStatus_value PENDING) with (js "pending").
  destruct (bool_decide (status j = js "pending")) eqn:Ep; cbn [negb];
    cbv beta iota; [|left; eauto].
  apply bool_decide_eq_true in Ep.
  destruct (db_users db !! technicianId a) as [t|]; cbv beta iota;
    [|left; eauto].
  destruct (isActive t); cbn [negb]; [|left; eauto].
  destruct (bool_decide (role t = js "technician")); cbn [negb]; [|left; eauto].
  right. exists j. split; [reflexivity|]. split; [exact Ep|].
  unfold commit. cbn [applyWrites applyWrite]. rewrite Hj. reflexivity.
Qed.

End OneCall.

(** X1.  [updateJob] writes one job or nothing: when it fails the store is
    what it was; in every case the users, the assignment records and all
    the other jobs are untouched, and no job appears or disappears. *)
Theorem updateJob_writes_only_its_job {C : Type} (now : Date)
    (jobId : jsstring) (u : JobUpdate) (db : Db C) :
  let out := JobService.updateJob now jobId u db in
  match fst out with
  | Error _ => snd out = db
  | Ok _ => is_Some (db_jobs db !! jobId)
  end
  /\ db_users (snd out) = db_users db
  /\ db_assignments (snd out) = db_assignments db
  /\ delete jobId (db_jobs (snd out)) = delete jobId (db_jobs db)
  /\ dom (db_jobs (snd out)) = dom (db_jobs db).
Proof.
  cbv zeta. destruct (db_jobs db !! jobId) as [j|] eqn:Hj.
  - destruct (updateJob_cases now jobId u db j Hj) as [[e ->]|[-> _]];
      cbn [fst snd]; [repeat split|].
    split; [eauto|]. cbn [updated_db db_users db_assignments db_jobs].
    split; [reflexivity|]. split; [reflexivity|].
    split; [apply delete_insert_eq|].
    apply dom_insert_lookup_L. eauto.
  - rewrite (updateJob_missing now jobId u db Hj). cbn [fst snd]. repeat split.
Qed.

(** X2.  When [updateJob] succeeds on a stored job, the status it leaves is
    the one it found or a successor of it in the transition table: the one
    the update asks for, or the old one if the update names none. *)
Theorem updateJob_moves_along_the_table {C : Type} (now : Date)
    (jobId : jsstring) (u : JobUpdate) (db : Db C) (j : Job C) :
  db_jobs db !! jobId = Some j ->
  fst (JobService.updateJob now jobId u db) = Ok tt ->
  exists j',
    db_jobs (snd (JobService.updateJob now jobId u db)) !! jobId = Some j'
    /\ status j' = from_option JobStatus_value (status j) (update_status u)
    /\ allowed_step (status j) (status j').
Proof.
  intros Hj Hok.
  destruct (updateJob_cases now jobId u db j Hj) as [[e E]|[E Hstep]];
    rewrite E in Hok |- *; [discriminate Hok|].
  eexists. cbn [snd updated_db db_jobs]. split; [apply lookup_insert_eq|].
  rewrite updated_status.
  destruct (update_status u) as [s'|]; cbn [from_option];
    split; try reflexivity; [exact Hstep|now left].
Qed.

Lemma updateJob_moves_along_the_table_witness :
  let j := Sample.job (js "pending") (js "high") [] in
  let db := Sample.db [(js "job1", j)] [] in
  let u := Sample.statusOnly ASSIGNED in
  db_jobs db !! js "job1" = Some j
  /\ fst (JobService.updateJob 2000 (js "job1") u db) = Ok tt
  /\ exists j',
       db_jobs (snd (JobService.updateJob 2000 (js "job1") u db)) !! js "job1"
         = Some j'
       /\ status j' = from_option JobStatus_value (status j) (update_status u)
       /\ allowed_step (status j) (status j').
Proof.
  intros j db u.
  assert (Hj : db_jobs db !! js "job1" = Some j) by (vm_compute; reflexivity).
  assert (Hok : fst (JobService.updateJob 2000 (js "job1") u db) = Ok tt)
    by (vm_compute; reflexivity).
  split; [exact Hj|]. split; [exact Hok|].
  exact (updateJob_moves_along_the_table 2000 (js "job1") u db j Hj Hok).
Defined.

(** ** Histories of calls *)

Section Histories.

Context {C : Type}.
Implicit Types (db : Db C) (c : Call) (calls : list Call).

Lemma allowed_pending_assigned : allowed_step (js "pending") (js "assigned").
Proof. right. exists PENDING, ASSIGNED. repeat split. constructor. Qed.

(** What one call does to the status and to the assignment records of a
    job: the status stays or moves along the table, and a record is added
    only for a pending job that the call leaves assigned. *)
Lemma perform_step c db (job : jsstring) :
  let db' := snd (perform c db) in
  match statusOf job db with
  | Some st =>
      exists st',
        statusOf job db' = Some st' /\ allowed_step st st'
        /\ (recordsOf job db' = recordsOf job db
            \/ (st = js "pending" /\ st' = js "assigned"
                /\ length (recordsOf job db') = S (length (recordsOf job db))))
  | None => statusOf job db' = None /\ recordsOf job db' = recordsOf job db
  end.
Proof.
  cbv zeta. unfold statusOf, recordsOf. destruct c as [now k u|now a]; cbn [perform].
  - (* updateJob *)
    destruct (db_jobs db !! k) as [jk|] eqn:Hk.
    + destruct (updateJob_cases now k u db jk Hk) as [[e ->]|[-> Hstep]];
        cbn [snd].
      * destruct (db_jobs db !! job) as [j|]; cbn [fmap option_fmap option_map];
          [|now split].
        eexists. split; [reflexivity|]. split; [now left|now left].
      * cbn [updated_db db_jobs db_assignments].
        destruct (decide (k = job)) as [->|Hne].
        -- rewrite Hk, lookup_insert_eq. cbn [fmap option_fmap option_map].
           eexists. split; [reflexivity|]. split; [|now left].
           rewrite updated_status.
           destruct (update_status u); [exact Hstep|now left].
        -- rewrite lookup_insert_ne by exact Hne.
           destruct (db_jobs db !! job) as [j|];
             cbn [fmap option_fmap option_map]; [|now split].
           eexists. split; [reflexivity|]. split; [now left|now left].
    + rewrite (updateJob_missing now k u db Hk). cbn [snd].
      destruct (db_jobs db !! job) as [j|]; cbn [fmap option_fmap option_map];
        [|now split].
      eexists. split; [reflexivity|]. split; [now left|now left].
  - (* assignJob *)
    destruct (assignJob_cases now a db) as [[e ->]|(ja & Ha & Hp & ->)];
      cbn [snd].
    + destruct (db_jobs db !! job) as [j|]; cbn [fmap option_fmap option_map];
        [|now split].
      eexists. split; [reflexivity|]. split; [now left|now left].
    + cbn [assigned_db db_jobs db_assignments].
      rewrite List.filter_app. cbn [List.filter record_assignment].
      destruct (decide (jobId a = job)) as [E|Hne].
      * rewrite <- E, Ha, lookup_insert_eq. cbn [fmap option_fmap option_map].
        eexists. split; [reflexivity|]. cbn [applyPatch status]. cbn.
        rewrite Hp. split; [apply allowed_pending_assigned|]. right.
        split; [reflexivity|]. split; [reflexivity|].
        rewrite bool_decide_eq_true_2 by reflexivity.
        rewrite length_app. cbn. lia.
      * rewrite lookup_insert_ne by exact Hne.
        rewrite bool_decide_eq_false_2 by exact Hne. rewrite app_nil_r.
        destruct (db_jobs db !! job) as [j|];
          cbn [fmap option_fmap option_map]; [|now split].
        eexists. split; [reflexivity|]. split; [now left|now left].
Qed.

(** A property of statuses that every allowed step keeps is kept by every
    history of calls. *)
Lemma after_keeps (P : jsstring -> Prop) calls db (job st : jsstring) :
  (forall a b, allowed_step a b -> P a -> P b) ->
  statusOf job db = Some st -> P st ->
  exists st', statusOf job (after calls db) = Some st' /\ P st'.
Proof.
  intros HP. revert db st. induction calls as [|c calls IH]; intros db st Hst Hp.
  - exists st. now split.
  - cbn [after foldl]. pose proof (perform_step c db job) as Hs. cbv zeta in Hs.
    rewrite Hst in Hs. destruct Hs as (st' & Hst' & Hstep & _).
    apply (IH _ st' Hst'). now apply (HP st st').
Qed.

Lemma allowed_step_from_terminal a b :
  terminal_status a -> allowed_step a b -> b = a.
Proof.
  intros Ht [->|(s & s' & -> & -> & Hs)]; [reflexivity|].
  exfalso. apply (no_transition_from_terminal s s'); [|exact Hs].
  destruct Ht as [Ht|Ht]; [right|left]; revert Ht.
  - change (js "completed") with (JobStatus_value COMPLETED). intros Ht.
    apply JobStatus_value_inj in Ht. subst. 
    destruct s'; inversion Hs.
  - change (js "cancelled") with (JobStatus_value CANCELLED). intros Ht.
    apply JobStatus_value_inj in Ht. subst.
    destruct s'; inversion Hs.
Qed.

Lemma allowed_step_not_into_pending a b :
  allowed_step a b -> a <> js "pending" -> b <> js "pending".
Proof.
  intros [->|(s & s' & -> & -> & Hs)] Ha; [exact Ha|].
  change (js "pending") with (JobStatus_value PENDING). intros E.
  apply JobStatus_value_inj in E. subst.
  now apply no_transition_into_pending in Hs.
Qed.

Lemma allowed_step_enumerated a b :
  allowed_step a b -> enumerated a -> enumerated b.
Proof.
  intros [->|(s & s' & -> & -> & Hs)] Ha; [exact Ha|].
  unfold enumerated. rewrite JobStatus_of_value. eauto.
Qed.

End Histories.

(** X3.  Under any history of [updateJob] and [assignJob] calls, the status
    of a stored job moves only along the transition table: the status
    after the history is reached from the status before it by a chain of
    table steps (calls that fail or keep the status add none). *)
Theorem history_follows_the_table {C : Type} (calls : list Call) (db : Db C)
    (job st : jsstring) :
  statusOf job db = Some st ->
  exists st',
    statusOf job (after calls db) = Some st' /\ rtc allowed_step st st'.
Proof.
  intros Hst.
  apply (after_keeps (rtc allowed_step st) calls db job st); [|exact Hst|].
  - intros a b Hab Ha. eapply rtc_r; eassumption.
  - apply rtc_refl.
Qed.

Lemma history_follows_the_table_witness :
  let db := Sample.db [(js "job1", Sample.job (js "pending") (js "high") [])]
              [(js "t1", Sample.technician [])] in
  let calls :=
    [CallAssign 10 (Sample.assignment (js "job1") (js "t1") (js "d1"));
     CallUpdate 20 (js "job1") (Sample.statusOnly PENDING);
     CallUpdate 30 (js "job1") (Sample.statusOnly IN_PROGRESS)] in
  statusOf (js "job1") db = Some (js "pending")
  /\ statusOf (js "job1") (after calls db) = Some (js "in_progress")
  /\ exists st',
       statusOf (js "job1") (after calls db) = Some st'
       /\ rtc allowed_step (js "pending") st'.
Proof.
  intros db calls.
  assert (H : statusOf (js "job1") db = Some (js "pending"))
    by (vm_compute; reflexivity).
  split; [exact H|]. split; [vm_compute; reflexivity|].
  exact (history_follows_the_table calls db (js "job1") (js "pending") H).
Defined.

(** X4.  A completed or cancelled job keeps its status under every history
    of [updateJob] and [assignJob] calls. *)
Theorem terminal_status_is_permanent {C : Type} (calls : list Call)
    (db : Db C) (job st : jsstring) :
  statusOf job db = Some st ->
  terminal_status st ->
  statusOf job (after calls db) = Some st.
Proof.
  intros Hst Ht.
  destruct (after_keeps (fun x => x = st) calls db job st) as (st' & H & ->);
    [|exact Hst|reflexivity|exact H].
  intros a b Hab ->. now apply allowed_step_from_terminal.
Qed.

Lemma terminal_status_is_permanent_witness :
  let db := Sample.db [(js "job1", Sample.job (js "completed") (js "high") [])]
              [(js "t1", Sample.technician [])] in
  let calls :=
    [CallUpdate 20 (js "job1") (Sample.statusOnly IN_PROGRESS);
     CallAssign 30 (Sample.assignment (js "job1") (js "t1") (js "d1"));
     CallUpdate 40 (js "job1") (Sample.statusOnly CANCELLED)] in
  statusOf (js "job1") db = Some (js "completed")
  /\ terminal_status (js "completed")
  /\ statusOf (js "job1") (after calls db) = Some (js "completed").
Proof.
  intros db calls.
  assert (H : statusOf (js "job1") db = Some (js "completed"))
    by (vm_compute; reflexivity).
  split; [exact H|]. split; [now left|].
  apply (terminal_status_is_permanent calls db (js "job1") (js "completed") H).
  now left.
Defined.

(** X5.  A stored job whose status is one of the six enumerated values has
    an enumerated status after every history of [updateJob] and
    [assignJob] calls, and it is still stored. *)
Theorem enumerated_status_is_kept {C : Type} (calls : list Call) (db : Db C)
    (job st : jsstring) :
  statusOf job db = Some st ->
  enumerated st ->
  exists st', statusOf job (after calls db) = Some st' /\ enumerated st'.
Proof.
  intros Hst He. apply (after_keeps enumerated calls db job st); try assumption.
  intros a b. apply allowed_step_enumerated.
Qed.

Lemma enumerated_status_is_kept_witness :
  let db := Sample.db [(js "job1", Sample.job (js "on_hold") (js "high") [])] [] in
  let calls := [CallUpdate 20 (js "job1") (Sample.statusOnly ASSIGNED)] in
  statusOf (js "job1") db = Some (js "on_hold")
  /\ enumerated (js "on_hold")
  /\ exists st',
       statusOf (js "job1") (after calls db) = Some st' /\ enumerated st'.
Proof.
  intros db calls.
  assert (H : statusOf (js "job1") db = Some (js "on_hold"))
    by (vm_compute; reflexivity).
  assert (He : enumerated (js "on_hold")) by (exists ON_HOLD; reflexivity).
  split; [exact H|]. split; [exact He|].
  exact (enumerated_status_is_kept calls db (js "job1") (js "on_hold") H He).
Defined.

(** X6.  Under any history of [updateJob] and [assignJob] calls a job gets
    at most one new assignment record, and none unless it is pending at
    the start: once assigned it never returns to pending. *)
Theorem at_most_one_assignment_per_job {C : Type} (calls : list Call)
    (db : Db C) (job : jsstring) :
  length (recordsOf job (after calls db))
  <= length (recordsOf job db)
     + (if bool_decide (statusOf job db = Some (js "pending")) then 1 else 0).
Proof.
  revert db. induction calls as [|c calls IH]; intros db; [cbn; lia|].
  cbn [after foldl]. fold (after calls (snd (perform c db))).
  specialize (IH (snd (perform c db))).
  pose proof (perform_step c db job) as Hs. cbv zeta in Hs.
  destruct (statusOf job db) as [st|] eqn:Hst.
  - destruct Hs as (st' & Hst' & Hstep & [Hr|(-> & -> & Hr)]).
    + rewrite Hst', Hr in IH.
      destruct (bool_decide (Some st' = Some (js "pending"))) eqn:E1; [|lia].
      apply bool_decide_eq_true in E1. injection E1 as ->.
      destruct (bool_decide (Some st = Some (js "pending"))) eqn:E2; [lia|].
      apply bool_decide_eq_false in E2. exfalso.
      apply (allowed_step_not_into_pending st (js "pending") Hstep);
        [congruence|reflexivity].
    + rewrite Hst' in IH.
      rewrite bool_decide_eq_false_2 in IH by (vm_compute; discriminate).
      rewrite bool_decide_eq_true_2 by reflexivity. lia.
  - destruct Hs as [Hst' Hr]. rewrite Hst', Hr in IH.
    rewrite bool_decide_eq_false_2 in IH by discriminate.
    rewrite bool_decide_eq_false_2 by discriminate. lia.
Qed.

(** X7.  A second assignment of the same job fails: after a successful
    [assignJob], every structurally valid [assignJob] for that job is
    refused because the job is assigned, and writes nothing. *)
Theorem assignJob_second_assignment_fails {C : Type} (now now' : Date)
    (a a' : JobAssignment) (db : Db C) :
  fst (JobService.assignJob now a db) = Ok tt ->
  jobId a' = jobId a ->
  given (jobId a') && given (technicianId a')
    && given (assignment_assignedBy a') = true ->
  let db1 := snd (JobService.assignJob now a db) in
  JobService.assignJob now' a' db1
  = (Error (js "Job cannot be assigned. Current status: assigned"), db1).
Proof.
  intros Hok Hid Hvalid.
  destruct (assignJob_cases now a db) as [[e E]|(j & Hj & Hp & E)];
    rewrite E in Hok |- *; [discriminate Hok|].
  cbn [snd]. unfold JobService.assignJob.
  rewrite (validateJobAssignment_valid a'
             (assigned_db a (applyPatch (JobService.assignmentPatch now a) j) db)).
  cbn [check_holds]. rewrite Hvalid. cbn [negb].
  unfold JobService.getJobById, getJobDoc, bind, ret, throw. cbv beta.
  cbn [assigned_db db_jobs]. rewrite Hid, lookup_insert_eq.
  reflexivity.
Qed.

Lemma assignJob_second_assignment_fails_witness :
  let db := Sample.db [(js "job1", Sample.job (js "pending") (js "high") [])]
              [(js "t1", Sample.technician []);
               (js "t2", Sample.technician [])] in
  let a := Sample.assignment (js "job1") (js "t1") (js "d1") in
  let a' := Sample.assignment (js "job1") (js "t2") (js "d2") in
  fst (JobService.assignJob 10 a db) = Ok tt
  /\ jobId a' = jobId a
  /\ given (jobId a') && given (technicianId a')
       && given (assignment_assignedBy a') = true
  /\ fst (JobService.assignJob 20 a' (snd (JobService.assignJob 10 a db)))
     = Error (js "Job cannot be assigned. Current status: assigned").
Proof.
  intros db a a'.
  assert (H1 : fst (JobService.assignJob 10 a db) = Ok tt)
    by (vm_compute; reflexivity).
  assert (H3 : given (jobId a') && given (technicianId a')
               && given (assignment_assignedBy a') = true)
    by (vm_compute; reflexivity).
  split; [exact H1|]. split; [reflexivity|]. split; [exact H3|].
  rewrite (assignJob_second_assignment_fails 10 20 a a' db H1 eq_refl H3).
  reflexivity.
Defined.

(** ** What [updateJob] stores *)

(** X8.  A successful [updateJob] that moves a job to in_progress leaves it
    with a start time: the time of the call when the job had none, even if
    the update carries one; otherwise the one of the update, or else the
    stored one.  The same holds for completed and the completion time.  In
    every case the job's [updatedAt] is the time of the call. *)
Theorem updateJob_stamps_progress {C : Type} (now : Date) (jobId : jsstring)
    (u : JobUpdate) (db : Db C) (j : Job C) :
  db_jobs db !! jobId = Some j ->
  fst (JobService.updateJob now jobId u db) = Ok tt ->
  exists j',
    db_jobs (snd (JobService.updateJob now jobId u db)) !! jobId = Some j'
    /\ updatedAt j' = now
    /\ match update_status u with
       | Some IN_PROGRESS =>
           startedAt j'
           = Some match startedAt j with
                  | None => now
                  | Some t => default t (update_startedAt u)
                  end
       | Some COMPLETED =>
           completedAt j'
           = Some match completedAt j with
                  | None => now
                  | Some t => default t (update_completedAt u)
                  end
       | _ =>
           startedAt j' = overwrite (update_startedAt u) (startedAt j)
           /\ completedAt j' = overwrite (update_completedAt u) (completedAt j)
       end.
Proof.
  intros Hj Hok.
  destruct (updateJob_cases now jobId u db j Hj) as [[e E]|[E _]];
    rewrite E in Hok |- *; [discriminate Hok|].
  eexists. cbn [snd updated_db db_jobs]. split; [apply lookup_insert_eq|].
  split; [reflexivity|].
  cbn. destruct (update_status u) as [[]|]; cbn;
    destruct (startedAt j), (completedAt j), (update_startedAt u),
      (update_completedAt u); cbn; auto.
Qed.

Lemma updateJob_stamps_progress_witness :
  let j := Sample.job (js "assigned") (js "high") [] in
  let db := Sample.db [(js "job1", j)] [] in
  let u :=
    {| update_status := Some IN_PROGRESS; update_notes := None;
       update_internalNotes := None; update_startedAt := Some 7%Z;
       update_completedAt := None; update_actualDuration := None;
       update_completionNotes := None; update_customerSignature := None;
       update_photos := None; update_workSummary := None |} in
  db_jobs db !! js "job1" = Some j
  /\ fst (JobService.updateJob 2000 (js "job1") u db) = Ok tt
  /\ (startedAt <$>
        db_jobs (snd (JobService.updateJob 2000 (js "job1") u db)) !! js "job1")
     = Some (Some 2000%Z).
Proof.
  intros j db u.
  assert (Hj : db_jobs db !! js "job1" = Some j) by (vm_compute; reflexivity).
  assert (Hok : fst (JobService.updateJob 2000 (js "job1") u db) = Ok tt)
    by (vm_compute; reflexivity).
  split; [exact Hj|]. split; [exact Hok|].
  destruct (updateJob_stamps_progress 2000 (js "job1") u db j Hj Hok)
    as (j' & -> & _ & H).
  cbn in H. cbn. now rewrite H.
Defined.

(** X9.  A successful [updateJob] stores the completion notes and the work
    summary of the update sanitized: no [<], [>], apostrophe or double
    quote, at most 1000 code units.  The notes and internal notes of the
    update are stored exactly as given: they pass the sanitizer untouched. *)
Theorem updateJob_sanitizes_completion_text_only {C : Type} (now : Date)
    (jobId : jsstring) (u : JobUpdate) (db : Db C) (j : Job C) :
  db_jobs db !! jobId = Some j ->
  fst (JobService.updateJob now jobId u db) = Ok tt ->
  exists j',
    db_jobs (snd (JobService.updateJob now jobId u db)) !! jobId = Some j'
    /\ notes j' = from_option NotesString (notes j) (update_notes u)
    /\ internalNotes j'
       = from_option NotesString (internalNotes j) (update_internalNotes u)
    /\ match update_completionNotes u with
       | Some text =>
           completionNotes j'
           = Some (if nonEmpty text then DataSanitizer.sanitizeString text
                   else text)
           /\ Forall (fun c => includes (js "<>") c = false
                               /\ includes [39; 34]%N c = false)
                (default [] (completionNotes j'))
           /\ length (default [] (completionNotes j')) <= 1000
       | None => completionNotes j' = completionNotes j
       end
    /\ match update_workSummary u with
       | Some text =>
           workSummary j'
           = Some (if nonEmpty text then DataSanitizer.sanitizeString text
                   else text)
           /\ Forall (fun c => includes (js "<>") c = false
                               /\ includes [39; 34]%N c = false)
                (default [] (workSummary j'))
           /\ length (default [] (workSummary j')) <= 1000
       | None => workSummary j' = workSummary j
       end.
Proof.
  intros Hj Hok.
  destruct (updateJob_cases now jobId u db j Hj) as [[e E]|[E _]];
    rewrite E in Hok |- *; [discriminate Hok|].
  eexists. cbn [snd updated_db db_jobs]. split; [apply lookup_insert_eq|].
  assert (Hclean : forall text,
             Forall (fun c => includes (js "<>") c = false
                              /\ includes [39; 34]%N c = false)
               (if nonEmpty text then DataSanitizer.sanitizeString text else text)
             /\ length (if nonEmpty text then DataSanitizer.sanitizeString text
                        else text) <= 1000).
  { intros text. destruct text as [|c text]; [cbn; split; [constructor|lia]|].
    cbn [nonEmpty]. destruct (sanitizeString_clean (c :: text)) as (H1 & H2 & H3).
    split; [|exact H3]. apply List.Forall_forall. intros x Hx.
    rewrite List.Forall_forall in H1, H2. auto. }
  cbn [applyPatch notes internalNotes completionNotes workSummary
       JobService.updateData patch_notes patch_internalNotes
       patch_completionNotes patch_workSummary DataSanitizer.sanitizeJobData
       update_notes update_internalNotes update_completionNotes
       update_workSummary].
  split; [now destruct (update_notes u)|].
  split; [now destruct (update_internalNotes u)|].
  split.
  - destruct (update_completionNotes u) as [text|]; [|reflexivity].
    cbn [DataSanitizer.sanitizeField overwrite default].
    destruct (Hclean text) as [H1 H2].
    destruct (nonEmpty text); cbn [overwrite default]; auto.
  - destruct (update_workSummary u) as [text|]; [|reflexivity].
    cbn [DataSanitizer.sanitizeField overwrite default].
    destruct (Hclean text) as [H1 H2].
    destruct (nonEmpty text); cbn [overwrite default]; auto.
Qed.

Lemma updateJob_sanitizes_completion_text_only_witness :
  let j := Sample.job (js "assigned") (js "high") [] in
  let db := Sample.db [(js "job1", j)] [] in
  let u :=
    {| update_status := None; update_notes := Some (js "<b>call</b>");
       update_internalNotes := None; update_startedAt := None;
       update_completedAt := None; update_actualDuration := None;
       update_completionNotes := Some (js "<b>done</b>");
       update_customerSignature := None;
       update_photos := None; update_workSummary := None |} in
  let stored :=
    db_jobs (snd (JobService.updateJob 2000 (js "job1") u db)) !! js "job1" in
  db_jobs db !! js "job1" = Some j
  /\ fst (JobService.updateJob 2000 (js "job1") u db) = Ok tt
  /\ (notes <$> stored) = Some (NotesString (js "<b>call</b>"))
  /\ (completionNotes <$> stored) = Some (Some (js "bdone/b")).
Proof.
  intros j db u stored.
  assert (Hj : db_jobs db !! js "job1" = Some j) by (vm_compute; reflexivity).
  assert (Hok : fst (JobService.updateJob 2000 (js "job1") u db) = Ok tt)
    by (vm_compute; reflexivity).
  split; [exact Hj|]. split; [exact Hok|].
  destruct (updateJob_sanitizes_completion_text_only 2000 (js "job1") u db j
              Hj Hok) as (j' & Hs & Hn & _ & Hc & _).
  unfold stored. rewrite Hs. cbn [fmap option_fmap option_map].
  cbn in Hc. destruct Hc as [Hc _]. rewrite Hn, Hc. split; reflexivity.
Defined.

(** ** Bulk updates and deletion *)

Lemma applyWrites_bulk {C : Type} (now : Date)
    (updates : list (jsstring * JobUpdate)) (db : Db C) :
  match applyWrites (bulkBatch now updates) db with
  | Some db' =>
      Forall (fun update => is_Some (db_jobs db !! update.1)) updates
      /\ dom (db_jobs db') = dom (db_jobs db)
      /\ db_users db' = db_users db
      /\ db_assignments db' = db_assignments db
  | None => ~ Forall (fun update => is_Some (db_jobs db !! update.1)) updates
  end.
Proof.
  revert db. induction updates as [|[k u] updates IH]; intros db.
  - cbn. repeat split. constructor.
  - cbn [bulkBatch List.map applyWrites applyWrite fst snd].
    destruct (db_jobs db !! k) as [j|] eqn:Hk.
    + set (db1 := {| db_jobs := <[k:=applyPatch (bulkUpdateData now u) j]> (db_jobs db);
                     db_users := db_users db;
                     db_assignments := db_assignments db |}).
      specialize (IH db1). fold (bulkBatch now updates).
      assert (Hdom : dom (db_jobs db1) = dom (db_jobs db)).
      { cbn. apply dom_insert_lookup_L. eauto. }
      assert (Hsame : forall l : list (jsstring * JobUpdate),
                 Forall (fun update => is_Some (db_jobs db1 !! update.1)) l
                 <-> Forall (fun update => is_Some (db_jobs db !! update.1)) l).
      { intros l. apply Forall_proper; [|reflexivity]. intros x.
        rewrite <- !elem_of_dom, Hdom. reflexivity. }
      destruct (applyWrites (bulkBatch now updates) db1) as [db'|].
      * destruct IH as (H1 & H2 & H3 & H4). repeat split.
        -- constructor; [cbn; eauto|now apply Hsame].
        -- now rewrite H2.
        -- exact H3.
        -- exact H4.
      * intros H. apply Forall_cons in H as [_ H]. apply IH. now apply Hsame.
    + intros H. apply Forall_cons in H as [[? H] _]. cbn in H. congruence.
Qed.

(** X10.  [bulkUpdateJobs] is all or nothing: it succeeds exactly when
    every job it names is stored (vacuously for no update at all), and then
    no job appears or disappears and the users and assignment records stay;
    if one job is missing it fails with its one message and the store is
    what it was, the updates of the other jobs included. *)
Theorem bulkUpdateJobs_all_or_nothing {C : Type} (now : Date)
    (updates : list (jsstring * JobUpdate)) (db : Db C) :
  let out := bulkUpdateJobs now updates db in
  if bool_decide (Forall (fun update => is_Some (db_jobs db !! update.1)) updates)
  then fst out = Ok tt
       /\ dom (db_jobs (snd out)) = dom (db_jobs db)
       /\ db_users (snd out) = db_users db
       /\ db_assignments (snd out) = db_assignments db
  else out = (Error (js "Failed to bulk update jobs"), db).
Proof.
  cbv zeta. unfold bulkUpdateJobs, commit.
  pose proof (applyWrites_bulk now updates db) as H.
  destruct (applyWrites (bulkBatch now updates) db) as [db'|].
  - destruct H as (H1 & H2 & H3 & H4).
    rewrite bool_decide_eq_true_2 by exact H1. now repeat split.
  - rewrite bool_decide_eq_false_2 by exact H. reflexivity.
Qed.

(** X11.  [bulkUpdateJobs] checks nothing: on a stored job it sets whatever
    status the update names, in or out of the transition table, stamps no
    start or completion time, and stores the completion notes and the work
    summary as given, unsanitized. *)
Theorem bulkUpdateJobs_checks_nothing {C : Type} (now : Date)
    (jobId : jsstring) (u : JobUpdate) (db : Db C) (j : Job C) :
  db_jobs db !! jobId = Some j ->
  let out := bulkUpdateJobs now [(jobId, u)] db in
  fst out = Ok tt
  /\ exists j',
       db_jobs (snd out) !! jobId = Some j'
       /\ status j' = from_option JobStatus_value (status j) (update_status u)
       /\ startedAt j' = overwrite (update_startedAt u) (startedAt j)
       /\ completedAt j' = overwrite (update_completedAt u) (completedAt j)
       /\ completionNotes j'
          = overwrite (update_completionNotes u) (completionNotes j)
       /\ workSummary j' = overwrite (update_workSummary u) (workSummary j).
Proof.
  intros Hj. cbv zeta. unfold bulkUpdateJobs, commit.
  cbn [bulkBatch List.map applyWrites applyWrite fst snd]. rewrite Hj.
  cbn [fst snd db_jobs]. split; [reflexivity|].
  eexists. split; [apply lookup_insert_eq|].
  cbn. destruct (update_status u), (update_startedAt u), (update_completedAt u);
    repeat split.
Qed.

Lemma bulkUpdateJobs_checks_nothing_witness :
  let j := Sample.job (js "completed") (js "high") [] in
  let db := Sample.db [(js "job1", j)] [] in
  let out := bulkUpdateJobs 2000 [(js "job1", Sample.statusOnly PENDING)] db in
  db_jobs db !! js "job1" = Some j
  /\ fst out = Ok tt
  /\ statusOf (js "job1") (snd out) = Some (js "pending").
Proof.
  intros j db out.
  assert (Hj : db_jobs db !! js "job1" = Some j) by (vm_compute; reflexivity).
  split; [exact Hj|].
  destruct (bulkUpdateJobs_checks_nothing 2000 (js "job1")
              (Sample.statusOnly PENDING) db j Hj) as (Hok & j' & Hs & Hst & _).
  split; [exact Hok|].
  unfold out, statusOf. rewrite Hs. cbn [fmap option_fmap option_map].
  now rewrite Hst.
Defined.

(** X12.  [deleteJob] always succeeds.  Afterwards the job is gone:
    [getJobById] finds nothing and [updateJob] fails with job not found,
    writing nothing.  Deleting a job that is not stored changes nothing,
    and putting a deleted job back restores the jobs as they were. *)
Theorem deleteJob_removes_the_job {C : Type} (now : Date) (jobId : jsstring)
    (u : JobUpdate) (db : Db C) :
  let db1 := snd (deleteJob jobId db) in
  fst (deleteJob jobId db) = Ok tt
  /\ JobService.getJobById jobId db1 = (Ok None, db1)
  /\ JobService.updateJob now jobId u db1 = (Error (js "Job not found"), db1)
  /\ snd (deleteJob jobId db1) = db1
  /\ match db_jobs db !! jobId with
     | Some j => <[jobId := j]> (db_jobs db1) = db_jobs db
     | None => db1 = db
     end.
Proof.
  cbv zeta. unfold deleteJob. cbn [fst snd].
  split; [reflexivity|]. split.
  { unfold JobService.getJobById, getJobDoc, bind, ret. cbn [db_jobs].
    now rewrite lookup_delete_eq. }
  split.
  { apply updateJob_missing. cbn. apply lookup_delete_eq. }
  split.
  { cbn [db_jobs db_users db_assignments]. f_equal.
    apply delete_id. apply lookup_delete_eq. }
  destruct (db_jobs db !! jobId) as [j|] eqn:Hj; cbn [db_jobs].
  - rewrite insert_delete_eq. now apply insert_id.
  - rewrite delete_id by exact Hj. now destruct db.
Qed.

(** * Properties of the creation validators *)

Lemma isValid_mkResult errs : isValid (mkResult errs) = true <-> errs = [].
Proof.
  unfold mkResult. cbn. rewrite bool_decide_eq_true. apply length_zero_iff_nil.
Qed.

Lemma pushFirst_nil_iff c1 m1 c2 m2 errs :
  JobCreation.pushFirst c1 m1 c2 m2 errs = []
  <-> c1 = false /\ c2 = false /\ errs = [].
Proof.
  unfold JobCreation.pushFirst. destruct c1.
  - split; [intros H; now destruct errs|now intros [? _]].
  - rewrite pushIf_nil_iff. tauto.
Qed.

Lemma blank_filled s : JobValidation.blank s = false <-> filled s.
Proof.
  rewrite blank_given. unfold given, filled.
  destruct (trim s); cbn; split; congruence.
Qed.

Lemma notPositive_positive n :
  JobCreation.notPositive n = false <-> positive n.
Proof.
  unfold JobCreation.notPositive, positive.
  destruct n as [q| |[]]; cbn [Number.truthy Number.leb Number.ltb Number.of_nat
                               Number.of_Z negb orb];
    try (split; congruence).
  change (inject_Z (Z.of_nat 0)) with 0%Q. unfold Number.Qlt_bool.
  destruct (Qeq_bool q 0) eqn:E1, (Qle_bool q 0) eqn:E2; cbn;
    try (split; congruence).
  exfalso. apply Qeq_bool_iff in E1. apply not_true_iff_false in E2.
  apply E2, Qle_bool_iff. rewrite E1. apply Qle_refl.
Qed.

(** ** Time slots *)

Lemma clock_reads_back_all h m : h < 24 -> m < 60 -> clock_reads_back h m = true.
Proof.
  assert (H : forallb (fun h => forallb (clock_reads_back h) (seq 0 60)) (seq 0 24)
              = true) by (vm_compute; reflexivity).
  intros Hh Hm. rewrite forallb_forall in H.
  specialize (H h). rewrite forallb_forall in H.
  apply H; apply in_seq; lia.
Qed.

Lemma clock_minutes h m :
  h < 24 -> m < 60 ->
  Patterns.timeRegex (clock h m) = true
  /\ nonEmpty (clock h m) = true
  /\ exists q,
       let parts := digitsToNumber <$> split 58 (clock h m) in
       (nth 0 parts NaN * Number.of_nat 60 + nth 1 parts NaN)%num = Num q
       /\ (q == inject_Z (Z.of_nat (h * 60 + m)))%Q.
Proof.
  intros Hh Hm. pose proof (clock_reads_back_all h m Hh Hm) as H.
  unfold clock_reads_back in H.
  apply andb_true_iff in H as [H Hparts]. apply andb_true_iff in H as [H1 H2].
  split; [exact H1|]. split; [exact H2|]. cbv zeta.
  destruct (digitsToNumber <$> split 58 (clock h m)) as [|[a| |] [|[b| |] [|]]];
    try discriminate Hparts.
  apply andb_true_iff in Hparts as [Ha Hb].
  apply Qeq_bool_iff in Ha, Hb.
  eexists. split; [reflexivity|].
  rewrite !Qred_correct, Ha, Hb.
  rewrite Nat2Z.inj_add, Nat2Z.inj_mul, inject_Z_plus, inject_Z_mult.
  reflexivity.
Qed.

(** X13.  For two well-formed clock times [HH:MM], [validateTimeSlot]
    accepts the slot exactly when the end is strictly later in the day
    than the start; an end at or before the start, as in a slot that runs
    past midnight, gets the single error that the end must be after the
    start. *)
Theorem validateTimeSlot_orders_clock_times (h1 m1 h2 m2 : nat) :
  h1 < 24 -> m1 < 60 -> h2 < 24 -> m2 < 60 ->
  JobCreation.validateTimeSlot (clock h1 m1, clock h2 m2)
  = if h1 * 60 + m1 <? h2 * 60 + m2
    then {| isValid := true; errors := [] |}
    else {| isValid := false;
            errors := [js "End time must be after start time"] |}.
Proof.
  intros Hh1 Hm1 Hh2 Hm2.
  destruct (clock_minutes h1 m1 Hh1 Hm1) as (R1 & N1 & q1 & E1 & Q1).
  destruct (clock_minutes h2 m2 Hh2 Hm2) as (R2 & N2 & q2 & E2 & Q2).
  cbv zeta in E1, E2.
  unfold JobCreation.validateTimeSlot. cbn [fst snd]. cbv zeta.
  rewrite R1, R2, N1, N2. cbn [negb orb andb pushIf].
  rewrite E1, E2. cbn [Number.leb].
  destruct (Nat.ltb_spec (h1 * 60 + m1) (h2 * 60 + m2)) as [Hlt|Hge].
  - replace (Qle_bool q2 q1) with false; [reflexivity|].
    symmetry. apply not_true_iff_false. rewrite Qle_bool_iff, Q1, Q2.
    rewrite <- Zle_Qle. lia.
  - replace (Qle_bool q2 q1) with true; [reflexivity|].
    symmetry. rewrite Qle_bool_iff, Q1, Q2. rewrite <- Zle_Qle. lia.
Qed.

Lemma validateTimeSlot_orders_clock_times_witness :
  9 < 24 /\ 0 < 60 /\ 8 < 24 /\ 30 < 60
  /\ JobCreation.validateTimeSlot (js "09:00", js "08:30")
     = {| isValid := false;
          errors := [js "End time must be after start time"] |}.
Proof.
  repeat (split; [lia|]).
  exact (validateTimeSlot_orders_clock_times 9 0 8 30
           ltac:(lia) ltac:(lia) ltac:(lia) ltac:(lia)).
Defined.

(** ** Locations *)

Lemma zipRegex_shape z : Patterns.zipRegex z = true <-> zip_shape z.
Proof.
  split.
  - intros H.
    destruct z as [|d1 [|d2 [|d3 [|d4 [|d5 [|d6 [|d7 [|d8 [|d9 [|d10 [|d11 z]]]]]]]]]]];
      cbn in H; try discriminate H.
    + rewrite !andb_true_iff in H. destruct H as ((((H1 & H2) & H3) & H4) & H5).
      exists [d1; d2; d3; d4; d5], []. repeat split; auto.
      repeat constructor; assumption.
    + rewrite !andb_true_iff in H.
      destruct H as (((((((((H1 & H2) & H3) & H4) & H5) & Hd) & H6) & H7) & H8) & H9).
      apply N.eqb_eq in Hd. subst d6.
      exists [d1; d2; d3; d4; d5], [45%N; d7; d8; d9; d10].
      repeat split; [repeat constructor; assumption|].
      right. exists [d7; d8; d9; d10]. repeat split.
      repeat constructor; assumption.
  - intros (five & rest & -> & Hlen & Hf & Hrest).
    destruct five as [|d1 [|d2 [|d3 [|d4 [|d5 [|d6 five]]]]]]; try discriminate Hlen.
    rewrite !Forall_cons in Hf. destruct Hf as (H1 & H2 & H3 & H4 & H5 & _).
    destruct Hrest as [->|(four & -> & Hlen4 & Hf4)].
    + cbn. now rewrite H1, H2, H3, H4, H5.
    + destruct four as [|e1 [|e2 [|e3 [|e4 [|e5 four]]]]]; try discriminate Hlen4.
      rewrite !Forall_cons in Hf4. destruct Hf4 as (G1 & G2 & G3 & G4 & _).
      cbn. now rewrite H1, H2, H3, H4, H5, G1, G2, G3, G4.
Qed.

Lemma range_test lo hi x :
  ((x <? Number.of_Z lo)%num || (Number.of_Z hi <? x)%num) = false
  <-> in_range_or_NaN (Number.of_Z lo) (Number.of_Z hi) x.
Proof.
  unfold in_range_or_NaN.
  destruct x as [q| |[]]; cbn [Number.ltb Number.leb Number.of_Z negb orb andb].
  - unfold Number.Qlt_bool.
    destruct (Qle_bool (inject_Z lo) q), (Qle_bool q (inject_Z hi)); cbn;
      split; intros H; try discriminate H; try (right; now split);
      destruct H as [H|[H1 H2]]; congruence.
  - split; [now left|reflexivity].
  - split; [discriminate|]. intros [H|[H1 H2]]; discriminate.
  - split; [discriminate|]. intros [H|[H1 H2]]; discriminate.
Qed.

(** X14.  [validateLocation] accepts a location exactly when its address,
    city and state are not blank, its ZIP code is five digits, optionally
    followed by a hyphen and four digits, and each coordinate is in its
    range or is [NaN]: a [NaN] latitude or longitude passes both
    comparisons of its range test. *)
Theorem validateLocation_accepts_iff (l : JobLocation number) :
  isValid (JobCreation.validateLocation l) = true
  <-> filled (address l)
      /\ in_range_or_NaN (Number.of_Z (-90)) (Number.of_Z 90) (latitude l)
      /\ in_range_or_NaN (Number.of_Z (-180)) (Number.of_Z 180) (longitude l)
      /\ filled (city l) /\ filled (state l)
      /\ zip_shape (zipCode l).
Proof.
  unfold JobCreation.validateLocation. cbv zeta.
  rewrite isValid_mkResult, !pushIf_nil_iff.
  change (Number.of_nat 90) with (Number.of_Z 90).
  change (Number.of_nat 180) with (Number.of_Z 180).
  rewrite !range_test, !blank_filled, <- zipRegex_shape.
  assert (Hz : negb (nonEmpty (zipCode l)) || negb (Patterns.zipRegex (zipCode l))
               = false <-> Patterns.zipRegex (zipCode l) = true).
  { destruct (zipCode l) as [|c z]; [cbn; split; discriminate|].
    cbn [nonEmpty negb orb]. now rewrite negb_false_iff. }
  rewrite Hz. tauto.
Qed.

(** ** Requirements *)

Lemma validateEquipment_ok e :
  errors (JobCreation.validateEquipment e) = [] <-> equipment_ok e.
Proof.
  unfold JobCreation.validateEquipment, equipment_ok. cbv zeta. cbn [errors mkResult].
  rewrite !pushIf_nil_iff, !blank_filled, notPositive_positive. tauto.
Qed.

Lemma imap_concat_nil {A} (P : A -> Prop) (l : list A) :
  forall g : nat -> A -> list jsstring,
    (forall i a, g i a = [] <-> P a) ->
    concat (imap g l) = [] <-> Forall P l.
Proof.
  induction l as [|a l IH]; intros g Hg; cbn.
  - split; [constructor|reflexivity].
  - rewrite Forall_cons, <- (Hg 0 a), <- (IH (g ∘ S)) by (intros i b; apply Hg).
    destruct (g 0 a); cbn; split; try tauto; try (intros [? ?]; discriminate).
    discriminate.
Qed.

(** X15.  [validateJobRequirements] accepts requirements exactly when there
    is at least one skill, every piece of equipment has a name and a model
    that are not blank and a quantity greater than 0, and the estimated
    duration is greater than 0.  A quantity or duration of 0 or [NaN] is
    rejected. *)
Theorem validateJobRequirements_accepts_iff (r : JobRequirements) :
  (isValid (JobCreation.validateJobRequirements r) = true
   <-> skills r <> []
       /\ Forall equipment_ok (equipment r)
       /\ positive (requirements_estimatedDuration r))
  /\ ~ positive (Number.of_nat 0) /\ ~ positive NaN.
Proof.
  split; [|split; discriminate].
  unfold JobCreation.validateJobRequirements. cbv zeta.
  rewrite isValid_mkResult, pushIf_nil_iff, notPositive_positive.
  rewrite app_nil, pushIf_nil_iff.
  rewrite (imap_concat_nil equipment_ok).
  2:{ intros i e. unfold JobCreation.equipmentErrors.
      rewrite <- validateEquipment_ok.
      destruct (errors (JobCreation.validateEquipment e)); cbn;
        split; congruence. }
  rewrite bool_decide_eq_false, length_zero_iff_nil. tauto.
Qed.

(** ** Customers *)

Lemma phoneRegex_shape p : Patterns.phoneRegex p = true <-> phone_shape p.
Proof.
  unfold Patterns.phoneRegex, phone_shape. cbv zeta.
  rewrite !andb_true_iff, !Nat.leb_le, forallb_forall, <- List.Forall_forall.
  split.
  - intros [[H1 H2] H3]. eexists. split; [|split; [split; eassumption|exact H3]].
    destruct p as [|c p]; [now left|].
    destruct (N.eq_dec c 43%N) as [->|Hc]; [now right|].
    left. destruct c as [|c]; [reflexivity|].
    repeat (destruct c as [c|c|]; try reflexivity); contradiction.
  - intros (body & [->| ->] & Hlen & Hf).
    + destruct body as [|c body]; [repeat split; try apply Hlen; exact Hf|].
      destruct (N.eq_dec c 43%N) as [->|Hc].
      * apply Forall_cons in Hf as [Hf _]. discriminate Hf.
      * assert (E : match c :: body with
                    | 43%N :: rest => rest
                    | _ => c :: body
                    end = c :: body).
        { destruct c as [|c]; [reflexivity|].
          repeat (destruct c as [c|c|]; try reflexivity); contradiction. }
        rewrite E. repeat split; try apply Hlen; exact Hf.
    + repeat split; try apply Hlen; exact Hf.
Qed.

Lemma splitAt_Some s local domain :
  Patterns.splitAt s = Some (local, domain) ->
  s = local ++ 64%N :: domain.
Proof.
  revert local. induction s as [|c s IH]; intros local H; [discriminate H|].
  cbn in H. destruct (N.eqb_spec c 64) as [->|Hc].
  - injection H as <- <-. reflexivity.
  - destruct (Patterns.splitAt s) as [[b a]|]; [|discriminate H].
    injection H as <- <-. cbn. f_equal. now apply IH.
Qed.

Lemma splitAt_app a rest :
  Forall (fun x => Patterns.emailChar x = true) a ->
  Patterns.splitAt (a ++ 64%N :: rest) = Some (a, rest).
Proof.
  induction 1 as [|c a Hc _ IH]; [reflexivity|].
  cbn. unfold Patterns.emailChar in Hc.
  apply andb_true_iff in Hc as [_ Hc]. apply negb_true_iff in Hc.
  now rewrite Hc, IH.
Qed.

Lemma inner_dot d :
  includes (removelast (tail d)) 46%N = true
  <-> exists b c, d = b ++ 46%N :: c /\ b <> [] /\ c <> [].
Proof.
  unfold includes. rewrite bool_decide_eq_true. split.
  - intros H. destruct d as [|b0 t]; [cbn in H; now apply elem_of_nil in H|].
    cbn [tail] in H.
    destruct t as [|t0 t'] using rev_ind; [cbn in H; now apply elem_of_nil in H|].
    rewrite removelast_last in H.
    apply list_elem_of_split in H as (m1 & m2 & ->).
    exists (b0 :: m1), (m2 ++ [t0]). split; [|split].
    + cbn. now rewrite <- !app_assoc.
    + discriminate.
    + now destruct m2.
  - intros (b & c & -> & Hb & Hc).
    destruct b as [|b0 b]; [contradiction|]. cbn [tail app].
    destruct c as [|c0 c'] using rev_ind; [contradiction|].
    replace (b ++ 46%N :: c' ++ [c0]) with ((b ++ 46%N :: c') ++ [c0])
      by now rewrite <- app_assoc.
    rewrite removelast_last. set_solver.
Qed.

Lemma emailRegex_shape e : Patterns.emailRegex e = true <-> email_shape e.
Proof.
  unfold Patterns.emailRegex, email_shape. split.
  - destruct (Patterns.splitAt e) as [[local domain]|] eqn:Es; [|discriminate].
    apply splitAt_Some in Es. subst e.
    rewrite !andb_true_iff, !forallb_forall, <- !List.Forall_forall, inner_dot.
    intros (((Hn & Hl) & Hd) & (b & c & -> & Hb & Hc)).
    exists local, b, c. split; [reflexivity|].
    split; [now destruct local|]. split; [exact Hb|]. split; [exact Hc|].
    apply Forall_app in Hd as [Hdb Hdc]. apply Forall_cons in Hdc as [_ Hdc].
    now rewrite !Forall_app.
  - intros (a & b & c & -> & Ha & Hb & Hc & Hall).
    rewrite !Forall_app in Hall. destruct Hall as (Fa & Fb & Fc).
    cbn [app]. rewrite (splitAt_app a _ Fa).
    rewrite !andb_true_iff, !forallb_forall, <- !List.Forall_forall, inner_dot.
    repeat split.
    + now destruct a.
    + exact Fa.
    + rewrite Forall_app, Forall_cons. repeat split; assumption.
    + exists b, c. repeat split; assumption.
Qed.

Lemma absent_or_test (test : jsstring -> bool) (shape : jsstring -> Prop)
    (f : option jsstring) :
  (forall s, test s = true <-> shape s) ->
  JobCreation.truthyField f && negb (test (default [] f)) = false
  <-> absent_or shape f.
Proof.
  intros H. destruct f as [[|c s]|]; cbn; try tauto.
  rewrite negb_false_iff. apply H.
Qed.

(** X16.  [validateCustomer] accepts a customer exactly when the name is
    not blank and has at most 100 code units; the phone is not blank and is
    an optional plus sign followed by 10 to 15 digits, whitespace
    characters, hyphens or parentheses; the email, if given and not empty,
    reads local[@]domain.tld with three non-empty parts free of whitespace
    and [@]; and the alternate phone, if given and not empty, has the shape
    of a phone. *)
Theorem validateCustomer_accepts_iff (c : Customer number) :
  isValid (JobCreation.validateCustomer c) = true
  <-> (filled (name c) /\ length (name c) <= 100)
      /\ (filled (phone c) /\ phone_shape (phone c))
      /\ absent_or email_shape (email c)
      /\ absent_or phone_shape (alternatePhone c).
Proof.
  unfold JobCreation.validateCustomer. cbv zeta.
  rewrite isValid_mkResult, !pushIf_nil_iff, !pushFirst_nil_iff.
  rewrite (absent_or_test _ _ _ emailRegex_shape).
  rewrite (absent_or_test _ _ _ phoneRegex_shape).
  rewrite !blank_filled, negb_false_iff, phoneRegex_shape.
  rewrite bool_decide_eq_false. split; intros H; intuition lia.
Qed.

(** ** Creation payloads *)

Lemma includes_values {A} (value : A -> jsstring)
    (all : list A) (raw : jsstring) :
  (forall a, a ∈ all) ->
  raw <> [] \/ (forall a, value a <> []) ->
  negb (nonEmpty raw) || negb (includes (value <$> all) raw) = false
  <-> exists a, raw = value a.
Proof.
  intros Hall Hne. unfold includes.
  rewrite orb_false_iff, !negb_false_iff, bool_decide_eq_true, list_elem_of_fmap.
  split.
  - intros [_ (a & -> & _)]. now exists a.
  - intros (a & ->). split; [|exists a; split; [reflexivity|apply Hall]].
    destruct Hne as [Hne|Hne]; [now destruct (value a)|].
    specialize (Hne a). now destruct (value a).
Qed.

Lemma duration_bounds d :
  JobCreation.notPositive d = false
  /\ (Number.of_nat 1440 <? d)%num = false
  <-> positive d /\ (d <=? Number.of_nat 1440)%num = true.
Proof.
  rewrite notPositive_positive. unfold positive.
  destruct d as [q| |[]];
    cbn [Number.ltb Number.leb Number.of_nat Number.of_Z negb andb];
    try (split; intros [? ?]; congruence).
  unfold Number.Qlt_bool at 2.
  rewrite negb_false_iff. tauto.
Qed.

(** X17.  [validateJobCreation] accepts a payload exactly when title and
    description are not blank and have at most 100 and 1000 code units,
    type and priority are members of their enumerations, the scheduled
    date is not before now, the estimated duration is greater than 0 and at
    most 1440, the creator is not blank, and customer, location,
    requirements and time slot each pass their own validator. *)
Theorem validateJobCreation_accepts_iff (now : Date) (d : Job number) :
  isValid (JobCreation.validateJobCreation now d) = true
  <-> (filled (title d) /\ length (title d) <= 100)
      /\ (filled (description d) /\ length (description d) <= 1000)
      /\ (exists t, type d = JobType_value t)
      /\ (exists p, priority d = JobPriority_value p)
      /\ (now <= scheduledDate d)%Z
      /\ (positive (estimatedDuration d)
          /\ (estimatedDuration d <=? Number.of_nat 1440)%num = true)
      /\ filled (createdBy d)
      /\ isValid (JobCreation.validateCustomer (customer d)) = true
      /\ isValid (JobCreation.validateLocation (location d)) = true
      /\ isValid (JobCreation.validateJobRequirements (requirements d)) = true
      /\ isValid (JobCreation.validateTimeSlot (scheduledTimeSlot d)) = true.
Proof.
  unfold JobCreation.validateJobCreation. cbv zeta.
  rewrite isValid_mkResult, !app_nil.
  repeat (rewrite pushIf_nil_iff || rewrite pushFirst_nil_iff).
  unfold JobCreation.errorsOf.
  rewrite !blank_filled, !bool_decide_eq_false.
  rewrite (includes_values JobType_value all_types)
    by ((intros []; set_solver) || (right; intros []; discriminate)).
  rewrite (includes_values JobPriority_value all_priorities)
    by ((intros []; set_solver) || (right; intros []; discriminate)).
  rewrite Z.ltb_ge.
  pose proof (duration_bounds (estimatedDuration d)) as Hd.
  assert (Hv : forall v, errors v = [] <-> isValid (mkResult (errors v)) = true)
    by (intros v; symmetry; apply isValid_mkResult).
  assert (Hc : errors (JobCreation.validateCustomer (customer d)) = []
               <-> isValid (JobCreation.validateCustomer (customer d)) = true)
    by (symmetry; apply isValid_mkResult).
  assert (Hl : errors (JobCreation.validateLocation (location d)) = []
               <-> isValid (JobCreation.validateLocation (location d)) = true)
    by (symmetry; apply isValid_mkResult).
  assert (Hr : errors (JobCreation.validateJobRequirements (requirements d)) = []
               <-> isValid (JobCreation.validateJobRequirements (requirements d))
                   = true)
    by (symmetry; apply isValid_mkResult).
  assert (Ht : errors (JobCreation.validateTimeSlot (scheduledTimeSlot d)) = []
               <-> isValid (JobCreation.validateTimeSlot (scheduledTimeSlot d))
                   = true)
    by (symmetry; apply isValid_mkResult).
  rewrite Hc, Hl, Hr, Ht. clear Hv Hc Hl Hr Ht.
  split; intros H; intuition lia.
Qed.

(** ** Creating a job *)

(** X18.  [createJob] validates before it writes.  A payload that fails
    validation is refused with all its errors in one message and the store
    is left as it is.  A valid payload is stored under the new document id,
    beside the jobs, users and assignment records already there, and read
    back by [getJobById] it carries that id, the status pending whatever
    status the payload had, and the time of the call as creation and update
    time. *)
Theorem createJob_validates_then_stores_pending (docId : jsstring)
    (now : Date) (d : Job number) (db : Db number) :
  db_jobs db !! docId = None ->
  let out := JobCreationService.createJob docId now d db in
  if isValid (JobCreation.validateJobCreation now d)
  then fst out = Ok docId
       /\ db_users (snd out) = db_users db
       /\ db_assignments (snd out) = db_assignments db
       /\ delete docId (db_jobs (snd out)) = db_jobs db
       /\ exists j,
            JobService.getJobById docId (snd out) = (Ok (Some j), snd out)
            /\ id j = docId
            /\ status j = js "pending"
            /\ createdAt j = now /\ updatedAt j = now
  else out
       = (Error (js "Validation failed: "
                   ++ join (js ", ")
                        (errors (JobCreation.validateJobCreation now d))),
          db).
Proof.
  intros Hfresh. cbv zeta. unfold JobCreationService.createJob.
  destruct (isValid (JobCreation.validateJobCreation now d)); cbn [negb];
    [|reflexivity].
  cbn [fst snd db_users db_assignments db_jobs].
  split; [reflexivity|]. split; [reflexivity|]. split; [reflexivity|].
  split; [rewrite delete_insert_eq; now apply delete_id|].
  eexists. split.
  { unfold JobService.getJobById, getJobDoc, bind, ret. cbn [db_jobs].
    rewrite lookup_insert_eq. reflexivity. }
  repeat split.
Qed.

Lemma createJob_validates_then_stores_pending_witness :
  let d := Payload.job (js "Fibre install") (js "completed") in
  let out := JobCreationService.createJob (js "new1") 900 d Payload.emptyDb in
  db_jobs Payload.emptyDb !! js "new1" = None
  /\ isValid (JobCreation.validateJobCreation 900 d) = true
  /\ fst out = Ok (js "new1")
  /\ statusOf (js "new1") (snd out) = Some (js "pending").
Proof.
  intros d out.
  assert (Hf : db_jobs Payload.emptyDb !! js "new1" = None) by reflexivity.
  assert (Hv : isValid (JobCreation.validateJobCreation 900 d) = true)
    by (vm_compute; reflexivity).
  split; [exact Hf|]. split; [exact Hv|].
  pose proof (createJob_validates_then_stores_pending (js "new1") 900 d
                Payload.emptyDb Hf) as H.
  cbv zeta in H. rewrite Hv in H. destruct H as (H1 & _).
  split; [exact H1|]. vm_compute. reflexivity.
Defined.

Lemma removeAll_all_stripped s :
  Forall (fun c => includes [60; 62; 39; 34]%N c = true) s ->
  DataSanitizer.removeAll [39; 34]%N (DataSanitizer.removeAll (js "<>") s) = [].
Proof.
  induction 1 as [|c s Hc _ IH]; [reflexivity|].
  unfold DataSanitizer.removeAll in *. cbn [List.filter].
  destruct (includes (js "<>") c) eqn:E1; cbn [negb]; [exact IH|].
  cbn [List.filter].
  destruct (includes [39; 34]%N c) eqn:E2; cbn [negb]; [exact IH|].
  exfalso. unfold includes in *.
  apply bool_decide_eq_true in Hc. apply bool_decide_eq_false in E1, E2.
  change (js "<>") with [60; 62]%N in E1.
  rewrite !elem_of_cons, elem_of_nil in Hc.
  rewrite !elem_of_cons, elem_of_nil in E1.
  rewrite !elem_of_cons, elem_of_nil in E2. tauto.
Qed.

Lemma valid_payload_has_title now (d : Job number) :
  isValid (JobCreation.validateJobCreation now d) = true -> filled (title d).
Proof.
  unfold JobCreation.validateJobCreation. cbv zeta.
  rewrite isValid_mkResult, !app_nil.
  repeat (rewrite pushIf_nil_iff || rewrite pushFirst_nil_iff).
  rewrite !blank_filled. tauto.
Qed.

(** X19.  Validation runs on the payload as given and sanitizing comes
    after it: a title made only of the characters the sanitizer strips
    ([<], [>], apostrophe, double quote) passes validation as a title that
    is not blank, and the job is stored with an empty title. *)
Theorem createJob_may_store_an_empty_title (docId : jsstring) (now : Date)
    (d : Job number) (db : Db number) :
  isValid (JobCreation.validateJobCreation now d) = true ->
  Forall (fun c => includes [60; 62; 39; 34]%N c = true) (title d) ->
  filled (title d)
  /\ fst (JobCreationService.createJob docId now d db) = Ok docId
  /\ (title <$> db_jobs (snd (JobCreationService.createJob docId now d db))
                  !! docId)
     = Some [].
Proof.
  intros Hv Hs. split; [now apply valid_payload_has_title in Hv|].
  unfold JobCreationService.createJob. rewrite Hv. cbn [negb fst snd db_jobs].
  split; [reflexivity|]. rewrite lookup_insert_eq. cbn.
  unfold JobCreationService.sanitizeText, DataSanitizer.sanitizeString,
    DataSanitizer.substring0.
  rewrite (removeAll_all_stripped (trim (title d))) by now apply trim_Forall.
  now destruct (title d).
Qed.

Lemma createJob_may_store_an_empty_title_witness :
  let d := Payload.job (js "<>") (js "pending") in
  isValid (JobCreation.validateJobCreation 900 d) = true
  /\ Forall (fun c => includes [60; 62; 39; 34]%N c = true) (title d)
  /\ (title <$>
        db_jobs (snd (JobCreationService.createJob (js "new1") 900 d
                        Payload.emptyDb)) !! js "new1")
     = Some [].
Proof.
  intros d.
  assert (Hv : isValid (JobCreation.validateJobCreation 900 d) = true)
    by (vm_compute; reflexivity).
  assert (Hs : Forall (fun c => includes [60; 62; 39; 34]%N c = true) (title d))
    by (repeat constructor).
  split; [exact Hv|]. split; [exact Hs|].
  exact (proj2 (proj2 (createJob_may_store_an_empty_title (js "new1") 900 d
                         Payload.emptyDb Hv Hs))).
Defined.

(** ** Search keywords *)

Lemma distinct_from (keywords seen : list jsstring) :
  NoDup seen ->
  let out :=
    foldl (fun seen k => if includes seen k then seen else seen ++ [k])
      seen keywords in
  NoDup out /\ forall k, k ∈ out <-> k ∈ seen \/ k ∈ keywords.
Proof.
  revert seen. induction keywords as [|k0 keywords IH]; intros seen Hnd; cbn.
  - split; [exact Hnd|]. intros k. rewrite elem_of_nil. tauto.
  - destruct (includes seen k0) eqn:E; unfold includes in E.
    + apply bool_decide_eq_true in E. destruct (IH seen Hnd) as [H1 H2].
      split; [exact H1|]. intros k. rewrite H2, elem_of_cons.
      split; [tauto|]. intros [?|[->|?]]; tauto.
    + apply bool_decide_eq_false in E.
      assert (Hnd' : NoDup (seen ++ [k0])).
      { apply NoDup_app. split; [exact Hnd|]. split.
        - intros x Hx Hx'. apply list_elem_of_singleton in Hx'. now subst.
        - apply NoDup_singleton. }
      destruct (IH (seen ++ [k0]) Hnd') as [H1 H2].
      split; [exact H1|]. intros k.
      rewrite H2, elem_of_app, list_elem_of_singleton, elem_of_cons. tauto.
Qed.

(** X20.  [generateSearchKeywords] returns keywords that are pairwise
    distinct and never empty; the lowercased customer name, city, state,
    address, type and priority of the job and each of its lowercased skills
    are among them, unless empty. *)
Theorem generateSearchKeywords_distinct_and_filled {C : Type}
    (toLowerCase : jsstring -> jsstring) (job : Job C) :
  let keywords := JobCreationService.generateSearchKeywords toLowerCase job in
  NoDup keywords
  /\ Forall (fun k => k <> []) keywords
  /\ Forall (fun k => k = [] \/ k ∈ keywords)
       ([toLowerCase (name (customer job)); toLowerCase (city (location job));
         toLowerCase (state (location job));
         toLowerCase (address (location job));
         toLowerCase (type job); toLowerCase (priority job)]
        ++ (toLowerCase <$> skills (requirements job))).
Proof.
  cbv zeta. unfold JobCreationService.generateSearchKeywords,
    JobCreationService.distinct.
  set (all := JobCreationService.allKeywords toLowerCase job).
  destruct (distinct_from (List.filter (fun k => 0 <? length k) all) []
              (NoDup_nil_2)) as [Hnd Hin].
  cbv zeta in Hnd, Hin.
  assert (Hmem : forall k, k ∈ foldl
                   (fun seen k0 => if includes seen k0 then seen else seen ++ [k0])
                   [] (List.filter (fun k0 => 0 <? length k0) all)
                 <-> k <> [] /\ k ∈ all).
  { intros k. rewrite Hin, elem_of_nil, !list_elem_of_In, filter_In.
    rewrite Nat.ltb_lt. destruct k; cbn; split; intros H;
      try (destruct H as [[]|H]); intuition (try lia; try discriminate). }
  split; [exact Hnd|]. split.
  - apply List.Forall_forall. intros k Hk.
    apply list_elem_of_In, Hmem in Hk. tauto.
  - apply List.Forall_forall. intros k Hk.
    destruct k as [|c k]; [now left|]. right. apply Hmem.
    split; [discriminate|].
    unfold all, JobCreationService.allKeywords.
    apply list_elem_of_In in Hk.
    rewrite !elem_of_app, !list_elem_of_singleton.
    rewrite elem_of_app, !elem_of_cons, elem_of_nil in Hk.
    tauto.
Qed.

(** ** Status buckets *)

Lemma countJob_bucket {C} (st : JobStatus) (stats : JobStats) (job : Job C) :
  bucket st (JobQueries.countJob stats job)
  = bucket st stats
    + (if bool_decide (status job = JobStatus_value st) then 1 else 0).
Proof.
  unfold JobQueries.countJob.
  destruct (JobStatus_of (status job)) as [s|] eqn:E.
  - apply JobStatus_of_Some in E. rewrite <- E.
    destruct (bool_decide (JobStatus_value s = JobStatus_value st)) eqn:B.
    + apply bool_decide_eq_true, JobStatus_value_inj in B. subst st.
      destruct s; cbn; lia.
    + apply bool_decide_eq_false in B.
      destruct st, s; cbn; (lia || now destruct B).
  - rewrite bool_decide_eq_false_2.
    + destruct st; cbn; lia.
    + intros H. rewrite H, JobStatus_of_value in E. discriminate.
Qed.

Lemma computeStats_bucket {C} (st : JobStatus) (docs : list (Job C))
    (stats : JobStats) :
  bucket st (foldl JobQueries.countJob stats docs)
  = bucket st stats + countStatus st docs.
Proof.
  revert stats. unfold countStatus.
  induction docs as [|job docs IH]; intros stats; cbn [foldl List.filter].
  - cbn. lia.
  - rewrite IH, countJob_bucket.
    destruct (bool_decide (status job = JobStatus_value st)); cbn [length]; lia.
Qed.

(** X21.  Each of the six status counters of [getJobStats] is exactly the
    number of scanned documents whose stored status is that status. *)
Theorem getJobStats_buckets_are_exact {C : Type}
    (getDocs : list (QueryConstraint C) -> gmap jsstring (Job C)
               -> option (list (jsstring * Job C)))
    (range : option (Date * Date)) (db : Db C) :
  match getDocs (JobQueries.statsQuery range) (db_jobs db) with
  | Some docs =>
      exists stats,
        JobQueries.getJobStats getDocs range db = Ok stats
        /\ forall st, bucket st stats = countStatus st (snd <$> docs)
  | None =>
      JobQueries.getJobStats getDocs range db
      = Error (js "Failed to get job statistics")
  end.
Proof.
  unfold JobQueries.getJobStats.
  destruct (getDocs _ _) as [docs|]; [|reflexivity].
  eexists. split; [reflexivity|]. intros st.
  unfold JobQueries.computeStats. rewrite computeStats_bucket.
  now destruct st.
Qed.

(** ** Searching *)

Section Searching.

Context {C D : Type}.
Variable getDocs :
  list (QueryConstraint C) -> gmap jsstring (Job C)
  -> option (list (jsstring * Job C)).
Variable toLowerCase : jsstring -> jsstring.
Variable calculateDistance : C -> C -> C -> C -> D.
Variable le : D -> D -> bool.

Lemma searchJobsQuery_plain text (filter : option (JobFilter C D)) pageSize
    lastJobId (db : Db C) :
  JobSearch.searchJobsQuery (plainSearch text filter pageSize lastJobId) db
  = JobQueries.jobsQuery filter (default 20 pageSize) lastJobId db.
Proof. reflexivity. Qed.

Lemma textFilter_no_text text (jobs : list (Job C)) :
  no_text text -> JobSearch.textFilter toLowerCase text jobs = jobs.
Proof.
  destruct text as [t|]; [|reflexivity]. cbn. intros ->.
  now rewrite andb_false_r.
Qed.

Lemma matchesText_matchesQuery searchLower (job : Job C) :
  JobQueries.matchesText toLowerCase searchLower job = true ->
  JobSearch.matchesQuery toLowerCase searchLower job = true.
Proof.
  unfold JobQueries.matchesText, JobSearch.matchesQuery.
  rewrite !orb_true_iff. tauto.
Qed.

Lemma geoFilter_In (g : GeoFilter C D) (l1 l2 : list (Job C)) :
  (forall j, In j l1 -> In j l2) ->
  forall j, In j (JobQueries.geoFilter calculateDistance le g l1) ->
            In j (JobQueries.geoFilter calculateDistance le g l2).
Proof.
  unfold JobQueries.geoFilter. intros H j. rewrite !filter_In.
  intros [H1 H2]. auto.
Qed.

End Searching.

(** X22.  [searchJobs] with no text to search for (no query, or one of
    nothing but whitespace) and the default order is [getJobs] with the
    same filter, page size and cursor, provided the filter carries no
    search text of its own: same page, same [hasMore]; when the store
    fails, the error is the one of [searchJobs]. *)
Theorem searchJobs_without_text_is_getJobs {C D : Type}
    (getDocs : list (QueryConstraint C) -> gmap jsstring (Job C)
               -> option (list (jsstring * Job C)))
    (toLowerCase : jsstring -> jsstring)
    (calculateDistance : C -> C -> C -> C -> D) (le : D -> D -> bool)
    (text : option jsstring) (filter : option (JobFilter C D))
    (pageSize : option nat) (lastJobId : option jsstring) (db : Db C) :
  no_text text ->
  default [] (filter ≫= searchText) = [] ->
  JobSearch.searchJobs getDocs toLowerCase calculateDistance le
    (plainSearch text filter pageSize lastJobId) db
  = match JobQueries.getJobs getDocs toLowerCase calculateDistance le
            filter pageSize lastJobId db with
    | Ok page => Ok page
    | Error _ => Error (js "Failed to search jobs")
    end.
Proof.
  intros Htext Hfilter.
  unfold JobSearch.searchJobs, JobQueries.getJobs.
  rewrite searchJobsQuery_plain.
  cbn [search_pageSize search_query filters plainSearch].
  destruct (getDocs _ _) as [docs|]; [|reflexivity].
  cbv zeta. rewrite textFilter_no_text by exact Htext.
  do 2 f_equal.
  unfold JobSearch.locationFilter, JobQueries.clientFilters.
  destruct filter as [f|]; [|reflexivity]. cbn in Hfilter.
  destruct (searchText f) as [t|]; [|reflexivity].
  cbn in Hfilter. subst t. reflexivity.
Qed.

Lemma searchJobs_without_text_is_getJobs_witness :
  let db :=
    Sample.db
      [(js "j1", Sample.job (js "pending") (js "high") []);
       (js "j2", Sample.job (js "pending") (js "low") []);
       (js "j3", Sample.job (js "assigned") (js "low") [])] [] in
  no_text (Some (js "   "))
  /\ default [] (Some (textOnly None) ≫= searchText) = []
  /\ JobSearch.searchJobs Sample.allDocs (fun s => s) Sample.threeKm Number.leb
       (plainSearch (Some (js "   ")) (Some (textOnly None)) (Some 2) None) db
     = JobQueries.getJobs Sample.allDocs (fun s => s) Sample.threeKm Number.leb
         (Some (textOnly None)) (Some 2) None db.
Proof.
  intros db.
  assert (H1 : no_text (Some (js "   "))) by reflexivity.
  assert (H2 : default [] (Some (textOnly None) ≫= searchText) = [])
    by reflexivity.
  split; [exact H1|]. split; [exact H2|].
  rewrite (searchJobs_without_text_is_getJobs Sample.allDocs (fun s => s)
             Sample.threeKm Number.leb (Some (js "   ")) (Some (textOnly None))
             (Some 2) None db H1 H2).
  reflexivity.
Defined.

(** X23.  Whatever [getJobs] finds for a search text, [searchJobs] finds
    for the same text given as its query, with the same filter, page size
    and cursor and the default order: the text search of [searchJobs] looks
    into every field [getJobs] looks into (and into city, skills, type and
    priority besides), and both announce more pages alike. *)
Theorem searchJobs_finds_what_getJobs_finds {C D : Type}
    (getDocs : list (QueryConstraint C) -> gmap jsstring (Job C)
               -> option (list (jsstring * Job C)))
    (toLowerCase : jsstring -> jsstring)
    (calculateDistance : C -> C -> C -> C -> D) (le : D -> D -> bool)
    (text : jsstring) (filter : JobFilter C D)
    (pageSize : option nat) (lastJobId : option jsstring) (db : Db C)
    (found : JobPage C) :
  searchText filter = Some text ->
  JobQueries.getJobs getDocs toLowerCase calculateDistance le
    (Some filter) pageSize lastJobId db = Ok found ->
  exists page,
    JobSearch.searchJobs getDocs toLowerCase calculateDistance le
      (plainSearch (Some text) (Some filter) pageSize lastJobId) db = Ok page
    /\ hasMore page = hasMore found
    /\ forall job, In job (page_jobs found) -> In job (page_jobs page).
Proof.
  intros Htext. unfold JobSearch.searchJobs, JobQueries.getJobs.
  rewrite searchJobsQuery_plain.
  cbn [search_pageSize search_query filters plainSearch].
  destruct (getDocs _ _) as [docs|]; [|discriminate].
  intros [= <-]. eexists. split; [reflexivity|].
  cbn [hasMore page_jobs]. split; [reflexivity|].
  unfold JobQueries.clientFilters, JobSearch.locationFilter. rewrite Htext.
  set (jobs := JobQueries.collectPage (default 20 pageSize) docs).
  assert (Hin : forall job,
             In job (if nonEmpty text
                     then List.filter
                            (JobQueries.matchesText toLowerCase
                               (toLowerCase text)) jobs
                     else jobs) ->
             In job (JobSearch.textFilter toLowerCase (Some text) jobs)).
  { intros job. unfold JobSearch.textFilter.
    destruct (nonEmpty text); cbn [andb]; [|tauto].
    destruct (0 <? length (trim text)).
    - rewrite !filter_In. intros [H1 H2]. split; [exact H1|].
      now apply matchesText_matchesQuery.
    - rewrite filter_In. tauto. }
  destruct (filter_location filter) as [g|]; [|exact Hin].
  now apply geoFilter_In.
Qed.

Lemma searchJobs_finds_what_getJobs_finds_witness :
  let db :=
    Sample.db
      [(js "j1", Sample.job (js "pending") (js "high") []);
       (js "j2", Sample.job (js "pending") (js "low") [])] [] in
  let filter := textOnly (Some (js "Fibre")) in
  exists found page,
    searchText filter = Some (js "Fibre")
    /\ JobQueries.getJobs Sample.allDocs (fun s => s) Sample.threeKm Number.leb
         (Some filter) None None db = Ok found
    /\ length (page_jobs found) = 2
    /\ JobSearch.searchJobs Sample.allDocs (fun s => s) Sample.threeKm
         Number.leb (plainSearch (Some (js "Fibre")) (Some filter) None None) db
       = Ok page
    /\ hasMore page = hasMore found.
Proof.
  intros db filter.
  assert (H1 : searchText filter = Some (js "Fibre")) by reflexivity.
  eexists.
  assert (H2 : JobQueries.getJobs Sample.allDocs (fun s => s) Sample.threeKm
                 Number.leb (Some filter) None None db = Ok _)
    by (vm_compute; reflexivity).
  destruct (searchJobs_finds_what_getJobs_finds Sample.allDocs (fun s => s)
              Sample.threeKm Number.leb (js "Fibre") filter None None db _
              H1 H2) as (page & Hp & Hm & _).
  exists page. split; [exact H1|]. split; [exact H2|].
  split; [reflexivity|]. split; [exact Hp|exact Hm].
Defined.

(** ** Jobs near a place *)

Lemma number_leb_trans (a b c : number) :
  (a <=? b)%num = true -> (b <=? c)%num = true -> (a <=? c)%num = true.
Proof.
  destruct a as [x| |[]], b as [y| |[]], c as [z| |[]]; cbn;
    try congruence; try reflexivity.
  rewrite !Qle_bool_iff. intros. Lqa.lra.
Qed.

(** The comparator of the proximity sort on two distances that passed the
    radius test: positive exactly when the first is the greater. *)
Lemma byDistance_order (a b r : number) :
  (a <=? r)%num = true -> (b <=? r)%num = true ->
  if (Number.of_nat 0 <? a - b)%num
  then (b <=? a)%num = true
  else (a <=? b)%num = true.
Proof.
  destruct a as [x| |[]], b as [y| |[]]; cbn; try discriminate;
    try reflexivity; intros _ _; try (destruct r as [?| |[]]; discriminate).
  unfold Number.Qlt_bool.
  destruct (Qle_bool (Qred (x + Qred (- y))) (inject_Z (Z.of_nat 0))) eqn:E;
    cbn [negb].
  - apply Qle_bool_iff in E. rewrite !Qred_correct in E.
    change (inject_Z (Z.of_nat 0)) with 0%Q in E.
    apply Qle_bool_iff. Lqa.lra.
  - apply not_true_iff_false in E. rewrite Qle_bool_iff, !Qred_correct in E.
    change (inject_Z (Z.of_nat 0)) with 0%Q in E.
    apply Qle_bool_iff. apply Qnot_le_lt in E. Lqa.lra.
Qed.

Section Nearest.

Context {C : Type}.
Variable calculateDistance : C -> C -> C -> C -> number.
Implicit Types (x y : Job C * number) (l : list (Job C * number)).

Lemma insertSorted_nearer r x l :
  (snd x <=? r)%num = true ->
  Forall (fun y => (snd y <=? r)%num = true) l ->
  StronglySorted nearer l ->
  StronglySorted nearer (insertSorted Proximity.byDistance x l).
Proof.
  intros Hx Hl Hs. induction Hs as [|y l Hs IH Hy]; cbn [insertSorted].
  - repeat constructor.
  - apply Forall_cons in Hl as [Hyr Hl].
    pose proof (byDistance_order (snd x) (snd y) r Hx Hyr) as Ho.
    unfold Proximity.byDistance at 1.
    destruct (Number.of_nat 0 <? snd x - snd y)%num.
    + constructor; [now apply IH|].
      rewrite insertSorted_Permutation. constructor; [exact Ho|exact Hy].
    + constructor; [now constructor|]. constructor; [exact Ho|].
      eapply Forall_impl; [exact Hy|]. intros z Hz. unfold nearer in *.
      now apply (number_leb_trans _ (snd y)).
Qed.

Lemma sort_nearer r l :
  Forall (fun y => (snd y <=? r)%num = true) l ->
  StronglySorted nearer (sort Proximity.byDistance l).
Proof.
  induction l as [|x l IH]; intros Hl; [constructor|].
  apply Forall_cons in Hl as [Hx Hl]. cbn [sort foldr].
  apply (insertSorted_nearer r); [exact Hx| |now apply IH].
  fold (sort Proximity.byDistance l). now rewrite sort_Permutation.
Qed.

Lemma withinRadius_from lat lon r (docs : list (jsstring * Job C)) l :
  foldl
    (fun jobs doc =>
       let job := JobQueries.convertDoc doc in
       let distance := Proximity.distanceTo calculateDistance lat lon job in
       if (distance <=? r)%num then jobs ++ [(job, distance)] else jobs)
    l docs
  = l ++ List.filter (fun found => (snd found <=? r)%num)
           (List.map
              (fun doc =>
                 (JobQueries.convertDoc doc,
                  Proximity.distanceTo calculateDistance lat lon
                    (JobQueries.convertDoc doc)))
              docs).
Proof.
  revert l. induction docs as [|doc docs IH]; intros l;
    cbn [foldl List.map List.filter snd].
  - now rewrite app_nil_r.
  - rewrite IH. cbv zeta.
    destruct (Proximity.distanceTo calculateDistance lat lon
                (JobQueries.convertDoc doc) <=? r)%num; [|reflexivity].
    now rewrite <- app_assoc.
Qed.

Lemma withinRadius_elem_of lat lon r (docs : list (jsstring * Job C)) found :
  found ∈ Proximity.withinRadius calculateDistance lat lon r docs
  <-> (snd found <=? r)%num = true
      /\ exists doc,
           doc ∈ docs
           /\ found = (JobQueries.convertDoc doc,
                       Proximity.distanceTo calculateDistance lat lon
                         (JobQueries.convertDoc doc)).
Proof.
  unfold Proximity.withinRadius. rewrite withinRadius_from, app_nil_l.
  rewrite list_elem_of_In, filter_In, in_map_iff. split.
  - intros [(doc & E & Hd) Hr]. split; [exact Hr|]. exists doc.
    now rewrite list_elem_of_In.
  - intros [Hr (doc & Hd & E)]. split; [|exact Hr]. exists doc.
    now rewrite <- list_elem_of_In.
Qed.

End Nearest.

(** X24.  [getJobsByProximity] returns at most [maxResults] jobs (10 by
    default).  Every returned job comes from a scanned document and carries
    its distance from the given place, which is at most the radius, so a
    job whose distance is [NaN] is never returned.  The jobs are in order
    of distance, nearest first, and none of the scanned jobs within the
    radius is passed over for a farther one: a job within the radius that
    is not returned is at least as far as each of the [maxResults] jobs
    that are. *)
Theorem getJobsByProximity_nearest_first {C : Type}
    (getDocs : list (QueryConstraint C) -> gmap jsstring (Job C)
               -> option (list (jsstring * Job C)))
    (calculateDistance : C -> C -> C -> C -> number)
    (lat lon : C) (radiusKm : number) (maxResults : option nat) (db : Db C) :
  let n := default 10 maxResults in
  let distance := Proximity.distanceTo calculateDistance lat lon in
  let call :=
    Proximity.getJobsByProximity getDocs calculateDistance lat lon radiusKm
      maxResults db in
  match getDocs (Proximity.proximityQuery n) (db_jobs db) with
  | Some docs =>
      exists jobs,
        call = Ok jobs
        /\ length jobs <= n
        /\ Forall
             (fun found =>
                (exists doc,
                    doc ∈ docs /\ fst found = JobQueries.convertDoc doc)
                /\ snd found = distance (fst found)
                /\ (snd found <=? radiusKm)%num = true)
             jobs
        /\ StronglySorted nearer jobs
        /\ forall doc,
             doc ∈ docs ->
             let job := JobQueries.convertDoc doc in
             (distance job <=? radiusKm)%num = true ->
             (job, distance job) ∈ jobs
             \/ (length jobs = n
                 /\ Forall (fun found => nearer found (job, distance job)) jobs)
  | None => call = Error (js "Failed to get jobs by proximity")
  end.
Proof.
  intros n distance call. unfold call, Proximity.getJobsByProximity. fold n.
  destruct (getDocs _ _) as [docs|]; [|reflexivity].
  eexists. split; [reflexivity|].
  set (kept := Proximity.withinRadius calculateDistance lat lon radiusKm docs).
  set (sorted := sort Proximity.byDistance kept).
  assert (Hkept : Forall (fun y => (snd y <=? radiusKm)%num = true) kept).
  { apply Forall_forall. intros found Hf.
    now apply withinRadius_elem_of in Hf as [Hr _]. }
  assert (Hsorted : StronglySorted nearer sorted)
    by now apply (sort_nearer radiusKm).
  assert (Hmem : forall found, found ∈ sorted <-> found ∈ kept).
  { intros found. unfold sorted. now rewrite sort_Permutation. }
  rewrite <- (take_drop n sorted) in Hsorted.
  split; [rewrite length_take; lia|]. split; [|split].
  - apply Forall_forall. intros found Hf.
    apply elem_of_take in Hf as (i & Hf & _).
    apply list_elem_of_lookup_2, Hmem, withinRadius_elem_of in Hf
      as [Hr (doc & Hd & ->)].
    cbn [fst snd] in *. split; [now exists doc|]. now split.
  - now apply StronglySorted_app_1_l in Hsorted.
  - intros doc Hd Hr. set (job := JobQueries.convertDoc doc) in *.
    assert (Hin : (job, distance job) ∈ sorted).
    { apply Hmem, withinRadius_elem_of. split; [exact Hr|]. now exists doc. }
    rewrite <- (take_drop n sorted) in Hin.
    apply elem_of_app in Hin as [Hin|Hin]; [now left|]. right. split.
    + rewrite length_take. apply Nat.min_l.
      destruct (decide (n <= length sorted)) as [Hle|Hgt]; [exact Hle|].
      rewrite drop_ge in Hin by lia. now apply elem_of_nil in Hin.
    + apply Forall_forall. intros found Hf.
      exact (StronglySorted_app_1_elem_of _ _ _ _ _ Hsorted Hf Hin).
Qed.

(** ** Workload of a technician *)

Section WorkloadCounts.

Context {C : Type}.
Variable add : number -> number -> number.
Implicit Types (c : WorkloadCounters) (job : Job C) (jobs : list (Job C)).

Lemma countJob_counts c job :
  count_activeJobs (Workload.countJob add c job)
  = count_activeJobs c
    + (if bool_decide (status job = JobStatus_value IN_PROGRESS) then 1 else 0)
  /\ count_scheduledJobs (Workload.countJob add c job)
     = count_scheduledJobs c
       + (if bool_decide (status job = JobStatus_value ASSIGNED) then 1 else 0)
  /\ (bool_decide (status job = JobStatus_value IN_PROGRESS) = true ->
      bool_decide (status job = JobStatus_value ASSIGNED) = false).
Proof.
  assert (Hs : bool_decide (status job = JobStatus_value IN_PROGRESS) = true ->
               bool_decide (status job = JobStatus_value ASSIGNED) = false).
  { intros H. apply bool_decide_eq_true in H. apply bool_decide_eq_false.
    rewrite H. intros E. apply JobStatus_value_inj in E. discriminate. }
  split; [|split; [|exact Hs]]; unfold Workload.countJob;
    destruct (bool_decide (status job = JobStatus_value IN_PROGRESS));
    try rewrite Hs by reflexivity;
    destruct (bool_decide (status job = JobStatus_value ASSIGNED));
    destruct (actualDuration job) as [minutes|];
    try destruct (Number.truthy minutes);
    cbn [count_activeJobs count_scheduledJobs]; lia.
Qed.

Lemma countJob_durations c job :
  totalDuration (Workload.countJob add c job)
  = foldl add (totalDuration c) (countedDurations [job])
  /\ completedJobs (Workload.countJob add c job)
     = completedJobs c + length (countedDurations [job]).
Proof.
  unfold Workload.countJob, countedDurations. cbn [omap list_omap].
  destruct (actualDuration job) as [minutes|];
    [destruct (Number.truthy minutes)|];
    cbn [totalDuration completedJobs foldl length]; split; lia || reflexivity.
Qed.

Lemma countedDurations_cons job jobs :
  countedDurations (job :: jobs)
  = countedDurations [job] ++ countedDurations jobs.
Proof.
  unfold countedDurations. cbn [omap list_omap].
  now destruct (actualDuration job) as [minutes|];
    [destruct (Number.truthy minutes)|].
Qed.

Lemma workload_from jobs c :
  let c' := foldl (Workload.countJob add) c jobs in
  count_activeJobs c' = count_activeJobs c + countStatus IN_PROGRESS jobs
  /\ count_scheduledJobs c' = count_scheduledJobs c + countStatus ASSIGNED jobs
  /\ countStatus IN_PROGRESS jobs + countStatus ASSIGNED jobs <= length jobs
  /\ totalDuration c' = foldl add (totalDuration c) (countedDurations jobs)
  /\ completedJobs c' = completedJobs c + length (countedDurations jobs).
Proof.
  revert c. unfold countStatus.
  induction jobs as [|job jobs IH]; intros c; cbn [foldl List.filter length].
  - cbn. repeat split; lia.
  - destruct (IH (Workload.countJob add c job)) as (H1 & H2 & H3 & H4 & H5).
    destruct (countJob_counts c job) as (G1 & G2 & Hs).
    destruct (countJob_durations c job) as (G3 & G4).
    rewrite (countedDurations_cons job jobs), foldl_app, length_app.
    rewrite H1, H2, H4, H5, G1, G2, G3, G4.
    split; [|split; [|split; [|split; [reflexivity|lia]]]];
      destruct (bool_decide (status job = JobStatus_value IN_PROGRESS));
      try rewrite Hs by reflexivity;
      destruct (bool_decide (status job = JobStatus_value ASSIGNED));
      cbn [length]; lia.
Qed.

End WorkloadCounts.

(** X25.  [getTechnicianWorkload] counts the technician's jobs in progress
    as active and the assigned ones as scheduled, so the two together never
    exceed the jobs scanned, and reports as completed today the size of the
    second snapshot.  The average duration is taken over the jobs whose
    actual duration counts (present, not zero, not [NaN]): it is their sum,
    added up in the order scanned, divided by their number, whatever the
    rounding of the sum and the quotient; when no job has such a duration
    the average is 0 and nothing is divided. *)
Theorem getTechnicianWorkload_counts_and_average {C : Type}
    (getDocs : list (QueryConstraint C) -> gmap jsstring (Job C)
               -> option (list (jsstring * Job C)))
    (add div : number -> number -> number)
    (startOfDay nextDay : Date -> Date) (now : Date) (technicianId : jsstring)
    (db : Db C) (allJobs todayJobs : list (jsstring * Job C)) :
  getDocs (Workload.allJobsQuery technicianId) (db_jobs db) = Some allJobs ->
  getDocs (Workload.todayJobsQuery startOfDay nextDay now technicianId)
    (db_jobs db) = Some todayJobs ->
  exists w,
    Workload.getTechnicianWorkload getDocs add div startOfDay nextDay now
      technicianId db
    = Ok w
    /\ activeJobs w = countStatus IN_PROGRESS (snd <$> allJobs)
    /\ scheduledJobs w = countStatus ASSIGNED (snd <$> allJobs)
    /\ activeJobs w + scheduledJobs w <= length allJobs
    /\ completedToday w = length todayJobs
    /\ averageJobDuration w
       = match countedDurations (snd <$> allJobs) with
         | [] => Number.of_nat 0
         | durations =>
             div (foldl add (Number.of_nat 0) durations)
               (Number.of_nat (length durations))
         end.
Proof.
  intros Hall Htoday. unfold Workload.getTechnicianWorkload.
  rewrite Hall, Htoday. cbv zeta.
  destruct (workload_from add (snd <$> allJobs) Workload.noCounters)
    as (H1 & H2 & H3 & H4 & H5).
  cbn [Workload.noCounters count_activeJobs count_scheduledJobs completedJobs
         totalDuration] in H1, H2, H4, H5.
  rewrite length_fmap in H3.
  eexists. split; [reflexivity|].
  cbn [activeJobs scheduledJobs completedToday averageJobDuration].
  rewrite H1, H2, H4, H5, !Nat.add_0_l.
  repeat (split; [first [reflexivity | lia]|]).
  now destruct (countedDurations (snd <$> allJobs)).
Qed.

Lemma getTechnicianWorkload_counts_and_average_witness :
  let allJobs :=
    [(js "j1", finished (js "completed") (Some (Number.of_nat 30)));
     (js "j2", finished (js "in_progress") None);
     (js "j3", finished (js "completed") (Some (Number.of_nat 0)));
     (js "j4", finished (js "completed") (Some (Number.of_nat 90)));
     (js "j5", finished (js "assigned") (Some NaN))] in
  let getDocs (q : list (QueryConstraint Q)) (jobs : gmap jsstring (Job Q)) :=
    Some allJobs in
  exists w,
    Workload.getTechnicianWorkload getDocs Number.add Number.div (fun d => d)
      (fun d => (d + 86400000)%Z) 900 (js "t1") (Sample.db [] []) = Ok w
    /\ activeJobs w = 1 /\ scheduledJobs w = 1
    /\ countedDurations (snd <$> allJobs)
       = [Number.of_nat 30; Number.of_nat 90]
    /\ averageJobDuration w = Number.of_nat 60.
Proof.
  intros allJobs getDocs.
  destruct (getTechnicianWorkload_counts_and_average getDocs Number.add
              Number.div (fun d => d) (fun d => (d + 86400000)%Z) 900
              (js "t1") (Sample.db [] []) allJobs allJobs eq_refl eq_refl)
    as (w & Hw & H1 & H2 & _ & _ & H3).
  exists w. split; [exact Hw|]. split; [exact H1|]. split; [exact H2|].
  split; [reflexivity|]. rewrite H3. reflexivity.
Defined.

(** ** Jobs requiring attention *)

Section AttentionMap.

Context {C : Type}.
Implicit Types (m seen snapshot : list (jsstring * Job C)).

Lemma mapSet_fst {V} (key : jsstring) (value : V) (m : list (jsstring * V)) :
  fst <$> mapSet key value m
  = if bool_decide (key ∈ (fst <$> m)) then fst <$> m
    else (fst <$> m) ++ [key].
Proof.
  induction m as [|[k v] m IH]; cbn [mapSet fmap list_fmap fst].
  - now rewrite bool_decide_eq_false_2 by apply not_elem_of_nil.
  - destruct (bool_decide (k = key)) eqn:E.
    + apply bool_decide_eq_true in E. subst k.
      now rewrite bool_decide_eq_true_2 by apply list_elem_of_here.
    + apply bool_decide_eq_false in E. cbn [fmap list_fmap fst].
      fold (fst <$> mapSet key value m). fold (fst <$> m). rewrite IH.
      destruct (bool_decide (key ∈ (fst <$> m))) eqn:E'.
      * apply bool_decide_eq_true in E'.
        now rewrite bool_decide_eq_true_2 by now apply list_elem_of_further.
      * apply bool_decide_eq_false in E'.
        rewrite bool_decide_eq_false_2; [reflexivity|].
        rewrite elem_of_cons. intros [->|?]; tauto.
Qed.

Lemma mapSet_elem_of {V} (key : jsstring) (value : V)
    (m : list (jsstring * V)) kv :
  kv ∈ mapSet key value m -> kv = (key, value) \/ kv ∈ m.
Proof.
  induction m as [|[k v] m IH]; cbn [mapSet].
  - rewrite list_elem_of_singleton. tauto.
  - destruct (bool_decide (k = key)) eqn:E.
    + apply bool_decide_eq_true in E. subst k.
      rewrite !elem_of_cons. tauto.
    + rewrite !elem_of_cons. intros [->|H]; [tauto|].
      destruct (IH H); tauto.
Qed.

Lemma collected_set m seen doc :
  collected m seen ->
  collected (mapSet (fst doc) (JobQueries.convertDoc doc) m) (seen ++ [doc]).
Proof.
  intros (Hnd & Hk & Hv). unfold collected. rewrite mapSet_fst. repeat split.
  - destruct (bool_decide (fst doc ∈ (fst <$> m))) eqn:E; [exact Hnd|].
    apply bool_decide_eq_false in E. apply NoDup_app.
    split; [exact Hnd|]. split; [|apply NoDup_singleton].
    intros x Hx Hx'. apply list_elem_of_singleton in Hx'. now subst.
  - rewrite fmap_app, elem_of_app, <- Hk. cbn. rewrite list_elem_of_singleton.
    destruct (bool_decide (fst doc ∈ (fst <$> m))) eqn:E.
    + tauto.
    + rewrite elem_of_app, list_elem_of_singleton. tauto.
  - rewrite fmap_app, elem_of_app, <- Hk. cbn. rewrite list_elem_of_singleton.
    destruct (bool_decide (fst doc ∈ (fst <$> m))) eqn:E.
    + apply bool_decide_eq_true in E. intros [? | ->]; tauto.
    + rewrite elem_of_app, list_elem_of_singleton. tauto.
  - apply Forall_forall. intros kv Hkv.
    apply mapSet_elem_of in Hkv as [->|Hkv].
    + exists doc. split; [|reflexivity].
      rewrite elem_of_app, list_elem_of_singleton. tauto.
    + rewrite Forall_forall in Hv. destruct (Hv kv Hkv) as (d & Hd & ->).
      exists d. split; [|reflexivity]. rewrite elem_of_app. tauto.
Qed.

Lemma collected_collect m seen snapshot :
  collected m seen ->
  collected (Attention.collect m snapshot) (seen ++ snapshot).
Proof.
  revert m seen. unfold Attention.collect.
  induction snapshot as [|doc snapshot IH]; intros m seen H; cbn [foldl].
  - now rewrite app_nil_r.
  - rewrite cons_middle, app_assoc. apply IH.
    now apply (collected_set m seen doc).
Qed.

End AttentionMap.

(** X26.  [getJobsRequiringAttention] lists each job once, however many of
    its three queries (overdue, high priority, long running) return it:
    the ids of the returned jobs are pairwise distinct, they are exactly
    the ids of the documents the three queries returned, and every returned
    job is one of those documents. *)
Theorem getJobsRequiringAttention_lists_each_job_once {C : Type}
    (getDocs : list (QueryConstraint C) -> gmap jsstring (Job C)
               -> option (list (jsstring * Job C)))
    (now : Date) (db : Db C) :
  let call := Attention.getJobsRequiringAttention getDocs now db in
  match getDocs (Attention.overdueQuery now) (db_jobs db),
        getDocs Attention.highPriorityQuery (db_jobs db),
        getDocs (Attention.longRunningQuery now) (db_jobs db) with
  | Some overdue, Some highPriority, Some longRunning =>
      let docs := overdue ++ highPriority ++ longRunning in
      exists jobs,
        call = Ok jobs
        /\ NoDup (id <$> jobs)
        /\ (forall i, i ∈ (id <$> jobs) <-> i ∈ (fst <$> docs))
        /\ Forall
             (fun job => exists doc,
                  doc ∈ docs /\ job = JobQueries.convertDoc doc)
             jobs
  | _, _, _ => call = Error (js "Failed to get jobs requiring attention")
  end.
Proof.
  intros call. unfold call, Attention.getJobsRequiringAttention.
  destruct (getDocs (Attention.overdueQuery now) _) as [overdue|];
    [|reflexivity].
  destruct (getDocs Attention.highPriorityQuery _) as [highPriority|];
    [|reflexivity].
  destruct (getDocs (Attention.longRunningQuery now) _) as [longRunning|];
    [|reflexivity].
  set (docs := overdue ++ highPriority ++ longRunning). eexists. split; [reflexivity|]. cbn [foldl].
  assert (H0 : collected (C:=C) [] []).
  { split; [apply NoDup_nil_2|]. split; [tauto|apply Forall_nil_2]. }
  apply (collected_collect _ _ overdue) in H0.
  apply (collected_collect _ _ highPriority) in H0.
  apply (collected_collect _ _ longRunning) in H0.
  rewrite app_nil_l, <- app_assoc in H0. fold docs in H0.
  destruct H0 as (Hnd & Hk & Hv).
  set (m := Attention.collect _ longRunning) in *.
  assert (Hid : id <$> (snd <$> m) = fst <$> m).
  { rewrite <- list_fmap_compose. apply Forall_fmap_ext_1.
    eapply Forall_impl; [exact Hv|]. intros kv (doc & _ & ->). reflexivity. }
  rewrite Hid. split; [exact Hnd|]. split; [exact Hk|].
  apply Forall_fmap. eapply Forall_impl; [exact Hv|].
  intros kv (doc & Hd & ->). now exists doc.
Qed.

(** ** What a created job holds *)

Lemma sanitizeString_is_clean input :
  clean (DataSanitizer.sanitizeString input).
Proof.
  destruct (sanitizeString_clean input) as (H1 & H2 & H3). split; [|exact H3].
  rewrite List.Forall_forall in *. intros c Hc.
  specialize (H1 c Hc). specialize (H2 c Hc). unfold includes in *.
  change (js "<>") with [60; 62]%N in H1.
  rewrite bool_decide_eq_false in *.
  rewrite !elem_of_cons, elem_of_nil in *. tauto.
Qed.

Lemma sanitizeText_is_clean s : clean (JobCreationService.sanitizeText s).
Proof.
  unfold JobCreationService.sanitizeText.
  destruct (nonEmpty s) eqn:E; [apply sanitizeString_is_clean|].
  destruct s; [|discriminate]. split; [constructor|cbn; lia].
Qed.

Lemma sanitizeField_is_clean f : clean_field (DataSanitizer.sanitizeField f).
Proof.
  unfold DataSanitizer.sanitizeField. destruct f as [s|]; [|exact I].
  destruct (nonEmpty s) eqn:E; cbn [clean_field];
    [apply sanitizeString_is_clean|].
  destruct s; [|discriminate]. split; [constructor|cbn; lia].
Qed.

Lemma sanitizeNotes_is_clean n :
  clean_notes (JobService.notesOrEmpty (JobCreationService.sanitizeNotes n)).
Proof.
  destruct n as [l|[|c s]];
    cbn [JobCreationService.sanitizeNotes JobService.notesOrEmpty clean_notes];
    try exact I; [|constructor].
  destruct l; cbn [JobService.notesOrEmpty clean_notes];
    apply Forall_fmap, Forall_true; intros s; apply sanitizeString_is_clean.
Qed.

(** X27.  Every job [createJob] stores has sanitized text: its title,
    description, customer name, e-mail and notes, the address, city, state,
    landmark and access instructions of its location, each of its notes and
    internal notes, and its completion notes and work summary are free of
    the characters < > ' and the double quote and have at most 1000 code
    units.  The customer's phone, the ZIP code, the requirements (skills,
    tools, equipment, special instructions), the creator and the customer
    signature are stored as given. *)
Theorem createJob_stores_sanitized_text (docId : jsstring) (now : Date)
    (d : Job number) (db : Db number) :
  isValid (JobCreation.validateJobCreation now d) = true ->
  exists j,
    db_jobs (snd (JobCreationService.createJob docId now d db)) !! docId
    = Some j
    /\ (clean (title j) /\ clean (description j)
        /\ clean_field (completionNotes j) /\ clean_field (workSummary j))
    /\ (clean (name (customer j)) /\ clean_field (email (customer j))
        /\ clean_field (customer_notes (customer j)))
    /\ (clean (address (location j)) /\ clean (city (location j))
        /\ clean (state (location j)) /\ clean_field (landmark (location j))
        /\ clean_field (accessInstructions (location j)))
    /\ (clean_notes (notes j) /\ clean_notes (internalNotes j))
    /\ (phone (customer j) = phone (customer d)
        /\ zipCode (location j) = zipCode (location d)
        /\ requirements j = requirements d
        /\ createdBy j = createdBy d
        /\ customerSignature j = customerSignature d).
Proof.
  intros Hv. unfold JobCreationService.createJob. rewrite Hv. cbn [negb snd db_jobs].
  rewrite lookup_insert_eq. eexists. split; [reflexivity|].
  cbn [JobCreationService.newJob JobCreationService.sanitizeJobData
         JobCreationService.sanitizeCustomer JobCreationService.sanitizeLocation
         title description completionNotes workSummary customer location name
         email customer_notes address city state landmark accessInstructions
         notes internalNotes phone zipCode requirements createdBy
         customerSignature].
  repeat split;
    first [apply sanitizeText_is_clean | apply sanitizeField_is_clean
          | apply sanitizeNotes_is_clean].
Qed.

Lemma createJob_stores_sanitized_text_witness :
  let d := Payload.job (js "<b>Fibre</b> install") (js "pending") in
  isValid (JobCreation.validateJobCreation 900 d) = true
  /\ exists j,
       db_jobs (snd (JobCreationService.createJob (js "new1") 900 d
                       Payload.emptyDb)) !! js "new1" = Some j
       /\ clean (title j)
       /\ title j = js "bFibre/b install".
Proof.
  intros d.
  assert (Hv : isValid (JobCreation.validateJobCreation 900 d) = true)
    by (vm_compute; reflexivity).
  split; [exact Hv|].
  destruct (createJob_stores_sanitized_text (js "new1") 900 d Payload.emptyDb Hv)
    as (j & Hj & (Ht & _) & _).
  exists j. split; [exact Hj|]. split; [exact Ht|].
  vm_compute in Hj. injection Hj as <-. reflexivity.
Defined.
